(** * Unreal Miner: a shallow embedding of the processing route, the
    shell scripts and the raster fusion pipeline, with proofs of its
    specification claims. *)

From Stdlib Require Import ZArith QArith Qround Qminmax Qabs Lia Lqa List Bool.
From Stdlib Require Import String Ascii.
Import ListNotations.
Open Scope Z_scope.
Set Warnings "-register-all".

(** ** Shared string helpers *)
Module Str.
Local Open Scope string_scope.

(** A one-character string from its ASCII code. *)
Definition chr (n : nat) : string := String (ascii_of_nat n) EmptyString.

(** The double quote character, used to build shell command lines. *)
Definition dq : string := chr 34.

Fixpoint digits_of_Z (fuel : nat) (n : Z) (acc : string) : string :=
  match fuel with
  | O => acc
  | S f =>
      let acc' := String (ascii_of_nat (48 + Z.to_nat (Z.modulo n 10))) acc in
      if (n <? 10)%Z then acc' else digits_of_Z f (Z.div n 10) acc'
  end.

(** Decimal rendering of an integer, as [String(n)] does in JavaScript; an
    integer has at most [log2 |z| + 1] decimal digits. *)
Definition of_Z (z : Z) : string :=
  let a := Z.abs z in
  let body := digits_of_Z (S (Z.to_nat (Z.log2 a))) a EmptyString in
  if (z <? 0)%Z then append "-" body else body.

(** [s.includes(p)]. *)
Definition includes (s p : string) : bool :=
  match index 0 p s with Some _ => true | None => false end.

(** ASCII white space, [isspace] in the C locale. *)
Definition is_ws (c : ascii) : bool :=
  let n := nat_of_ascii c in
  (n =? 32)%nat || (n =? 9)%nat || (n =? 10)%nat || (n =? 13)%nat
  || (n =? 11)%nat || (n =? 12)%nat.

(** The code points [String.prototype.trim] removes, the WhiteSpace and
    LineTerminator of ECMA-262: tab, LF, VT, FF, CR, space, U+00A0, U+1680,
    U+2000 to U+200A, U+2028, U+2029, U+202F, U+205F, U+3000 and U+FEFF.
    Strings of this development hold the UTF-8 encoding of the JavaScript
    strings they stand for, so each code point is its byte sequence. *)
Definition js_ws : list (list ascii) :=
  map (map ascii_of_nat)
    [[9]; [10]; [11]; [12]; [13]; [32]; [194; 160]; [225; 154; 128];
     [226; 128; 128]; [226; 128; 129]; [226; 128; 130]; [226; 128; 131];
     [226; 128; 132]; [226; 128; 133]; [226; 128; 134]; [226; 128; 135];
     [226; 128; 136]; [226; 128; 137]; [226; 128; 138];
     [226; 128; 168]; [226; 128; 169]; [226; 128; 175]; [226; 129; 159];
     [227; 128; 128]; [239; 187; 191]]%nat.

(** [s] without the prefix [w], if [s] starts with it. *)
Fixpoint strip_prefix (w s : list ascii) : option (list ascii) :=
  match w, s with
  | [], _ => Some s
  | c :: w', d :: s' => if Ascii.eqb c d then strip_prefix w' s' else None
  | _ :: _, [] => None
  end.

(** [s] without its first code point, if that code point is in [ws]. *)
Fixpoint ws_prefix (ws : list (list ascii)) (s : list ascii) : option (list ascii) :=
  match ws with
  | [] => None
  | w :: ws' => match strip_prefix w s with Some r => Some r | None => ws_prefix ws' s end
  end.

(** Removes leading code points of [ws]; [fuel] bounds the number removed. *)
Fixpoint strip_start (ws : list (list ascii)) (fuel : nat) (s : list ascii) : list ascii :=
  match fuel with
  | O => s
  | S f => match ws_prefix ws s with Some r => strip_start ws f r | None => s end
  end.

(** [s.trim()]: the leading white space is removed, then the trailing white
    space, read on the reversed bytes against the reversed encodings. *)
Definition trim (s : string) : string :=
  let l := list_ascii_of_string s in
  let l1 := strip_start js_ws (List.length l) l in
  let l2 := strip_start (map (@rev ascii) js_ws) (List.length l1) (rev l1) in
  string_of_list_ascii (rev l2).

End Str.

(** ** [src/web/src/app/api/process/route.ts]: [POST /api/process] *)
Module Route.
Local Open Scope string_scope.

(** JSON values as [request.json()] returns them. A number is kept as
    JavaScript prints it ([String(n)]): "0" for both zeros, "1e+21",
    "0.5", ...; JSON has no NaN. *)
Inductive json : Type :=
| JNull
| JBool (b : bool)
| JNum (r : string)
| JStr (s : string)
| JArr (xs : list json)
| JObj (fields : list (string * json)).

(** A JavaScript value: [None] is [undefined]. *)
Definition jsval := option json.

(** Property read [v.k] on a JSON value other than [null]: an object answers
    with its own field (the last one when [JSON.parse] saw duplicates);
    arrays, strings, numbers and booleans have no property of these names. *)
Definition get_prop (v : json) (k : string) : jsval :=
  match v with
  | JObj fs =>
      fold_left (fun acc kv => if String.eqb (fst kv) k then Some (snd kv) else acc)
        fs None
  | _ => None
  end.

(** JavaScript truthiness. *)
Definition truthy (v : jsval) : bool :=
  match v with
  | None | Some JNull => false
  | Some (JBool b) => b
  | Some (JNum r) => negb (String.eqb r "0")
  | Some (JStr s) => negb (String.eqb s EmptyString)
  | Some (JArr _) | Some (JObj _) => true
  end.

(** [String(v)], as a template literal applies it; [None] when it throws.
    An object renders as "[object Object]" unless it has an own [toString]
    key: JSON never makes that key a function, so [ToPrimitive] falls
    through to [Object.prototype.valueOf], which returns the object itself,
    and the conversion throws a TypeError. An array joins its elements with
    ",", [null] rendering as the empty string. *)
Fixpoint to_js_string (v : json) : option string :=
  match v with
  | JNull => Some "null"
  | JBool true => Some "true"
  | JBool false => Some "false"
  | JNum r => Some r
  | JStr s => Some s
  | JArr xs =>
      let elt x := match x with JNull => Some EmptyString | _ => to_js_string x end in
      (fix join (l : list json) : option string :=
         match l with
         | [] => Some EmptyString
         | [x] => elt x
         | x :: r =>
             match elt x, join r with
             | Some a, Some b => Some (append a (append "," b))
             | _, _ => None
             end
         end) xs
  | JObj fs =>
      match get_prop (JObj fs) "toString" with
      | Some _ => None
      | None => Some "[object Object]"
      end
  end.

Definition js_string (v : jsval) : option string :=
  match v with None => Some "undefined" | Some j => to_js_string j end.

(** The message of the TypeError thrown by [to_js_string]. *)
Definition to_primitive_msg : string := "Cannot convert object to primitive value".

(** What the promisified [exec] settles with: a resolved [{stdout, stderr}]
    or a rejection carrying [error.code] and [error.message]. *)
Inductive exec_result : Type :=
| ExecOk (stdout stderr : string)
| ExecErr (code : option string) (message : option string).

Record response : Type := { status : Z; payload : json }.

(** [NextResponse.json(body)] answers 200 unless an init gives a status. *)
Definition respond (st : Z) (p : json) : response := {| status := st; payload := p |}.

(** The environment of one request: [process.cwd()/..], the two readings of
    [Date.now()] and the outcome of running a shell command. *)
Record env : Type := {
  project_root : string;
  now_cmd : Z;
  now_job : Z;
  run : string -> exec_result
}.

(** An exception reaching the [catch] block: its [code] and [message]. *)
Record js_error : Type := { err_code : option string; err_message : option string }.

Definition missing_params_msg : string :=
  "Missing required parameters: s1Path, s2Path, demPath, outputDir".

(** The indentation of lines 25-30 of the template literal. *)
Definition indent : string := "            ".

(** The text of the template literal of line 24 once its parameters are
    rendered; each backslash-newline is a line continuation, so the next
    line's indentation follows directly. *)
Definition cmd_text (root s1 s2 dem out : string) (demo : jsval) (now : Z) : string :=
  let q x := append Str.dq (append x Str.dq) in
  String.concat EmptyString
    [ "cd "; q root; " && python -m unreal_miner.process_fusion ";
      indent; "--s1-path "; q s1; " ";
      indent; "--s2-path "; q s2; " ";
      indent; "--dem-path "; q dem; " ";
      indent; "--output-dir "; q out; " ";
      indent; (if truthy demo then "--demo-mode" else EmptyString); " ";
      indent; "--tile-id "; q (append "web_job_" (Str.of_Z now)) ].

(** The template literal of line 24; [None] when rendering a parameter
    throws. *)
Definition build_cmd (root : string) (s1 s2 dem out demo : jsval) (now : Z) : option string :=
  match js_string s1, js_string s2, js_string dem, js_string out with
  | Some a, Some b, Some c, Some o => Some (cmd_text root a b c o demo now)
  | _, _, _, _ => None
  end.

(** The [catch (error)] block. *)
Definition on_error (e : js_error) : response :=
  if match err_code e with Some c => String.eqb c "ETIMEDOUT" | None => false end
  then respond 408 (JObj [("error", JStr "Processing timeout - job took too long to complete")])
  else respond 500 (JObj [("error", JStr "Failed to process satellite data");
                          ("details", JStr (match err_message e with
                                            | Some m => if String.eqb m EmptyString
                                                        then "Unknown error occurred" else m
                                            | None => "Unknown error occurred"
                                            end))]).

(** Lines 8-83. [body] is [None] when [request.json()] rejects. The result
    lists the shell commands handed to [exec], in order, and the response. *)
Definition POST (E : env) (body : option json) : list string * response :=
  match body with
  | None =>
      ([], on_error {| err_code := None; err_message := Some "Unexpected end of JSON input" |})
  | Some JNull =>
      (* [const { s1Path, ... } = body] throws a TypeError on [null] *)
      ([], on_error {| err_code := None;
                       err_message := Some "Cannot destructure property 's1Path' of 'body' as it is null." |})
  | Some b =>
      let s1Path := get_prop b "s1Path" in
      let s2Path := get_prop b "s2Path" in
      let demPath := get_prop b "demPath" in
      let outputDir := get_prop b "outputDir" in
      let demoMode := match get_prop b "demoMode" with
                      | None => Some (JBool true)
                      | v => v
                      end in
      if negb (truthy s1Path) || negb (truthy s2Path) || negb (truthy demPath)
         || negb (truthy outputDir)
      then ([], respond 400 (JObj [("error", JStr missing_params_msg)]))
      else
        match build_cmd (project_root E) s1Path s2Path demPath outputDir demoMode
                (now_cmd E) with
        | None => ([], on_error {| err_code := None; err_message := Some to_primitive_msg |})
        | Some cmd =>
        match run E cmd with
        | ExecErr c m => ([cmd], on_error {| err_code := c; err_message := m |})
        | ExecOk stdout stderr =>
            if truthy (Some (JStr stderr)) && negb (Str.includes stderr "WARNING")
            then ([cmd], respond 500 (JObj [("error", JStr "Processing failed");
                                             ("details", JStr stderr)]))
            else
              ([cmd], respond 200 (JObj
                 [("success", JBool true);
                  ("message", JStr "Processing completed successfully");
                  ("jobId", JStr (append "web_job_" (Str.of_Z (now_job E))));
                  ("output", JObj
                     [("stdout", JStr (Str.trim stdout));
                      ("outputDir", match outputDir with Some o => o | None => JNull end);
                      ("files", JArr [JStr "classification_map.tif";
                                      JStr "feature_stack.tif";
                                      JStr "meta.json"])])]))
        end
        end
  end.

End Route.

(** ** [scripts/process_fusion.py:210], as quoted in the repository critique
    ([CRITIQUE.md], also appended to [route.ts]):
<<
n_train_samples = 1000
X_train = np.random.rand(n_train_samples, n_features)
y_train = np.random.randint(0, 3, n_train_samples) # 3 mineral classes
>>
    numpy's global generator is a stream of 32-bit draws with a cursor. *)
Module Fusion.

Record np_random : Type := { draws : nat -> Z; cursor : nat }.

Definition next (g : np_random) : Z * np_random :=
  (draws g (cursor g), {| draws := draws g; cursor := S (cursor g) |}).

(** [np.random.rand()]: a float in [0, 1). *)
Definition rand1 (g : np_random) : Q * np_random :=
  let '(d, g') := next g in (Qmake (Z.modulo d (2 ^ 32)) (2 ^ 32)%positive, g').

Fixpoint rand_row (g : np_random) (n : nat) : list Q * np_random :=
  match n with
  | O => ([], g)
  | S k => let '(x, g1) := rand1 g in let '(r, g2) := rand_row g1 k in (x :: r, g2)
  end.

(** [np.random.rand(rows, cols)]. *)
Fixpoint rand (g : np_random) (rows cols : nat) : list (list Q) * np_random :=
  match rows with
  | O => ([], g)
  | S k => let '(r, g1) := rand_row g cols in let '(m, g2) := rand g1 k cols in (r :: m, g2)
  end.

(** [np.random.randint(lo, hi, n)]. *)
Fixpoint randint (g : np_random) (lo hi : Z) (n : nat) : list Z * np_random :=
  match n with
  | O => ([], g)
  | S k =>
      let '(d, g1) := next g in
      let '(r, g2) := randint g1 lo hi k in ((lo + Z.modulo d (hi - lo)) :: r, g2)
  end.

Definition n_train_samples : nat := 1000.

(** The training set the classifier is fitted on. *)
Definition training_data (g : np_random) (n_features : nat)
  : list (list Q) * list Z * np_random :=
  let '(X_train, g1) := rand g n_train_samples n_features in
  let '(y_train, g2) := randint g1 0 3 n_train_samples in
  (X_train, y_train, g2).

End Fusion.

(** ** Data model of the raster fusion pipeline (spec sections 3 and 7).
    The Python modules that implement it ([scripts/process_fusion.py],
    [scripts/export_unreal.py]) are not part of the sources at hand; the
    pipeline below is modelled from the spec. Elevations, reflectances and
    scores are exact rationals. *)
Module Pipe.
Local Open Scope Q_scope.

Inductive outcome (E A : Type) : Type :=
| Ok (a : A)
| Fail (e : E).
Arguments Ok {E A} a.
Arguments Fail {E A} e.

(** The error taxonomy of spec section 7. [NoValidElevation] covers an
    elevation raster without any valid pixel, for which the encoder has no
    minimum or maximum; the spec names no error for it. *)
Inductive error : Type :=
| InsufficientValidPixels (raster : nat) (fraction threshold : Q)
| CRSMismatch (crs1 crs2 : string)
| NoExtentOverlap (area : Q)
| InsufficientSamples (pixels needed : nat)
| DegenerateFeatureSpace
| InvalidTargetSize (size : Z)
| InvalidTextureSize (size : Z)
| NoValidElevation.

(** A six-coefficient affine georeferencing transform, as rasterio has it:
    [x = c + a * col + b * row], [y = f + d * col + e * row]. *)
Record affine : Type := { ta : Q; tb : Q; tc : Q; td : Q; te : Q; tf : Q }.

(** Modelled from the spec: a Raster (section 3), one band, row-major. *)
Record raster : Type := {
  data : list (list Q);
  nodata : Q;
  crs : string;
  transform : affine
}.

Definition height (r : raster) : nat := List.length (data r).
Definition width (r : raster) : nat :=
  match data r with [] => O | row :: _ => List.length row end.

Definition pixels (r : raster) : list Q := List.concat (data r).

Definition is_valid (r : raster) (x : Q) : bool := negb (Qeq_bool x (nodata r)).

Definition valid_pixels (r : raster) : list Q := filter (is_valid r) (pixels r).

Definition world (t : affine) (col row : Q) : Q * Q :=
  (tc t + ta t * col + tb t * row, tf t + td t * col + te t * row).

(** The bounding box [(xmin, ymin, xmax, ymax)] of the raster's four corners. *)
Definition bbox (r : raster) : Q * Q * Q * Q :=
  let w := inject_Z (Z.of_nat (width r)) in
  let h := inject_Z (Z.of_nat (height r)) in
  let cs := [world (transform r) 0 0; world (transform r) w 0;
             world (transform r) 0 h; world (transform r) w h] in
  let xs := map fst cs in
  let ys := map snd cs in
  let mn l := fold_left Qmin (tl l) (hd 0 l) in
  let mx l := fold_left Qmax (tl l) (hd 0 l) in
  (mn xs, mn ys, mx xs, mx ys).

(** The area of one pixel: the absolute determinant of the linear part. *)
Definition pixel_area (r : raster) : Q :=
  let t := transform r in Qabs (ta t * te t - tb t * td t).

Definition Qminl (x : Q) (l : list Q) : Q := fold_left Qmin l x.
Definition Qmaxl (x : Q) (l : list Q) : Q := fold_left Qmax l x.

End Pipe.

(** ** Asset Encoder (spec 4.4).
    Modelled from the spec: [encode_height] of [scripts/export_unreal.py]. *)
Module Encoder.
Import Pipe.
Local Open Scope Q_scope.

(** [target_size] is of the form [2^k + 1]: [target_size - 1] is a positive
    power of two, tested with the usual bit trick. *)
Definition valid_target_size (n : Z) : bool :=
  ((2 <=? n) && (Z.land (n - 1) (n - 2) =? 0))%Z.

(** Python's [round]: to the nearest integer, ties to even. *)
Definition round (x : Q) : Z :=
  let f := Qfloor x in
  match Qcompare (x - inject_Z f) (1 # 2) with
  | Lt => f
  | Gt => (f + 1)%Z
  | Eq => if Z.even f then f else (f + 1)%Z
  end.

Definition clamp (lo hi v : Z) : Z := Z.max lo (Z.min hi v).

(** [value16 = round((elevation - min_elev) / (max_elev - min_elev) * 65535)],
    clamped to [0, 65535]. *)
Definition encode_value (min_elev max_elev e : Q) : Z :=
  clamp 0 65535 (round ((e - min_elev) / (max_elev - min_elev) * 65535)).

(** The inverse formula used on import. *)
Definition decode_value (min_elev max_elev : Q) (v : Z) : Q :=
  inject_Z v / 65535 * (max_elev - min_elev) + min_elev.

(** [z_scale = ((max_elev - min_elev) / 65535) * vertical_exaggeration]. *)
Definition z_scale (min_elev max_elev vertical_exaggeration : Q) : Q :=
  (max_elev - min_elev) / 65535 * vertical_exaggeration.

Record metadata : Type := {
  m_crs : string;
  m_bbox : Q * Q * Q * Q;
  m_pixel_size : Q * Q;
  m_src_width : nat;
  m_src_height : nat;
  m_width : Z;
  m_height : Z;
  m_min_elev : Q;
  m_max_elev : Q;
  m_z_scale : Q;
  m_vertical_exaggeration : Q;
  m_source_tile : string
}.

Definition height_buffer := list (list Z).

(** [encode_height(elevation, target_size, vertical_exaggeration)]. The
    cubic resampling onto the [target_size x target_size] grid is the
    argument [resample]; [min_elev] and [max_elev] are taken from the source
    raster's valid pixels before resampling. *)
Definition encode_height (resample : Z -> list (list Q) -> list (list Q))
    (tile_id : string) (elevation : raster) (target_size : Z)
    (vertical_exaggeration : Q) : outcome error (height_buffer * metadata) :=
  if negb (valid_target_size target_size) then Fail (InvalidTargetSize target_size)
  else
    match valid_pixels elevation with
    | [] => Fail NoValidElevation
    | v :: vs =>
        let min_elev := Qminl v vs in
        let max_elev := Qmaxl v vs in
        let grid := resample target_size (data elevation) in
        let hb := map (map (encode_value min_elev max_elev)) grid in
        Ok (hb, {| m_crs := crs elevation;
                   m_bbox := bbox elevation;
                   m_pixel_size := (ta (transform elevation), te (transform elevation));
                   m_src_width := width elevation;
                   m_src_height := height elevation;
                   m_width := target_size;
                   m_height := target_size;
                   m_min_elev := min_elev;
                   m_max_elev := max_elev;
                   m_z_scale := z_scale min_elev max_elev vertical_exaggeration;
                   m_vertical_exaggeration := vertical_exaggeration;
                   m_source_tile := tile_id |})
    end.

End Encoder.

(** ** Validator (spec 4.1).
    Modelled from the spec: [validate] of the pipeline; its checks run in
    the order the spec lists them and the first failing one is reported. *)
Module Validator.
Import Pipe.
Local Open Scope Q_scope.

Definition Qlt_bool (x y : Q) : bool := negb (Qle_bool y x).

Record raster_stats : Type := { rs_valid : nat; rs_total : nat; rs_fraction : Q }.

Record report : Type := { rp_stats : list raster_stats; rp_overlap_area : Q }.

Definition valid_count (r : raster) : nat := List.length (valid_pixels r).
Definition total_count (r : raster) : nat := List.length (pixels r).

(** The fraction of pixels not equal to the nodata sentinel. *)
Definition valid_fraction (r : raster) : Q :=
  inject_Z (Z.of_nat (valid_count r)) / inject_Z (Z.of_nat (total_count r)).

Definition stats_of (r : raster) : raster_stats :=
  {| rs_valid := valid_count r; rs_total := total_count r; rs_fraction := valid_fraction r |}.

(** A raster is rejected when it is entirely nodata, whatever the threshold,
    or when its valid fraction is below [min_valid_fraction]. *)
Definition insufficient (min_valid_fraction : Q) (r : raster) : bool :=
  Nat.eqb (valid_count r) 0 || Qlt_bool (valid_fraction r) min_valid_fraction.

Fixpoint first_insufficient (thr : Q) (i : nat) (rs : list raster) : option (nat * Q) :=
  match rs with
  | [] => None
  | r :: rest =>
      if insufficient thr r then Some (i, valid_fraction r)
      else first_insufficient thr (S i) rest
  end.

(** The first raster whose CRS identifier differs from the first raster's. *)
Definition crs_mismatch (rs : list raster) : option (string * string) :=
  match rs with
  | [] => None
  | r0 :: rest =>
      match find (fun r => negb (String.eqb (crs r) (crs r0))) rest with
      | Some r => Some (crs r0, crs r)
      | None => None
      end
  end.

Definition bbox_inter (a b : Q * Q * Q * Q) : Q * Q * Q * Q :=
  let '(ax0, ay0, ax1, ay1) := a in
  let '(bx0, by0, bx1, by1) := b in
  (Qmax ax0 bx0, Qmax ay0 by0, Qmin ax1 bx1, Qmin ay1 by1).

Definition bbox_area (b : Q * Q * Q * Q) : Q :=
  let '(x0, y0, x1, y1) := b in
  if Qle_bool (x1 - x0) 0 || Qle_bool (y1 - y0) 0 then 0 else (x1 - x0) * (y1 - y0).

(** The area of the intersection of all bounding boxes. *)
Definition overlap_area (rs : list raster) : Q :=
  match rs with
  | [] => 0
  | r0 :: rest => bbox_area (fold_left (fun acc r => bbox_inter acc (bbox r)) rest (bbox r0))
  end.

(** One pixel: the largest pixel area among the rasters. *)
Definition one_pixel (rs : list raster) : Q := Qmaxl 0 (map pixel_area rs).

(** [validate(tile_rasters, min_valid_fraction, require_crs_match)]. *)
Definition validate (tile_rasters : list raster) (min_valid_fraction : Q)
    (require_crs_match : bool) : outcome error report :=
  match first_insufficient min_valid_fraction 0 tile_rasters with
  | Some (i, f) => Fail (InsufficientValidPixels i f min_valid_fraction)
  | None =>
      match (if require_crs_match then crs_mismatch tile_rasters else None) with
      | Some (c1, c2) => Fail (CRSMismatch c1 c2)
      | None =>
          let area := overlap_area tile_rasters in
          if Qle_bool area 0 || Qlt_bool area (one_pixel tile_rasters)
          then Fail (NoExtentOverlap area)
          else Ok {| rp_stats := map stats_of tile_rasters; rp_overlap_area := area |}
      end
  end.

End Validator.

(** ** Feature Extractor (spec 4.2), the per-pixel radar and optical bands.
    Modelled from the spec: the feature formulas of [process_fusion.py]. *)
Module Features.
Import Pipe.
Local Open Scope Q_scope.

(** The floor applied to VH before dividing. *)
Definition EPS : Q := 1 # 1000000.

(** Floating-point division as a partial operation: [None] is the
    division-by-zero branch (an infinity or NaN in numpy). *)
Definition div (a b : Q) : option Q :=
  if Qeq_bool b 0 then None else Some (a / b).

(** Cross-polarization ratio [VV / max(VH, eps)]. *)
Definition cross_pol_ratio (vv vh : Q) : option Q := div vv (Qmax vh EPS).

(** Normalized difference [(A - B) / (A + B)], defined as 0 when [A + B = 0]. *)
Definition norm_diff (a b : Q) : option Q :=
  if Qeq_bool (a + b) 0 then Some 0 else div (a - b) (a + b).

Definition ndvi (nir red : Q) : option Q := norm_diff nir red.
Definition ndwi (green nir : Q) : option Q := norm_diff green nir.

(** A non-finite value is masked to 0 and flagged in the mask layer. *)
Definition mask (v : option Q) : Q * bool :=
  match v with Some x => (x, false) | None => (0, true) end.

(** The radar and optical features of one pixel, in band order. *)
Definition pixel_features (vv vh red green nir : Q) : list (Q * bool) :=
  map mask [cross_pol_ratio vv vh; ndvi nir red; ndwi green nir].

Record feature_stack : Type := {
  bands : list (list Q);
  band_mask : list (list bool)
}.

Fixpoint zip5 (a b c d e : list Q) : list (Q * Q * Q * Q * Q) :=
  match a, b, c, d, e with
  | x1 :: a', x2 :: b', x3 :: c', x4 :: d', x5 :: e' =>
      (x1, x2, x3, x4, x5) :: zip5 a' b' c' d' e'
  | _, _, _, _, _ => []
  end.

Record tile : Type := {
  tile_id : string;
  vv : raster; vh : raster; red : raster; green : raster; nir : raster;
  dem : raster
}.

Definition tile_rasters (t : tile) : list raster := [vv t; vh t; red t; green t; nir t; dem t].

(** [extract(tile, config)] for the per-pixel bands: pixel [i] of every band
    comes from pixel [i] of the aligned rasters. *)
Definition extract (t : tile) : feature_stack :=
  let px := map (fun '(a, b, c, d, e) => pixel_features a b c d e)
                (zip5 (pixels (vv t)) (pixels (vh t)) (pixels (red t))
                      (pixels (green t)) (pixels (nir t))) in
  let band k := map (fun f => fst (nth k f (0, false))) px in
  let bmask k := map (fun f => snd (nth k f (0, false))) px in
  {| bands := [band 0%nat; band 1%nat; band 2%nat];
     band_mask := [bmask 0%nat; bmask 1%nat; bmask 2%nat] |}.

End Features.

(** ** Anomaly/Classification Engine (spec 4.3), unsupervised mode.
    Modelled from the spec: an isolation forest whose randomness flows from
    one seed. Tree [i] draws from its own sub-seed, derived from the global
    seed, so trees may be built by any number of workers in any order. *)
Module Engine.
Import Pipe.
Local Open Scope Q_scope.

Definition W64 : Z := 2 ^ 64.

(** SplitMix64: one step returns an output and the next state. *)
Definition sm_next (s : Z) : Z * Z :=
  let s' := Z.modulo (s + 11400714819323198485) W64 in
  let z1 := Z.modulo (Z.lxor s' (Z.shiftr s' 30) * 13787848793156543929) W64 in
  let z2 := Z.modulo (Z.lxor z1 (Z.shiftr z1 27) * 10723151780598845931) W64 in
  (Z.lxor z2 (Z.shiftr z2 31), s').

(** A draw in [0, n). *)
Definition draw_below (g : Z) (n : nat) : nat * Z :=
  let '(z, g') := sm_next g in (Z.to_nat (Z.modulo z (Z.of_nat n)), g').

(** A draw in [0, 1). *)
Definition uniform01 (g : Z) : Q * Z :=
  let '(z, g') := sm_next g in (Qmake (Z.modulo z (2 ^ 32)) (2 ^ 32)%positive, g').

(** The sub-seed of tree [i]. *)
Definition tree_seed (seed : Z) (i : nat) : Z :=
  fst (sm_next (Z.modulo (seed + Z.of_nat i * 2 ^ 32) W64)).

Record config : Type := {
  n_estimators : nat;
  contamination : Q;
  max_features : Q;
  random_seed : Z
}.

Definition default_config : config :=
  {| n_estimators := 200; contamination := 2 # 100; max_features := 1;
     random_seed := 42 |}.

Inductive itree : Type :=
| Leaf (size : nat)
| Node (feature : nat) (split : Q) (l r : itree).

Definition Qlt_bool (x y : Q) : bool := negb (Qle_bool y x).

Fixpoint draws (g : Z) (k n : nat) : list nat * Z :=
  match k with
  | O => ([], g)
  | S k' => let '(i, g1) := draw_below g n in
            let '(r, g2) := draws g1 k' n in (i :: r, g2)
  end.

(** A randomized partitioning tree over the points [pts], grown to depth
    [fuel]: a random feature among [feats], a uniform split between the
    feature's minimum and maximum over the node's points. *)
Fixpoint grow (fuel : nat) (g : Z) (feats : list nat) (pts : list (list Q))
  : itree * Z :=
  match fuel with
  | O => (Leaf (List.length pts), g)
  | S f =>
      if Nat.leb (List.length pts) 1 then (Leaf (List.length pts), g) else
      let '(qi, g1) := draw_below g (List.length feats) in
      let q := nth qi feats O in
      let col := map (fun p => nth q p 0) pts in
      let lo := Qminl (hd 0 col) col in
      let hi := Qmaxl (hd 0 col) col in
      if Qle_bool hi lo then (Leaf (List.length pts), g1) else
      let '(u, g2) := uniform01 g1 in
      let p := lo + (hi - lo) * u in
      let '(tl, g3) := grow f g2 feats (filter (fun x => Qlt_bool (nth q x 0) p) pts) in
      let '(tr, g4) := grow f g3 feats (filter (fun x => negb (Qlt_bool (nth q x 0) p)) pts) in
      (Node q p tl tr, g4)
  end.

Definition max_samples (n : nat) : nat := Nat.min 256 n.

(** The features tree [i] may split on: [max(1, floor(max_features * d))]
    consecutive band indices from a random start. *)
Definition feature_subset (g : Z) (frac : Q) (d : nat) : list nat * Z :=
  let k := Nat.max 1 (Z.to_nat (Qfloor (frac * inject_Z (Z.of_nat d)))) in
  let '(s, g') := draw_below g d in
  (map (fun j => Nat.modulo (s + j) d) (seq 0 (Nat.min k d)), g').

(** Tree [i] of the ensemble, over the fitting points [pts] with [d] bands. *)
Definition build_tree (cfg : config) (d : nat) (pts : list (list Q)) (i : nat) : itree :=
  let g0 := tree_seed (random_seed cfg) i in
  let psi := max_samples (List.length pts) in
  let '(idx, g1) := draws g0 psi (List.length pts) in
  let '(feats, g2) := feature_subset g1 (max_features cfg) d in
  fst (grow (Nat.log2_up psi) g2 feats (map (fun j => nth j pts []) idx)).

(** The work of the parallel workers: each worker builds the trees of its
    chunk and reports them with their indices. *)
Definition run_workers (sched : list (list nat)) (cfg : config) (d : nat)
    (pts : list (list Q)) : list (nat * itree) :=
  List.concat (map (fun chunk => map (fun i => (i, build_tree cfg d pts i)) chunk) sched).

Definition lookup_tree (i : nat) (built : list (nat * itree)) : option itree :=
  option_map snd (find (fun p => Nat.eqb (fst p) i) built).

(** The ensemble in tree-index order. *)
Definition assemble (n : nat) (built : list (nat * itree)) : list itree :=
  flat_map (fun i => match lookup_tree i built with Some t => [t] | None => [] end)
           (seq 0 n).

Fixpoint harmonic (n : nat) : Q :=
  match n with O => 0 | S k => harmonic k + 1 / inject_Z (Z.of_nat (S k)) end.

(** The average path length of an unsuccessful search among [n] points. *)
Definition c_factor (n : nat) : Q :=
  if Nat.leb n 1 then 0
  else 2 * harmonic (n - 1) - 2 * inject_Z (Z.of_nat (n - 1)) / inject_Z (Z.of_nat n).

Fixpoint path_length (x : list Q) (t : itree) (depth : Q) : Q :=
  match t with
  | Leaf n => depth + c_factor n
  | Node q p l r =>
      if Qlt_bool (nth q x 0) p then path_length x l (depth + 1) else path_length x r (depth + 1)
  end.

(** The raw score: the negated average path length, so a shorter path gives
    a higher (more anomalous) score. *)
Definition raw_score (forest : list itree) (x : list Q) : Q :=
  - (fold_left Qplus (map (fun t => path_length x t 0) forest) 0
     / inject_Z (Z.of_nat (List.length forest))).

(** Linear min-max normalization to [0, 1] over the tile. *)
Definition normalize (s : list Q) : list Q :=
  let mn := Qminl (hd 0 s) s in
  let mx := Qmaxl (hd 0 s) s in
  map (fun v => if Qeq_bool mx mn then 0 else (v - mn) / (mx - mn)) s.

Fixpoint insert_desc (x : Q) (l : list Q) : list Q :=
  match l with
  | [] => [x]
  | y :: r => if Qle_bool y x then x :: l else y :: insert_desc x r
  end.

Definition sort_desc (l : list Q) : list Q := fold_right insert_desc [] l.

(** Class 1 for the [floor(contamination * N)] highest scores (ties
    included), class 0 otherwise. *)
Definition classify (contamination : Q) (s : list Q) : list Z :=
  let k := Z.to_nat (Qfloor (contamination * inject_Z (Z.of_nat (List.length s)))) in
  match k with
  | O => map (fun _ => 0%Z) s
  | S k' =>
      let t := nth k' (sort_desc s) 0 in
      map (fun v => if Qle_bool t v then 1%Z else 0%Z) s
  end.

Record anomaly_result : Type := {
  scores : list Q;
  classes : list Z;
  dropped_bands : list nat
}.

Fixpoint transpose (n : nat) (bs : list (list Q)) : list (list Q) :=
  match n with
  | O => []
  | S k => map (fun b => nth (List.length (hd [] bs) - n) b 0) bs :: transpose k bs
  end.

Definition pixel_vectors (bs : list (list Q)) : list (list Q) :=
  transpose (List.length (hd [] bs)) bs.

Definition degenerate (b : list Q) : bool := forallb (fun v => Qeq_bool v (hd 0 b)) b.

(** The engine on a FeatureStack. [sched] is how the trees are spread over
    the workers. Pixels carrying a mask flag in any band are left out of
    the fit; every pixel is scored. *)
Definition run_engine (sched : list (list nat)) (cfg : config)
    (fs : Features.feature_stack) : outcome error anomaly_result :=
  let bs := Features.bands fs in
  let d := List.length bs in
  let all_px := pixel_vectors bs in
  let unmasked j := negb (existsb (fun ms => nth j ms false) (Features.band_mask fs)) in
  let keep_px := map (fun j => nth j all_px []) (filter unmasked (seq 0 (List.length all_px))) in
  let needed := Nat.max 256 (d * 10) in
  if Nat.ltb (List.length keep_px) needed
  then Fail (InsufficientSamples (List.length keep_px) needed)
  else
    let kept := filter (fun j => negb (degenerate (nth j bs []))) (seq 0 d) in
    let dropped := filter (fun j => degenerate (nth j bs [])) (seq 0 d) in
    match kept with
    | [] => Fail DegenerateFeatureSpace
    | _ =>
        let proj x := map (fun j => nth j x 0) kept in
        let d' := List.length kept in
        let forest := assemble (n_estimators cfg)
                        (run_workers sched cfg d' (map proj keep_px)) in
        let s := normalize (map (fun x => raw_score forest (proj x)) all_px) in
        Ok {| scores := s; classes := classify (contamination cfg) s;
              dropped_bands := dropped |}
    end.

End Engine.

(** ** The pipeline: Validator -> Feature Extractor -> Anomaly Engine ->
    Asset Encoder (spec section 2), with the stages that ran. *)
Module Pipeline.
Import Pipe.
Local Open Scope Q_scope.

Inductive stage : Type := SValidate | SExtract | SAnomaly | SEncode.

(** The recognized options of spec section 6. *)
Record config : Type := {
  min_valid_fraction : Q;
  require_crs_match : bool;
  contamination : Q;
  n_estimators : nat;
  window_size : nat;
  target_size : Z;
  vertical_exaggeration : Q;
  texture_size : Z;
  random_seed : Z
}.

Definition engine_config (c : config) : Engine.config :=
  {| Engine.n_estimators := n_estimators c; Engine.contamination := contamination c;
     Engine.max_features := 1; Engine.random_seed := random_seed c |}.

Definition run_pipeline (resample : Z -> list (list Q) -> list (list Q))
    (sched : list (list nat)) (c : config) (t : Features.tile)
  : list stage * outcome error (Validator.report * Engine.anomaly_result
                                * Encoder.height_buffer * Encoder.metadata) :=
  match Validator.validate (Features.tile_rasters t) (min_valid_fraction c)
          (require_crs_match c) with
  | Fail e => ([SValidate], Fail e)
  | Ok rep =>
      let fs := Features.extract t in
      match Engine.run_engine sched (engine_config c) fs with
      | Fail e => ([SValidate; SExtract; SAnomaly], Fail e)
      | Ok ar =>
          match Encoder.encode_height resample (Features.tile_id t) (Features.dem t)
                  (target_size c) (vertical_exaggeration c) with
          | Fail e => ([SValidate; SExtract; SAnomaly; SEncode], Fail e)
          | Ok (hb, m) => ([SValidate; SExtract; SAnomaly; SEncode], Ok (rep, ar, hb, m))
          end
      end
  end.

End Pipeline.

(** ** Configuration defaults. Modelled from the spec: the configuration
    loader is not among the sources (section 6, "recognized options"). *)
Module Config.
Import Pipeline.
Local Open Scope Q_scope.

(** A configuration as supplied: each recognized option is given or not
    ([None]). [require_crs_match] is not a recognized option and has no
    default in the spec; it is taken as given. *)
Record options : Type := {
  o_min_valid_fraction : option Q;
  o_require_crs_match : bool;
  o_contamination : option Q;
  o_n_estimators : option nat;
  o_window_size : option nat;
  o_target_size : option Z;
  o_vertical_exaggeration : option Q;
  o_texture_size : option Z;
  o_random_seed : option Z
}.

Definition with_default {A : Type} (d : A) (o : option A) : A :=
  match o with Some v => v | None => d end.

(** The configuration in effect: every option not supplied takes the
    default of section 6. *)
Definition resolve (o : options) : config :=
  {| min_valid_fraction := with_default (1 # 2) (o_min_valid_fraction o);
     require_crs_match := o_require_crs_match o;
     contamination := with_default (2 # 100) (o_contamination o);
     n_estimators := with_default 200%nat (o_n_estimators o);
     window_size := with_default 5%nat (o_window_size o);
     target_size := with_default 1025%Z (o_target_size o);
     vertical_exaggeration := with_default 2 (o_vertical_exaggeration o);
     texture_size := with_default 4096%Z (o_texture_size o);
     random_seed := with_default 42%Z (o_random_seed o) |}.

End Config.


(** ** The shell scripts ([src/unnamed/part_005]): the configuration written
    by the setup script and the export step of [run_pipeline.sh]. *)
Module Scripts.
Local Open Scope string_scope.

(** [config/default.yaml] as the setup script's heredoc writes it, keys
    flattened to dotted paths. *)
Definition default_yaml : list (string * string) :=
  [ ("processing.contamination", "0.02");
    ("processing.n_estimators", "200");
    ("processing.random_state", "42");
    ("processing.n_jobs", "-1");
    ("export.target_size", "4097");
    ("export.texture_size", "4096");
    ("export.vertical_exaggeration", "2.0");
    ("paths.data_dir", "./data");
    ("paths.raw_dir", "./data/raw");
    ("paths.processed_dir", "./data/processed");
    ("paths.aligned_dir", "./data/aligned");
    ("paths.output_dir", "./data/outputs");
    ("paths.unreal_export_dir", "./data/unreal_export");
    ("paths.cache_dir", "./data/cache");
    ("logging.level", "INFO");
    ("logging.format", "%(asctime)s - %(levelname)s - %(message)s") ].

Fixpoint assoc (k : string) (l : list (string * string)) : option string :=
  match l with
  | [] => None
  | (k', v) :: r => if String.eqb k k' then Some v else assoc k r
  end.

(** [run_pipeline.sh] argument parsing: the options that set variables. *)
Record opts : Type := { config_file : string; tile_id : string }.

Definition default_opts : opts := {| config_file := "config/default.yaml"; tile_id := "tile_001" |}.

(** [None] when the script exits (an unknown option or [--help]). *)
Fixpoint parse_args (args : list string) (o : opts) : option opts :=
  match args with
  | [] => Some o
  | "--config" :: v :: r => parse_args r {| config_file := v; tile_id := tile_id o |}
  | "--tile-id" :: v :: r => parse_args r {| config_file := config_file o; tile_id := v |}
  | "--skip-download" :: r | "--skip-snap" :: r | "--skip-alignment" :: r => parse_args r o
  | _ => None
  end.

(** Step 5 of [run_pipeline.sh]: the argument vector of [export_unreal.py]. *)
Definition export_argv (o : opts) : list string :=
  let t := tile_id o in
  let dem := "data/aligned/" ++ t ++ "_dem_10m_utm.tif" in
  let s2 := "data/aligned/" ++ t ++ "_s2_10m_utm.tif" in
  let out := "data/outputs/" ++ t in
  [ "scripts/export_unreal.py";
    "--dem"; dem;
    "--meta"; out ++ "/meta.json";
    "--output-dir"; "data/unreal_export/" ++ t;
    "--target-size"; "4097";
    "--vertical-exaggeration"; "2.0";
    "--tile-id"; t;
    "--s2-rgb"; s2;
    "--anomaly"; out ++ "/anomaly_probability.tif";
    "--texture-size"; "4096" ].

(** The value following the first occurrence of [flag]. *)
Fixpoint arg_value (flag : string) (argv : list string) : option string :=
  match argv with
  | f :: r => if String.eqb f flag then hd_error r else arg_value flag r
  | [] => None
  end.

End Scripts.

(** ** Sample inputs used by the concrete lemmas *)
Module Samples.
Import Pipe.
Local Open Scope Q_scope.

Definition north_up (x0 y0 px : Q) : affine :=
  {| ta := px; tb := 0; tc := x0; td := 0; te := - px; tf := y0 |}.

(** A resampler that keeps the source grid. *)
Definition keep_grid : Z -> list (list Q) -> list (list Q) := fun _ g => g.

(** An elevation raster with range [145.3, 892.7] and one nodata pixel. *)
Definition dem_145_892 : raster :=
  {| data := [[1453 # 10; 500; 8927 # 10]; [-9999; 300; 200]];
     nodata := -9999; crs := "EPSG:32753"%string;
     transform := north_up 240000 7500000 10 |}.

Definition band2x2 (v : Q) (c : string) : raster :=
  {| data := [[v; v + 1]; [v + 2; v + 3]]; nodata := -9999; crs := c;
     transform := north_up 240000 7500000 10 |}.

Definition all_nodata (c : string) : raster :=
  {| data := [[-9999; -9999]; [-9999; -9999]]; nodata := -9999; crs := c;
     transform := north_up 240000 7500000 10 |}.

(** A tile whose radar rasters are in UTM and whose other rasters are in
    geographic coordinates. *)
Definition crs_mixed_tile : Features.tile :=
  {| Features.tile_id := "AOI_001"%string;
     Features.vv := band2x2 1 "EPSG:32610"; Features.vh := band2x2 2 "EPSG:32610";
     Features.red := band2x2 3 "EPSG:4326"; Features.green := band2x2 4 "EPSG:4326";
     Features.nir := band2x2 5 "EPSG:4326"; Features.dem := band2x2 100 "EPSG:4326" |}.

(** The same tile with an entirely nodata VV raster. *)
Definition crs_mixed_nodata_tile : Features.tile :=
  {| Features.tile_id := "AOI_002"%string;
     Features.vv := all_nodata "EPSG:32610"; Features.vh := band2x2 2 "EPSG:32610";
     Features.red := band2x2 3 "EPSG:4326"; Features.green := band2x2 4 "EPSG:4326";
     Features.nir := band2x2 5 "EPSG:4326"; Features.dem := band2x2 100 "EPSG:4326" |}.

Definition spec_pipeline_config : Pipeline.config :=
  {| Pipeline.min_valid_fraction := 1 # 2; Pipeline.require_crs_match := true;
     Pipeline.contamination := 2 # 100; Pipeline.n_estimators := 200;
     Pipeline.window_size := 5; Pipeline.target_size := 1025;
     Pipeline.vertical_exaggeration := 2; Pipeline.texture_size := 4096;
     Pipeline.random_seed := 42 |}.

End Samples.

(** ** Counting and reading back characters *)
Module Text.
Local Open Scope string_scope.

(** The number of occurrences of the character [c] in [s]. *)
Fixpoint count_char (c : ascii) (s : string) : nat :=
  match s with
  | EmptyString => O
  | String c' r => ((if Ascii.eqb c c' then 1 else 0) + count_char c r)%nat
  end.

(** The double quote character. *)
Definition dq_char : ascii := ascii_of_nat 34.

(** The value of a string of decimal digits, read left to right onto [v]. *)
Fixpoint dec_value (s : string) (v : Z) : Z :=
  match s with
  | EmptyString => v
  | String c r => dec_value r (v * 10 + (Z.of_nat (nat_of_ascii c) - 48))
  end.

End Text.

(** ** The dashboard's job control and the queueing handler *)
Module Dashboard.
Import Route.
Local Open Scope string_scope.

(** The second [POST] handler of route.ts (lines 91-124): it builds a
    command and logs it but runs nothing, and answers with the decimal
    digits of [Date.now()] as the job id. Nothing in its [try] block throws
    on the values it reads, so the [catch] answer is not reached. *)
Definition POST_queue (now : Z) : list string * response :=
  ([], respond 200 (JObj [("message", JStr "Processing job queued successfully");
                          ("jobId", JStr (Str.of_Z now))])).

(** The [type] of the status shown by [JobControl]. *)
Inductive status_type : Type := TSuccess | TError.

(** The state of [JobControl]: [loading] and [status = {type, msg}]. *)
Record jc_state : Type := { loading : bool; st_type : option status_type; msg : string }.

(** How [fetch] and [res.json()] settle: a rejected [fetch], or a response
    with its status and its body read as JSON ([None] when [res.json()]
    rejects). *)
Inductive fetch_outcome : Type :=
| FetchReject
| FetchResponse (st : Z) (body : option json).

(** [res.ok]. *)
Definition res_ok (st : Z) : bool := ((200 <=? st) && (st <=? 299))%Z.

(** The status set by the [try]/[catch] of [startJob]: [data.message] and
    [data.error] throw on [null], and the template literal throws on a value
    it cannot render; the [catch] turns both into the connection error. *)
Definition job_result (f : fetch_outcome) : status_type * string :=
  match f with
  | FetchReject | FetchResponse _ None | FetchResponse _ (Some JNull) =>
      (TError, "Failed to connect to server")
  | FetchResponse st (Some data) =>
      if res_ok st
      then match js_string (get_prop data "message") with
           | Some m => (TSuccess, "Job started: " ++ m)
           | None => (TError, "Failed to connect to server")
           end
      else match js_string (get_prop data "error") with
           | Some m => (TError, "Error: " ++ m)
           | None => (TError, "Failed to connect to server")
           end
  end.

(** [startJob] (part_009, lines 180-200): the states after each call to a
    setter, in order: [setLoading(true)], the "Initializing" status, the
    status of the outcome, and [setLoading(false)] in [finally]. *)
Definition startJob (s0 : jc_state) (f : fetch_outcome) : list jc_state :=
  let (t, m) := job_result f in
  [ {| loading := true; st_type := st_type s0; msg := msg s0 |};
    {| loading := true; st_type := None; msg := "Initializing pipeline..." |};
    {| loading := true; st_type := Some t; msg := m |};
    {| loading := false; st_type := Some t; msg := m |} ].

(** What the page renders from a state: the button's [disabled], whether the
    status box is shown ([status.msg &&]) and whether it is red. *)
Definition button_disabled (s : jc_state) : bool := loading s.
Definition alert_shown (s : jc_state) : bool := truthy (Some (JStr (msg s))).
Definition alert_red (s : jc_state) : bool :=
  match st_type s with Some TError => true | _ => false end.

(** The outcome of [fetch('/api/process', {method: 'POST'})] answered by a
    handler: its status and its JSON body. *)
Definition fetch_of (r : response) : fetch_outcome :=
  FetchResponse (status r) (Some (payload r)).

End Dashboard.

(** ** run_pipeline.sh *)
Module RunPipeline.
Local Open Scope string_scope.

(** What [run_pipeline.sh] does, most recent first: an external command with
    its argument vector, the argument of a builtin [echo] to the terminal,
    a line piped to [tee -a "$LOG_FILE"] by [log], and a [source]d file. *)
Inductive event : Type :=
| Ran (argv : list string)
| Echo (arg : string)
| LogLine (line : string)
| Sourced (file : string).

(** The machine the script runs on, each answer depending on what the
    script has done so far: the exit status and standard output of a
    command, the tests [-f] and [-d], the matches of a pathname pattern,
    whether [command -v gpt] finds [gpt], whether both Copernicus
    credentials are non-empty at the start, the status of [source .env] and
    whether both credentials are non-empty after it ([.env] is taken to
    assign no other variable of the script), and [$0]. *)
Record world : Type := {
  w_status : list event -> list string -> Z;
  w_output : list event -> list string -> string;
  w_file : list event -> string -> bool;
  w_dir : list event -> string -> bool;
  w_glob : list event -> string -> list string;
  w_has_gpt : list event -> bool;
  w_creds : bool;
  w_source : list event -> Z * bool;
  w_argv0 : string
}.

Inductive outcome (A : Type) : Type :=
| Done (a : A)
| Exited (code : Z).
Arguments Done {A} a.
Arguments Exited {A} code.

(** A script fragment: from the history so far to its outcome and the new
    history. *)
Definition M (A : Type) : Type := list event -> outcome A * list event.

Definition ret {A} (a : A) : M A := fun h => (Done a, h).

Definition bind {A B} (m : M A) (k : A -> M B) : M B :=
  fun h => match m h with
           | (Done a, h') => k a h'
           | (Exited c, h') => (Exited c, h')
           end.

Notation "x <- m ;; k" := (bind m (fun x => k))
  (at level 61, m at next level, right associativity).
Notation "m ;;; k" := (bind m (fun _ => k)) (at level 61, right associativity).

(** Script options after the argument loop (lines 31-69). *)
Record flags : Type := {
  f_config : string;
  f_tile : string;
  f_skip_download : bool;
  f_skip_snap : bool;
  f_skip_alignment : bool
}.

Definition default_flags : flags :=
  {| f_config := "config/default.yaml"; f_tile := "tile_001";
     f_skip_download := false; f_skip_snap := false; f_skip_alignment := false |}.

Definition GREEN : string := "\033[0;32m".
Definition YELLOW : string := "\033[1;33m".
Definition RED : string := "\033[0;31m".
Definition NC : string := "\033[0m".

Definition s1_path (t : string) : string := "data/aligned/" ++ t ++ "_s1_10m_utm.tif".
Definition s2_path (t : string) : string := "data/aligned/" ++ t ++ "_s2_10m_utm.tif".
Definition dem_path (t : string) : string := "data/aligned/" ++ t ++ "_dem_10m_utm.tif".
Definition output_dir (t : string) : string := "data/outputs/" ++ t.
Definition unreal_dir (t : string) : string := "data/unreal_export/" ++ t.
Definition s1_processed (t : string) : string := "data/processed/" ++ t ++ "_s1_backscatter.tif".
Definition s2_processed (t : string) : string := "data/processed/" ++ t ++ "_s2_rgb.tif".

(** Step 4: the argument vector of [process_fusion.py]. *)
Definition fusion_argv (t : string) : list string :=
  [ "python3"; "scripts/process_fusion.py";
    "--s1-path"; s1_path t; "--s2-path"; s2_path t; "--dem-path"; dem_path t;
    "--output-dir"; output_dir t; "--tile-id"; t;
    "--contamination"; "0.02"; "--n-estimators"; "200" ].

(** Step 3: the [gdalwarp] call that aligns [src] onto [dst]. *)
Definition warp_argv (src dst : string) : list string :=
  [ "gdalwarp"; "-t_srs"; "EPSG:32610"; "-tr"; "10.0"; "10.0";
    "-r"; "bilinear"; "-co"; "COMPRESS=LZW"; src; dst ].

Section Script.
Variable W : world.

Definition exit {A} (c : Z) : M A := fun h => (Exited c, h).
Definition emit (e : event) : M unit := fun h => (Done tt, e :: h).

(** An external command; its status is the machine's answer at this point. *)
Definition ext (argv : list string) : M Z :=
  fun h => (Done (w_status W h argv), Ran argv :: h).

(** An external command whose standard output is used. *)
Definition ext_out (argv : list string) : M (Z * string) :=
  fun h => (Done (w_status W h argv, w_output W h argv), Ran argv :: h).

(** [set -e]: a command that fails outside a condition ends the script
    with its status. *)
Definition checked (m : M Z) : M unit :=
  st <- m ;; if (st =? 0)%Z then ret tt else exit st.

Definition test_f (p : string) : M bool := fun h => (Done (w_file W h p), h).
Definition test_d (p : string) : M bool := fun h => (Done (w_dir W h p), h).
Definition has_gpt : M bool := fun h => (Done (w_has_gpt W h), h).

(** Expansion of an unquoted pattern: its matches, or the pattern itself
    when nothing matches. *)
Definition glob (pat : string) : M (list string) :=
  fun h => (Done (match w_glob W h pat with [] => [pat] | l => l end), h).

(** [source .env] under [set -e]; the result tells whether both credentials
    are now non-empty. *)
Definition source_env : M bool :=
  fun h => let (st, creds) := w_source W h in
           (if (st =? 0)%Z then Done creds else Exited st, Sourced ".env" :: h).

Definition echo (s : string) : M unit := emit (Echo s).

(** Lines 26-28: the argument handed to [echo -e]. *)
Definition print_info (s : string) : M unit := echo (GREEN ++ "[INFO]" ++ NC ++ " " ++ s).
Definition print_warn (s : string) : M unit := echo (YELLOW ++ "[WARN]" ++ NC ++ " " ++ s).
Definition print_error (s : string) : M unit := echo (RED ++ "[ERROR]" ++ NC ++ " " ++ s).

(** [cmd 2>&1 | tee -a "$LOG_FILE"]: both run, and without [pipefail] the
    status of the pipeline is that of [tee]. *)
Definition tee_pipe (log_file : string) (argv : list string) : M unit :=
  checked (_ <- ext argv ;; ext ["tee"; "-a"; log_file]).

(** [log] (lines 104-106): the status of [date] in the command substitution
    is lost, that of [tee] counts. *)
Definition log (log_file msg : string) : M unit :=
  checked (d <- ext_out ["date"; "+%Y-%m-%d %H:%M:%S"] ;;
           emit (LogLine (snd d ++ " - " ++ msg)) ;;;
           ext ["tee"; "-a"; log_file]).

(** [for d in ...; do if [ -d "$d" ]; then body; break; fi; done]. *)
Fixpoint for_first_dir (ds : list string) (body : string -> M unit) : M unit :=
  match ds with
  | [] => ret tt
  | d :: r => isd <- test_d d ;; if isd then body d else for_first_dir r body
  end.

Definition help_text : list string :=
  [ ""; "Options:";
    "  --config FILE       Configuration file (default: config/default.yaml)";
    "  --tile-id ID        Tile identifier (default: tile_001)";
    "  --skip-download     Skip data download step";
    "  --skip-snap         Skip SNAP preprocessing";
    "  --skip-alignment    Skip GDAL alignment";
    "  --help              Show this help message" ].

Fixpoint echo_all (l : list string) : M unit :=
  match l with
  | [] => ret tt
  | s :: r => echo s ;;; echo_all r
  end.

(** Lines 31-69. [CONFIG_FILE="$2"; shift 2] with no [$2] fails in [shift],
    which ends the script with status 1. *)
Fixpoint parse (args : list string) (fl : flags) : M flags :=
  match args with
  | [] => ret fl
  | "--config" :: r =>
      match r with
      | v :: r' => parse r' {| f_config := v; f_tile := f_tile fl;
                               f_skip_download := f_skip_download fl;
                               f_skip_snap := f_skip_snap fl;
                               f_skip_alignment := f_skip_alignment fl |}
      | [] => exit 1
      end
  | "--tile-id" :: r =>
      match r with
      | v :: r' => parse r' {| f_config := f_config fl; f_tile := v;
                               f_skip_download := f_skip_download fl;
                               f_skip_snap := f_skip_snap fl;
                               f_skip_alignment := f_skip_alignment fl |}
      | [] => exit 1
      end
  | "--skip-download" :: r =>
      parse r {| f_config := f_config fl; f_tile := f_tile fl;
                 f_skip_download := true; f_skip_snap := f_skip_snap fl;
                 f_skip_alignment := f_skip_alignment fl |}
  | "--skip-snap" :: r =>
      parse r {| f_config := f_config fl; f_tile := f_tile fl;
                 f_skip_download := f_skip_download fl; f_skip_snap := true;
                 f_skip_alignment := f_skip_alignment fl |}
  | "--skip-alignment" :: r =>
      parse r {| f_config := f_config fl; f_tile := f_tile fl;
                 f_skip_download := f_skip_download fl;
                 f_skip_snap := f_skip_snap fl; f_skip_alignment := true |}
  | "--help" :: _ =>
      echo ("Usage: " ++ w_argv0 W ++ " [OPTIONS]") ;;; echo_all help_text ;;; exit 0
  | a :: _ => print_error ("Unknown option: " ++ a) ;;; exit 1
  end.

(** Step 1 (lines 111-138). *)
Definition step1 (fl : flags) (lf : string) : M unit :=
  if negb (f_skip_download fl) then
    print_info "Step 1: Downloading satellite data..." ;;;
    log lf "Step 1: Data download" ;;;
    creds <- (if w_creds W then ret true
              else print_warn "Copernicus credentials not set. Loading from .env" ;;;
                   e <- test_f ".env" ;;
                   if e then source_env else ret false) ;;
    if creds then
      fe <- test_f "scripts/fetch_copernicus.sh" ;;
      if fe then tee_pipe lf ["bash"; "scripts/fetch_copernicus.sh"; "--tile-id"; f_tile fl]
      else print_warn "Download script not found. Place Sentinel data in data/raw/"
    else
      print_warn "Copernicus credentials not found. Skipping download." ;;;
      print_info "Set COPERNICUS_USER and COPERNICUS_PASSWORD in .env"
  else
    print_info "Step 1: Skipping data download (using existing data)" ;;;
    log lf "Step 1: Skipped".

(** Step 2 (lines 140-196). The tests [-d "data/raw/S1A_*"] are quoted, so
    they look for a directory of that very name. *)
Definition step2 (fl : flags) (lf : string) : M unit :=
  let t := f_tile fl in
  if negb (f_skip_snap fl) then
    print_info "Step 2: SNAP preprocessing..." ;;;
    log lf "Step 2: SNAP preprocessing" ;;;
    g <- has_gpt ;;
    (if g then ret tt
     else print_error "SNAP 'gpt' command not found. Install SNAP or use --skip-snap" ;;;
          exit 1) ;;;
    a <- test_d "data/raw/S1A_*" ;;
    b <- (if a then ret true else test_d "data/raw/S1B_*") ;;
    (if b then
       print_info "Processing Sentinel-1..." ;;;
       log lf "Processing Sentinel-1" ;;;
       ds <- glob "data/raw/S1*_GRD_*" ;;
       for_first_dir ds (fun d =>
         tee_pipe lf ["gpt"; "snap/s1_preproc.xml"; "-Pinput=" ++ d ++ "/manifest.safe";
                      "-Poutput=" ++ s1_processed t] ;;;
         log lf ("Sentinel-1 processed: " ++ s1_processed t))
     else print_warn "No Sentinel-1 data found in data/raw/") ;;;
    c <- test_d "data/raw/S2*_MSIL2A_*" ;;
    if c then
      print_info "Processing Sentinel-2..." ;;;
      log lf "Processing Sentinel-2" ;;;
      ds <- glob "data/raw/S2*_MSIL2A_*" ;;
      for_first_dir ds (fun d =>
        tee_pipe lf ["gpt"; "snap/s2_preproc.xml"; "-Pinput=" ++ d ++ "/MTD_MSIL2A.xml";
                     "-Poutput=" ++ s2_processed t] ;;;
        log lf ("Sentinel-2 processed: " ++ s2_processed t))
    else print_warn "No Sentinel-2 data found in data/raw/"
  else
    print_info "Step 2: Skipping SNAP preprocessing" ;;;
    log lf "Step 2: Skipped".

(** Step 3 (lines 198-240). *)
Definition step3 (fl : flags) (lf : string) : M unit :=
  let t := f_tile fl in
  if negb (f_skip_alignment fl) then
    print_info "Step 3: GDAL alignment..." ;;;
    log lf "Step 3: GDAL alignment" ;;;
    checked (ext ["mkdir"; "-p"; "data/aligned"]) ;;;
    p1 <- test_f (s1_processed t) ;;
    (if p1 then
       tee_pipe lf (warp_argv (s1_processed t) (s1_path t)) ;;;
       log lf ("S1 aligned: " ++ s1_path t)
     else ret tt) ;;;
    p2 <- test_f (s2_processed t) ;;
    (if p2 then
       tee_pipe lf (warp_argv (s2_processed t) (s2_path t)) ;;;
       log lf ("S2 aligned: " ++ s2_path t)
     else ret tt) ;;;
    print_warn "DEM alignment step requires external DEM source"
  else
    print_info "Step 3: Skipping GDAL alignment" ;;;
    log lf "Step 3: Skipped".

(** Step 4 (lines 242-281). *)
Definition step4 (t lf : string) : M unit :=
  print_info "Step 4: Feature extraction and anomaly detection..." ;;;
  log lf "Step 4: Feature extraction and ML processing" ;;;
  e1 <- test_f (s1_path t) ;;
  (if e1 then ret tt
   else print_error ("Sentinel-1 file not found: " ++ s1_path t) ;;; exit 1) ;;;
  e2 <- test_f (s2_path t) ;;
  (if e2 then ret tt
   else print_error ("Sentinel-2 file not found: " ++ s2_path t) ;;; exit 1) ;;;
  e3 <- test_f (dem_path t) ;;
  (if e3 then ret tt
   else print_warn ("DEM file not found: " ++ dem_path t) ;;;
        print_warn "Using placeholder DEM. Results may be inaccurate.") ;;;
  checked (ext ["mkdir"; "-p"; output_dir t]) ;;;
  tee_pipe lf (fusion_argv t) ;;;
  log lf "Feature extraction complete".

(** Step 5 (lines 283-303), with the argument vector of [Scripts.export_argv]. *)
Definition step5 (fl : flags) (lf : string) : M unit :=
  let t := f_tile fl in
  print_info "Step 5: Exporting for Unreal Engine..." ;;;
  log lf "Step 5: Unreal Engine export" ;;;
  checked (ext ["mkdir"; "-p"; unreal_dir t]) ;;;
  tee_pipe lf ("python3" :: Scripts.export_argv
                 {| Scripts.config_file := f_config fl; Scripts.tile_id := t |}) ;;;
  log lf "Unreal export complete".

(** Step 6 (lines 305-329). *)
Definition step6 (t lf : string) : M unit :=
  print_info "========================================" ;;;
  print_info "Pipeline Complete!" ;;;
  print_info "========================================" ;;;
  log lf "Pipeline completed successfully" ;;;
  print_info "Outputs:" ;;;
  echo_all [ "  - Anomaly map: " ++ output_dir t ++ "/anomaly_probability.tif";
             "  - Feature stack: " ++ output_dir t ++ "/feature_stack.tif";
             "  - Metadata: " ++ output_dir t ++ "/meta.json";
             "  - Unreal assets: " ++ unreal_dir t ++ "/";
             "    - heightmap_16bit.png"; "    - texture_rgb_4096.png";
             "    - anomaly_overlay_4096.png"; "    - meta.json"; "" ] ;;;
  print_info ("Log file: " ++ lf) ;;;
  echo "" ;;;
  print_info "Next steps:" ;;;
  echo_all [ "  1. Review outputs in " ++ unreal_dir t;
             "  2. Import heightmap_16bit.png into Unreal Engine";
             "  3. Apply textures and anomaly overlay";
             "  4. See docs/unreal_import_checklist.md for import guide"; "" ].

(** Lines 72-109 and the steps. [parse_config] is defined but never called. *)
Definition main (fl : flags) : M unit :=
  let t := f_tile fl in
  c <- test_f (f_config fl) ;;
  (if c then ret tt
   else print_error ("Configuration file not found: " ++ f_config fl) ;;; exit 1) ;;;
  print_info "========================================" ;;;
  print_info "Unreal Miner - Automated Pipeline" ;;;
  print_info "========================================" ;;;
  print_info ("Tile ID: " ++ t) ;;;
  print_info ("Config: " ++ f_config fl) ;;;
  print_info "" ;;;
  ts <- ext_out ["date"; "+%Y%m%d_%H%M%S"] ;;
  (if (fst ts =? 0)%Z then ret tt else exit (fst ts)) ;;;
  let lf := "logs/pipeline_" ++ t ++ "_" ++ snd ts ++ ".log" in
  checked (ext ["mkdir"; "-p"; "logs"]) ;;;
  log lf "Pipeline started" ;;;
  log lf ("Configuration: " ++ f_config fl) ;;;
  step1 fl lf ;;;
  step2 fl lf ;;;
  step3 fl lf ;;;
  step4 t lf ;;;
  step5 fl lf ;;;
  step6 t lf.

Definition run_pipeline (args : list string) : M unit :=
  fl <- parse args default_flags ;; main fl.

End Script.

(** The exit status of the script: reaching the end, the status of its last
    command, [echo ""], which is 0. *)
Definition script_status (o : outcome unit) : Z :=
  match o with Done _ => 0 | Exited c => c end.

End RunPipeline.

(** Properties of script fragments, read on the history they add. *)
Module Traces.
Import RunPipeline.
Local Open Scope string_scope.

(** [m] always reaches its end, only adding to the history. *)
Definition safe {A} (m : M A) : Prop :=
  forall h, exists a ext, m h = (Done a, (ext ++ h)%list).
(** ... and adds an event satisfying [R]. *)
Definition safe_in {A} (R : event -> Prop) (m : M A) : Prop :=
  forall h, exists a ext, m h = (Done a, (ext ++ h)%list) /\ Exists R ext.
(** [m] adds only events satisfying [P] and, if it ends the script, does
    so with a nonzero status. *)
Definition nz {A} (P : event -> Prop) (m : M A) : Prop :=
  forall h, exists o ext, m h = (o, (ext ++ h)%list) /\ Forall P ext /\
                          (forall c, o = Exited c -> c <> 0).
(** [m] adds only events satisfying [P] and always ends the script with
    a nonzero status. *)
Definition exits {A} (P : event -> Prop) (m : M A) : Prop :=
  forall h, exists c ext, m h = (Exited c, (ext ++ h)%list) /\ Forall P ext /\ c <> 0.

(** An event that is not a run of [python3]. *)
Definition not_python (e : event) : Prop :=
  match e with Ran argv => hd_error argv <> Some "python3" | _ => True end.

(** An event that is an [echo]. *)
Definition is_echo (e : event) : Prop := exists s, e = Echo s.

End Traces.

(** Concrete inputs for the properties above. *)
Module ExtraSamples.
Local Open Scope string_scope.

(** A request environment whose command prints a warning on stderr. *)
Definition sample_env : Route.env :=
  {| Route.project_root := "/srv/unreal-miner";
     Route.now_cmd := 1718000000000; Route.now_job := 1718000000007;
     Route.run := fun _ => Route.ExecOk "Processing done  " "WARNING: low valid fraction" |}.

Definition sample_body : Route.json :=
  Route.JObj [("s1Path", Route.JStr "data/s1.tif"); ("s2Path", Route.JStr "data/s2.tif");
              ("demPath", Route.JStr "data/dem.tif"); ("outputDir", Route.JStr "data/out")].

(** A machine without [gpt] and without a DEM, on which both Python
    scripts fail and every other command succeeds. *)
Definition world_no_dem : RunPipeline.world :=
  {| RunPipeline.w_status := fun _ argv =>
       match argv with "python3" :: _ => 1 | _ => 0 end;
     RunPipeline.w_output := fun _ _ => "20240610_120000";
     RunPipeline.w_file := fun _ p =>
       negb (String.eqb p (RunPipeline.dem_path "tile_001"));
     RunPipeline.w_dir := fun _ _ => false;
     RunPipeline.w_glob := fun _ _ => [];
     RunPipeline.w_has_gpt := fun _ => false;
     RunPipeline.w_creds := false;
     RunPipeline.w_source := fun _ => (0, false);
     RunPipeline.w_argv0 := "./run_pipeline.sh" |}.

(** A machine on which the aligned Sentinel-1 file never appears. *)
Definition world_no_s1 : RunPipeline.world :=
  {| RunPipeline.w_status := fun _ _ => 0;
     RunPipeline.w_output := fun _ _ => "20240610_120000";
     RunPipeline.w_file := fun _ p =>
       negb (String.eqb p (RunPipeline.s1_path "tile_001"));
     RunPipeline.w_dir := fun _ _ => false;
     RunPipeline.w_glob := fun _ _ => [];
     RunPipeline.w_has_gpt := fun _ => true;
     RunPipeline.w_creds := true;
     RunPipeline.w_source := fun _ => (0, true);
     RunPipeline.w_argv0 := "./run_pipeline.sh" |}.

Definition skip_snap_flags : RunPipeline.flags :=
  {| RunPipeline.f_config := "config/default.yaml"; RunPipeline.f_tile := "tile_001";
     RunPipeline.f_skip_download := false; RunPipeline.f_skip_snap := true;
     RunPipeline.f_skip_alignment := false |}.

End ExtraSamples.

(** ** [setup_environment.sh] (second script of
    [src/unnamed/part_005]): the Python version check, lines 363-382 *)
Module SetupEnv.
Import Text.
Local Open Scope string_scope.

(** Text as the shell tools read it, byte by byte. *)
Definition text : Type := list ascii.

Definition nl : ascii := "010"%char.
Definition tab : ascii := "009"%char.

(** The pieces of [s] between the characters for which [sep] holds. *)
Fixpoint split_by (sep : ascii -> bool) (s : text) : list text :=
  match s with
  | [] => [[]]
  | c :: r =>
      if sep c then [] :: split_by sep r
      else match split_by sep r with
           | f :: fs => (c :: f) :: fs
           | [] => [[c]]
           end
  end.

(** The lines of an input as [awk] and [cut] read them: a final newline
    ends the last line and starts no new one. *)
Definition lines (s : text) : list text :=
  match rev s with
  | [] => []
  | c :: r =>
      if Ascii.eqb c nl then split_by (Ascii.eqb nl) (rev r)
      else split_by (Ascii.eqb nl) s
  end.

Definition nonempty (w : text) : bool := match w with [] => false | _ => true end.

(** [awk]'s default field separation: runs of blanks (space and tab),
    leading and trailing ones ignored. *)
Definition is_blank (c : ascii) : bool := Ascii.eqb c " " || Ascii.eqb c tab.

Definition awk_fields (r : text) : list text := filter nonempty (split_by is_blank r).

(** [awk '{print $2}']: the second field of every line, empty when there
    is none, each followed by a newline. *)
Definition awk_print2 (s : text) : text :=
  flat_map (fun r => (nth 1 (awk_fields r) [] ++ [nl])%list) (lines s).

Fixpoint drop_nl (s : text) : text :=
  match s with
  | c :: r => if Ascii.eqb c nl then drop_nl r else s
  | [] => []
  end.

(** [$(...)]: the output without its NUL bytes and trailing newlines. *)
Definition command_subst (s : text) : text :=
  rev (drop_nl (rev (filter (fun c => negb (Ascii.eqb c "000"%char)) s))).

(** Word splitting of an unquoted expansion with the default [IFS]
    (space, tab, newline). *)
Definition is_ifs (c : ascii) : bool := Ascii.eqb c " " || Ascii.eqb c tab || Ascii.eqb c nl.

Definition words (s : text) : list text := filter nonempty (split_by is_ifs s).

(** A word that pathname expansion treats as a pattern. *)
Definition has_glob (w : text) : bool :=
  existsb (fun c => Ascii.eqb c "*" || Ascii.eqb c "?" || Ascii.eqb c "[") w.

(** [cut -d. -fN] on one line: a line without a dot is printed whole,
    otherwise its [N]th dot-separated field, empty when there is none. *)
Definition is_dot (c : ascii) : bool := Ascii.eqb c ".".

Definition cut_line (n : nat) (l : text) : text :=
  if existsb is_dot l then nth (n - 1) (split_by is_dot l) [] else l.

Definition cut_field (n : nat) (s : text) : text :=
  flat_map (fun l => (cut_line n l ++ [nl])%list) (lines s).

(** The integers [[ a -lt b ]] and [[ a -eq b ]] accept (bash's
    [legal_number]): [strtoimax] in base 10 after leading white space, at
    least one digit, no overflow of a 64-bit [intmax_t], and nothing after
    the digits but blanks. *)
Definition is_digit (c : ascii) : bool :=
  (48 <=? nat_of_ascii c)%nat && (nat_of_ascii c <=? 57)%nat.

Fixpoint span_digits (s : text) : text * text :=
  match s with
  | c :: r => if is_digit c then let (d, t) := span_digits r in (c :: d, t) else ([], s)
  | [] => ([], [])
  end.

Fixpoint drop_ws (s : text) : text :=
  match s with
  | c :: r => if Str.is_ws c then drop_ws r else s
  | [] => []
  end.

Definition legal_number (s : text) : option Z :=
  let s1 := drop_ws s in
  let '(neg, s2) :=
    match s1 with
    | c :: r => if Ascii.eqb c "-" then (true, r)
                else if Ascii.eqb c "+" then (false, r) else (false, s1)
    | [] => (false, s1)
    end in
  let '(ds, rest) := span_digits s2 in
  let v := dec_value (string_of_list_ascii ds) 0 in
  let v := if neg then - v else v in
  match ds with
  | [] => None
  | _ => if ((- 2 ^ 63 <=? v) && (v <? 2 ^ 63))%Z && forallb is_blank rest then Some v else None
  end.

(** The status of [[ a OP b ]] for an integer comparison: 0 or 1, and 2
    ("integer expression expected") when an operand is not an integer. *)
Definition test_int (op : Z -> Z -> bool) (a b : text) : Z :=
  match legal_number a with
  | None => 2
  | Some x => match legal_number b with
              | None => 2
              | Some y => if op x y then 0 else 1
              end
  end.

(** Line 377: the status of
    [[ "$PYTHON_MAJOR" -lt 3 ] || ([ "$PYTHON_MAJOR" -eq 3 ] && [ "$PYTHON_MINOR" -lt 9 ])];
    the branch is taken when it is 0. *)
Definition too_old_status (major minor : text) : Z :=
  let a := test_int Z.ltb major ["3"%char] in
  if (a =? 0)%Z then 0
  else let b := test_int Z.eqb major ["3"%char] in
       if (b =? 0)%Z then test_int Z.ltb minor ["9"%char] else b.

(** The messages handed to [echo -e] by [print_info] and [print_error]
    (lines 349-359; the colours are those of [run_pipeline.sh]). *)
Definition info (s : string) : string := RunPipeline.GREEN ++ "[INFO]" ++ RunPipeline.NC ++ " " ++ s.
Definition error (s : string) : string := RunPipeline.RED ++ "[ERROR]" ++ RunPipeline.NC ++ " " ++ s.

(** U+2713 CHECK MARK in UTF-8. *)
Definition check_mark : string :=
  String (ascii_of_nat 226) (String (ascii_of_nat 156) (String (ascii_of_nat 147) EmptyString)).

(** Line 373: [PYTHON_VERSION], from the combined output [out] of
    [python3 --version 2>&1] (whatever the shell prints when there is no
    [python3]). *)
Definition python_version (out : string) : text :=
  command_subst (awk_print2 (list_ascii_of_string out)).

(** A character that can stand in a version word without changing how the
    check reads it: no white space, no pattern character, no NUL byte. *)
Definition word_char (c : ascii) : bool :=
  negb (Str.is_ws c) && negb (has_glob [c]) && negb (Ascii.eqb c "000"%char).

Section Shell.
(** The sorted matches of a pathname pattern, and [echo -e]'s processing
    of the backslash escapes of one argument: the text it prints and
    whether a [\c] ended the output. *)
Variable glob : text -> list text.
Variable escapes : text -> text * bool.

(** Pathname expansion of one word: a pattern with no match stays as it is. *)
Definition expand (w : text) : list text :=
  if has_glob w then match glob w with [] => [w] | l => l end else [w].

(** bash's [echo]: leading arguments made of [-] and the letters [n], [e],
    [E] are options; the arguments are printed separated by spaces, then a
    newline unless [-n] is given or a [\c] was met under [-e]. *)
Definition echo_opt (w : text) : bool :=
  match w with
  | c :: ((_ :: _) as r) =>
      Ascii.eqb c "-" && forallb (fun d => Ascii.eqb d "n" || Ascii.eqb d "e" || Ascii.eqb d "E") r
  | _ => false
  end.

Definition apply_opt (ne : bool * bool) (d : ascii) : bool * bool :=
  if Ascii.eqb d "n" then (true, snd ne)
  else if Ascii.eqb d "e" then (fst ne, true) else (fst ne, false).

Fixpoint echo_opts (ws : list text) (ne : bool * bool) : bool * bool * list text :=
  match ws with
  | w :: r => if echo_opt w then echo_opts r (fold_left apply_opt (tl w) ne) else (ne, ws)
  | [] => (ne, [])
  end.

Fixpoint echo_words (e : bool) (ws : list text) : text * bool :=
  match ws with
  | [] => ([], false)
  | w :: r =>
      let (t, stop) := if e then escapes w else (w, false) in
      if stop then (t, true)
      else let (t', stop') := echo_words e r in
           ((t ++ (match r with [] => [] | _ => [" "%char] end) ++ t')%list, stop')
  end.

Definition echo (args : list text) : text :=
  let '(ne, ws) := echo_opts args (false, false) in
  let (t, stop) := echo_words (snd ne) ws in
  (t ++ (if fst ne || stop then [] else [nl]))%list.

(** Lines 374-375: [$(echo $PYTHON_VERSION | cut -d. -fN)]. *)
Definition python_field (n : nat) (v : text) : text :=
  command_subst (cut_field n (echo (flat_map expand (words v)))).

(** Lines 363-382 for the first argument [arg1] (empty when there is
    none): the messages printed, and [Some 1] when the script exits at
    line 379, [None] when it goes on to the GDAL check. *)
Definition python_check (arg1 out : string) : list string * option Z :=
  let pre := ((if String.eqb arg1 "--docker" then [info "Running in Docker mode"] else [])
              ++ [info "Setting up Unreal Miner environment...";
                  info "Checking Python version..."])%list in
  let v := python_version out in
  let V := string_of_list_ascii v in
  if (too_old_status (python_field 1 v) (python_field 2 v) =? 0)%Z
  then ((pre ++ [error ("Python 3.9+ required. Found: Python " ++ V)])%list, Some 1)
  else ((pre ++ [info ("Python " ++ V ++ " detected " ++ check_mark)])%list, None).

End Shell.
End SetupEnv.

(* ================================================================== *)
(** * Proofs *)

(** ** The processing route *)
Module RouteFacts.
Import Route.
Local Open Scope string_scope.

Lemma missing_param_condition (b : json) :
  truthy (get_prop b "s1Path") = false \/ truthy (get_prop b "s2Path") = false \/
  truthy (get_prop b "demPath") = false \/ truthy (get_prop b "outputDir") = false ->
  negb (truthy (get_prop b "s1Path")) || negb (truthy (get_prop b "s2Path"))
  || negb (truthy (get_prop b "demPath")) || negb (truthy (get_prop b "outputDir")) = true.
Proof.
  intros [H|[H|[H|H]]]; rewrite H; simpl;
    repeat rewrite orb_true_r; reflexivity.
Qed.

(** C10 (a code defect): a body lacking (or carrying a falsy) [s1Path],
    [s2Path], [demPath] or [outputDir] never reaches [exec]. A body other
    than JSON [null] is answered 400 with the message naming the four
    parameters; the JSON body [null], which has none of them, makes the
    destructuring of line 11 throw before the check of line 14 runs, and is
    answered 500 "Failed to process satellite data". *)
Theorem post_missing_params_rejected (E : env) (b : json) :
  truthy (get_prop b "s1Path") = false \/ truthy (get_prop b "s2Path") = false \/
  truthy (get_prop b "demPath") = false \/ truthy (get_prop b "outputDir") = false ->
  fst (POST E (Some b)) = [] /\
  (b <> JNull -> snd (POST E (Some b)) = respond 400 (JObj [("error", JStr missing_params_msg)])) /\
  (b = JNull -> snd (POST E (Some b)) =
   respond 500 (JObj [("error", JStr "Failed to process satellite data");
            ("details", JStr "Cannot destructure property 's1Path' of 'body' as it is null.")])).
Proof.
  intros H. pose proof (missing_param_condition b H) as Hc.
  unfold POST.
  destruct b; cbv beta iota zeta;
    try (rewrite Hc; repeat split; intros; reflexivity || congruence).
  repeat split; intros; reflexivity || congruence.
Qed.

Lemma post_missing_params_rejected_witness :
  let E := {| project_root := "/srv/unreal-miner"; now_cmd := 1; now_job := 2;
              run := fun _ => ExecOk EmptyString EmptyString |} in
  truthy (get_prop JNull "s1Path") = false /\
  fst (POST E (Some JNull)) = [] /\
  (JNull <> JNull -> snd (POST E (Some JNull))
                     = respond 400 (JObj [("error", JStr missing_params_msg)])) /\
  (JNull = JNull -> snd (POST E (Some JNull)) =
   respond 500 (JObj [("error", JStr "Failed to process satellite data");
            ("details", JStr "Cannot destructure property 's1Path' of 'body' as it is null.")])).
Proof.
  intros E. split; [reflexivity|].
  apply (post_missing_params_rejected E JNull). left; reflexivity.
Defined.

End RouteFacts.

(** ** The training data of the classifier *)
Module FusionFacts.
Import Fusion.

Lemma randint_labels (n : nat) : forall (g : np_random) (lo hi : Z),
  (lo < hi)%Z ->
  List.length (fst (randint g lo hi n)) = n /\
  Forall (fun l => lo <= l < hi)%Z (fst (randint g lo hi n)).
Proof.
  induction n as [|n IH]; intros g lo hi Hlt; simpl.
  - split; [reflexivity | constructor].
  - destruct (randint {| draws := draws g; cursor := S (cursor g) |} lo hi n) as [r g2] eqn:Er.
    simpl. destruct (IH {| draws := draws g; cursor := S (cursor g) |} lo hi Hlt) as [Hl Hf].
    rewrite Er in Hl, Hf. simpl in Hl, Hf. split; [simpl; lia|].
    constructor; [|exact Hf].
    pose proof (Z.mod_pos_bound (draws g (cursor g)) (hi - lo)). lia.
Qed.

Lemma rand_rows (rows : nat) : forall g cols, List.length (fst (rand g rows cols)) = rows.
Proof.
  induction rows as [|k IH]; intros g cols; simpl; [reflexivity|].
  destruct (rand_row g cols) as [r g1].
  specialize (IH g1 cols). destruct (rand g1 k cols) as [m g2]. simpl in *. lia.
Qed.

End FusionFacts.

(** ** The supervised path without labeled data *)
Module DemoRunFacts.
Import Route Fusion.
Local Open Scope string_scope.

(** C1 (a code defect): a processing request that leaves [demoMode] out runs
    [process_fusion] with [--demo-mode] and is answered "Processing
    completed successfully" with the classification map among its files and
    no untrained or placeholder marker; the classifier it runs is fitted on
    1000 labels drawn from numpy's generator, each in {0, 1, 2}, whatever
    the input. *)
Theorem demo_run_reports_unflagged_success :
  let E := {| project_root := "/srv/unreal-miner"; now_cmd := 1700000000000%Z;
              now_job := 1700000000001%Z;
              run := fun _ => ExecOk "Classification complete" EmptyString |} in
  let b := JObj [("s1Path", JStr "data/aligned/s1.tif"); ("s2Path", JStr "data/aligned/s2.tif");
                 ("demPath", JStr "data/aligned/dem.tif"); ("outputDir", JStr "data/outputs")] in
  (exists cmd, fst (POST E (Some b)) = [cmd] /\ Str.includes cmd "--demo-mode" = true) /\
  status (snd (POST E (Some b))) = 200%Z /\
  get_prop (payload (snd (POST E (Some b)))) "success" = Some (JBool true) /\
  get_prop (payload (snd (POST E (Some b)))) "message"
    = Some (JStr "Processing completed successfully") /\
  get_prop (payload (snd (POST E (Some b)))) "untrained" = None /\
  get_prop (payload (snd (POST E (Some b)))) "placeholder" = None /\
  (forall (g : np_random) (n_features : nat),
     let '(_, y_train, _) := training_data g n_features in
     List.length y_train = n_train_samples /\ Forall (fun l => 0 <= l < 3)%Z y_train).
Proof.
  intros E b. split; [eexists; split; [reflexivity | vm_compute; reflexivity]|].
  do 5 (split; [vm_compute; reflexivity|]).
  intros g nf. unfold training_data.
  destruct (rand g n_train_samples nf) as [X g1].
  pose proof (FusionFacts.randint_labels n_train_samples g1 0 3 ltac:(lia)) as [Hl Hf].
  destruct (randint g1 0 3 n_train_samples) as [y g2]. split; assumption.
Qed.

End DemoRunFacts.

(** ** The configured heightmap size *)

(** ** Divisions in the feature formulas *)
Module FeatureFacts.
Import Pipe Features.
Local Open Scope Q_scope.

Lemma floored_vh_nonzero (vh : Q) : Qeq_bool (Qmax vh EPS) 0 = false.
Proof.
  destruct (Qeq_bool (Qmax vh EPS) 0) eqn:E; [|reflexivity].
  apply Qeq_bool_iff in E. pose proof (Q.le_max_r vh EPS) as H.
  rewrite E in H. unfold EPS in H. lra.
Qed.

Lemma norm_diff_some (a b : Q) :
  norm_diff a b = if Qeq_bool (a + b) 0 then Some 0 else Some ((a - b) / (a + b)).
Proof.
  unfold norm_diff, div. destruct (Qeq_bool (a + b) 0); reflexivity.
Qed.

(** C8: the cross-polarization ratio divides by VH floored at [EPS], so its
    division-by-zero branch is never taken; a normalized difference is 0
    when [A + B = 0] and the plain quotient otherwise; no band of a pixel
    is ever masked because of a division. *)
Theorem feature_divisions_total (vv vh a b red green nir : Q) :
  cross_pol_ratio vv vh = Some (vv / Qmax vh EPS) /\
  norm_diff a b = (if Qeq_bool (a + b) 0 then Some 0 else Some ((a - b) / (a + b))) /\
  forallb (fun p => negb (snd p)) (pixel_features vv vh red green nir) = true.
Proof.
  assert (Hr : cross_pol_ratio vv vh = Some (vv / Qmax vh EPS)).
  { unfold cross_pol_ratio, div. rewrite floored_vh_nonzero. reflexivity. }
  split; [exact Hr|]. split; [apply norm_diff_some|].
  unfold pixel_features, ndvi, ndwi. rewrite Hr, !norm_diff_some.
  destruct (Qeq_bool (nir + red) 0), (Qeq_bool (green + nir) 0); reflexivity.
Qed.

End FeatureFacts.

(** ** Asset Encoder *)
Module EncoderFacts.
Import Pipe Encoder.
Local Open Scope Q_scope.

Lemma valid_target_size_spec (n : Z) :
  valid_target_size n = true <-> exists k : nat, n = (2 ^ Z.of_nat k + 1)%Z.
Proof.
  unfold valid_target_size. rewrite andb_true_iff, Z.leb_le, Z.eqb_eq. split.
  - intros [Hge Hland].
    set (m := (n - 1)%Z) in *. assert (Hm : (0 < m)%Z) by (unfold m; lia).
    replace (n - 2)%Z with (m - 1)%Z in Hland by (unfold m; lia).
    pose proof (Z.log2_spec m Hm) as [Hlo Hhi].
    pose proof (Z.log2_nonneg m) as Hk.
    assert (Heq : m = (2 ^ Z.log2 m)%Z).
    { destruct (Z.eq_dec m (2 ^ Z.log2 m)) as [E|E]; [exact E|exfalso].
      assert (Hl1 : Z.log2 (m - 1) = Z.log2 m).
      { apply Z.log2_unique; [exact Hk|]. lia. }
      assert (Hb : Z.testbit (Z.land m (m - 1)) (Z.log2 m) = true).
      { rewrite Z.land_spec, Z.bit_log2 by exact Hm.
        rewrite <- Hl1. simpl. apply Z.bit_log2. lia. }
      rewrite Hland, Z.testbit_0_l in Hb. discriminate. }
    exists (Z.to_nat (Z.log2 m)). rewrite Z2Nat.id by exact Hk. unfold m in *. lia.
  - intros [k ->].
    pose proof (Z.pow_pos_nonneg 2 (Z.of_nat k) ltac:(lia) ltac:(lia)) as Hp.
    split; [lia|].
    replace (2 ^ Z.of_nat k + 1 - 1)%Z with (2 ^ Z.of_nat k)%Z by lia.
    replace (2 ^ Z.of_nat k + 1 - 2)%Z with (Z.ones (Z.of_nat k)) by (rewrite Z.ones_equiv; lia).
    apply Z.bits_inj'. intros i Hi.
    rewrite Z.land_spec, Z.testbit_0_l, Z.pow2_bits_eqb, Z.testbit_ones_nonneg by lia.
    destruct (Z.eqb_spec (Z.of_nat k) i); [subst; rewrite Z.ltb_irrefl|]; reflexivity.
Qed.

Lemma Qmin_cases (x y : Q) : Qmin x y = x \/ Qmin x y = y.
Proof. unfold Qmin, GenericMinMax.gmin. destruct (x ?= y); auto. Qed.

Lemma Qmax_cases (x y : Q) : Qmax x y = x \/ Qmax x y = y.
Proof. unfold Qmax, GenericMinMax.gmax. destruct (x ?= y); auto. Qed.

Lemma Qminl_in (l : list Q) : forall x, In (Qminl x l) (x :: l).
Proof.
  unfold Qminl. induction l as [|a l IH]; intros x; simpl; [auto|].
  destruct (IH (Qmin x a)) as [E|E]; [rewrite <- E; destruct (Qmin_cases x a) as [F|F]; rewrite F; auto|auto].
Qed.

Lemma Qmaxl_in (l : list Q) : forall x, In (Qmaxl x l) (x :: l).
Proof.
  unfold Qmaxl. induction l as [|a l IH]; intros x; simpl; [auto|].
  destruct (IH (Qmax x a)) as [E|E]; [rewrite <- E; destruct (Qmax_cases x a) as [F|F]; rewrite F; auto|auto].
Qed.

Lemma Qminl_le (l : list Q) : forall x y, In y (x :: l) -> Qminl x l <= y.
Proof.
  unfold Qminl. induction l as [|a l IH]; intros x y Hy; simpl in *.
  - destruct Hy as [<-|[]]. apply Qle_refl.
  - destruct Hy as [->|[->|Hy]].
    + eapply Qle_trans; [apply (IH (Qmin y a) (Qmin y a)); left; reflexivity|apply Q.le_min_l].
    + eapply Qle_trans; [apply (IH (Qmin x y) (Qmin x y)); left; reflexivity|apply Q.le_min_r].
    + apply IH. right; exact Hy.
Qed.

Lemma Qmaxl_ge (l : list Q) : forall x y, In y (x :: l) -> y <= Qmaxl x l.
Proof.
  unfold Qmaxl. induction l as [|a l IH]; intros x y Hy; simpl in *.
  - destruct Hy as [<-|[]]. apply Qle_refl.
  - destruct Hy as [->|[->|Hy]].
    + eapply Qle_trans; [apply Q.le_max_l|apply (IH (Qmax y a) (Qmax y a)); left; reflexivity].
    + eapply Qle_trans; [apply Q.le_max_r|apply (IH (Qmax x y) (Qmax x y)); left; reflexivity].
    + apply IH. right; exact Hy.
Qed.

Lemma Qminl_eq (v : Q) (vs : list Q) (mn mx : Q) :
  existsb (fun x => Qeq_bool x mn) (v :: vs) = true ->
  forallb (fun x => Qle_bool mn x && Qle_bool x mx) (v :: vs) = true ->
  Qminl v vs == mn.
Proof.
  intros Hin Hall. apply existsb_exists in Hin as [y [Hy Hye]].
  apply Qeq_bool_iff in Hye. apply Qle_antisym.
  - rewrite <- Hye. apply Qminl_le. exact Hy.
  - rewrite forallb_forall in Hall. specialize (Hall _ (Qminl_in vs v)).
    apply andb_true_iff in Hall as [H _]. apply Qle_bool_iff. exact H.
Qed.

Lemma Qmaxl_eq (v : Q) (vs : list Q) (mn mx : Q) :
  existsb (fun x => Qeq_bool x mx) (v :: vs) = true ->
  forallb (fun x => Qle_bool mn x && Qle_bool x mx) (v :: vs) = true ->
  Qmaxl v vs == mx.
Proof.
  intros Hin Hall. apply existsb_exists in Hin as [y [Hy Hye]].
  apply Qeq_bool_iff in Hye. apply Qle_antisym.
  - rewrite forallb_forall in Hall. specialize (Hall _ (Qmaxl_in vs v)).
    apply andb_true_iff in Hall as [_ H]. apply Qle_bool_iff. exact H.
  - rewrite <- Hye. apply Qmaxl_ge. exact Hy.
Qed.

(** C2: a [target_size] not of the form [2^k + 1] makes [encode_height]
    fail with [InvalidTargetSize]; one of that form never does; in
    particular 4096 is refused and 4097 is not. *)
Theorem encode_height_target_size (resample : Z -> list (list Q) -> list (list Q))
    (tile_id : string) (elevation : raster) (n : Z) (ve : Q) :
  ((~ exists k : nat, n = (2 ^ Z.of_nat k + 1)%Z) ->
     encode_height resample tile_id elevation n ve = Fail (InvalidTargetSize n)) /\
  ((exists k : nat, n = (2 ^ Z.of_nat k + 1)%Z) ->
     forall s, encode_height resample tile_id elevation n ve <> Fail (InvalidTargetSize s)) /\
  encode_height resample tile_id elevation 4096 ve = Fail (InvalidTargetSize 4096) /\
  (forall s, encode_height resample tile_id elevation 4097 ve <> Fail (InvalidTargetSize s)).
Proof.
  assert (Hok : forall m, valid_target_size m = true ->
            forall s, encode_height resample tile_id elevation m ve <> Fail (InvalidTargetSize s)).
  { intros m Hm s. unfold encode_height. rewrite Hm. simpl.
    destruct (valid_pixels elevation); discriminate. }
  split; [|split; [|split]].
  - intros Hn. unfold encode_height.
    destruct (valid_target_size n) eqn:E; [|reflexivity].
    exfalso. apply Hn. apply valid_target_size_spec. exact E.
  - intros Hn. apply Hok. apply valid_target_size_spec. exact Hn.
  - reflexivity.
  - apply Hok. reflexivity.
Qed.

Lemma encode_height_target_size_witness :
  (exists k : nat, 1025%Z = (2 ^ Z.of_nat k + 1)%Z) /\
  (forall s, encode_height Samples.keep_grid "AOI_001"%string Samples.dem_145_892 1025 2
             <> Fail (InvalidTargetSize s)).
Proof.
  assert (Hk : exists k : nat, 1025%Z = (2 ^ Z.of_nat k + 1)%Z) by (exists 10%nat; reflexivity).
  split; [exact Hk|].
  apply (proj1 (proj2 (encode_height_target_size Samples.keep_grid "AOI_001"%string
                         Samples.dem_145_892 1025 2))).
  exact Hk.
Defined.

(** C3: when [min_elev] and [max_elev] are the least and greatest valid
    pixels of the source raster and the size is valid, [encode_height]
    succeeds with [z_scale = ((max_elev - min_elev) / 65535) * vertical_exaggeration];
    for the range [145.3, 892.7] and exaggeration 2 that is
    149480/6553500, about 0.02281. *)
Theorem encode_height_z_scale (resample : Z -> list (list Q) -> list (list Q))
    (tile_id : string) (elevation : raster) (target_size : Z) (ve min_elev max_elev : Q) :
  valid_target_size target_size = true ->
  existsb (fun x => Qeq_bool x min_elev) (valid_pixels elevation) = true ->
  existsb (fun x => Qeq_bool x max_elev) (valid_pixels elevation) = true ->
  forallb (fun x => Qle_bool min_elev x && Qle_bool x max_elev) (valid_pixels elevation) = true ->
  (exists hb m, encode_height resample tile_id elevation target_size ve = Ok (hb, m) /\
     m_min_elev m == min_elev /\ m_max_elev m == max_elev /\
     m_z_scale m == (max_elev - min_elev) / 65535 * ve) /\
  z_scale (1453 # 10) (8927 # 10) 2 == 149480 # 6553500 /\
  22809 # 1000000 < z_scale (1453 # 10) (8927 # 10) 2 < 22811 # 1000000.
Proof.
  intros Hts Hmn Hmx Hall. split; [|split; [reflexivity|split; reflexivity]].
  unfold encode_height. rewrite Hts. simpl negb. cbv iota.
  destruct (valid_pixels elevation) as [|v vs]; [discriminate|].
  pose proof (Qminl_eq v vs min_elev max_elev Hmn Hall) as E1.
  pose proof (Qmaxl_eq v vs min_elev max_elev Hmx Hall) as E2.
  eexists _, _. split; [reflexivity|]. simpl.
  split; [exact E1|]. split; [exact E2|].
  unfold z_scale. rewrite E1, E2. reflexivity.
Qed.

Lemma encode_height_z_scale_witness :
  valid_target_size 1025 = true /\
  existsb (fun x => Qeq_bool x (1453 # 10)) (valid_pixels Samples.dem_145_892) = true /\
  existsb (fun x => Qeq_bool x (8927 # 10)) (valid_pixels Samples.dem_145_892) = true /\
  forallb (fun x => Qle_bool (1453 # 10) x && Qle_bool x (8927 # 10))
    (valid_pixels Samples.dem_145_892) = true /\
  ((exists hb m, encode_height Samples.keep_grid "AOI_001"%string Samples.dem_145_892 1025 2
                   = Ok (hb, m) /\
     m_min_elev m == 1453 # 10 /\ m_max_elev m == 8927 # 10 /\
     m_z_scale m == ((8927 # 10) - (1453 # 10)) / 65535 * 2) /\
   z_scale (1453 # 10) (8927 # 10) 2 == 149480 # 6553500 /\
   22809 # 1000000 < z_scale (1453 # 10) (8927 # 10) 2 < 22811 # 1000000).
Proof.
  split; [reflexivity|]. split; [reflexivity|]. split; [reflexivity|]. split; [reflexivity|].
  apply (encode_height_z_scale Samples.keep_grid "AOI_001"%string Samples.dem_145_892 1025 2
           (1453 # 10) (8927 # 10)); reflexivity.
Defined.

Lemma round_comp (x y : Q) : x == y -> round x = round y.
Proof.
  intros H. unfold round. cbv zeta. rewrite (Qfloor_comp x y H).
  assert (E : Qcompare (x - inject_Z (Qfloor y)) (1 # 2) = Qcompare (y - inject_Z (Qfloor y)) (1 # 2)).
  { apply Qcompare_comp; [rewrite H|]; reflexivity. }
  rewrite E. reflexivity.
Qed.

Lemma round_cases (x : Q) :
  (round x = Qfloor x /\ x - inject_Z (Qfloor x) <= 1 # 2) \/
  (round x = (Qfloor x + 1)%Z /\ 1 # 2 <= x - inject_Z (Qfloor x)).
Proof.
  unfold round. cbv zeta.
  destruct (Qcompare_spec (x - inject_Z (Qfloor x)) (1 # 2)) as [H|H|H].
  - destruct (Z.even (Qfloor x)); [left|right]; (split; [reflexivity|]);
      rewrite H; apply Qle_refl.
  - left. split; [reflexivity|]. apply Qlt_le_weak. exact H.
  - right. split; [reflexivity|]. apply Qlt_le_weak. exact H.
Qed.

(** Rounding moves a value by at most half a unit. *)
Lemma round_close (x : Q) : Qabs (inject_Z (round x) - x) <= 1 # 2.
Proof.
  apply Qabs_Qle_condition.
  pose proof (Qfloor_le x) as H1. pose proof (Qlt_floor x) as H2.
  rewrite inject_Z_plus in H2. change (inject_Z 1) with 1 in H2.
  destruct (round_cases x) as [[-> H]|[-> H]];
    [|rewrite inject_Z_plus; change (inject_Z 1) with 1]; split; lra.
Qed.

(** Rounding a value of [[0, hi]] stays in [[0, hi]]. *)
Lemma round_range (x : Q) (hi : Z) : 0 <= x -> x <= inject_Z hi -> (0 <= round x <= hi)%Z.
Proof.
  intros H0 Hhi.
  pose proof (Qfloor_resp_le 0 x H0) as F0. change (Qfloor 0) with 0%Z in F0.
  pose proof (Qfloor_resp_le x (inject_Z hi) Hhi) as F1. rewrite Qfloor_Z in F1.
  pose proof (Qfloor_le x) as H1.
  destruct (round_cases x) as [[-> H]|[-> H]]; [lia|].
  assert (Hlt : inject_Z (Qfloor x) < inject_Z hi) by lra.
  rewrite <- Zlt_Qlt in Hlt. lia.
Qed.

(** One elevation of [[min_elev, max_elev]]: its code is in [[0, 65535]] and
    decodes to within half a 16-bit step. *)
Lemma encode_decode_value (mn mx e : Q) :
  mn < mx -> mn <= e <= mx ->
  (0 <= encode_value mn mx e <= 65535)%Z /\
  Qabs (decode_value mn mx (encode_value mn mx e) - e) <= (mx - mn) / 65535 * (1 # 2).
Proof.
  intros Hlt [Hlo Hhi].
  set (D := mx - mn). assert (HD : 0 < D) by (unfold D; lra).
  assert (HD0 : ~ D == 0) by (intro E; rewrite E in HD; discriminate HD).
  set (t := (e - mn) / D * 65535).
  assert (Hq0 : 0 <= (e - mn) / D) by (apply Qle_shift_div_l; [exact HD|lra]).
  assert (Hq1 : (e - mn) / D <= 1) by (apply Qle_shift_div_r; [exact HD|unfold D; lra]).
  assert (Ht0 : 0 <= t) by (unfold t; lra).
  assert (Ht1 : t <= inject_Z 65535) by (unfold t; change (inject_Z 65535) with (65535 # 1); lra).
  pose proof (round_range t 65535 Ht0 Ht1) as Hr.
  assert (Henc : encode_value mn mx e = round t).
  { unfold encode_value, clamp. fold D. fold t. lia. }
  rewrite Henc. split; [exact Hr|].
  assert (He : e == mn + t / 65535 * D) by (unfold t; field; exact HD0).
  unfold decode_value. fold D.
  assert (Hd : inject_Z (round t) / 65535 * D + mn - e == (inject_Z (round t) - t) * (D / 65535)).
  { rewrite He. field. }
  rewrite Hd, Qabs_Qmult.
  assert (Hpos : 0 <= D / 65535) by (apply Qle_shift_div_l; [reflexivity|lra]).
  rewrite (Qabs_pos (D / 65535) Hpos).
  rewrite (Qmult_comm (D / 65535) (1 # 2)).
  apply Qmult_le_compat_r; [apply round_close|exact Hpos].
Qed.

Lemma decode_min (mn mx : Q) : mn < mx -> decode_value mn mx (encode_value mn mx mn) == mn.
Proof.
  intros Hlt. assert (HD0 : ~ mx - mn == 0) by (intro E; lra).
  unfold encode_value.
  rewrite (round_comp ((mn - mn) / (mx - mn) * 65535) 0) by (field; exact HD0).
  change (clamp 0 65535 (round 0)) with 0%Z.
  unfold decode_value. change (inject_Z 0) with 0. field.
Qed.

Lemma decode_max (mn mx : Q) : mn < mx -> decode_value mn mx (encode_value mn mx mx) == mx.
Proof.
  intros Hlt. assert (HD0 : ~ mx - mn == 0) by (intro E; lra).
  unfold encode_value.
  rewrite (round_comp ((mx - mn) / (mx - mn) * 65535) 65535) by (field; exact HD0).
  change (clamp 0 65535 (round 65535)) with 65535%Z.
  unfold decode_value. change (inject_Z 65535) with 65535. field.
Qed.

(** C4: when the valid pixels' minimum is below their maximum, every 16-bit
    value of the height buffer is [round((e - min_elev) / (max_elev -
    min_elev) * 65535)] clamped to [[0, 65535]] for its (resampled)
    elevation [e], with [min_elev] and [max_elev] attained by valid source
    pixels; every valid source elevation decodes back to within half a
    16-bit step (so within one step); and [min_elev] and [max_elev] decode
    back exactly. *)
Theorem encode_height_roundtrip (resample : Z -> list (list Q) -> list (list Q))
    (tile_id : string) (elevation : raster) (target_size : Z) (ve : Q)
    (hb : height_buffer) (m : metadata) :
  encode_height resample tile_id elevation target_size ve = Ok (hb, m) ->
  m_min_elev m < m_max_elev m ->
  In (m_min_elev m) (valid_pixels elevation) /\ In (m_max_elev m) (valid_pixels elevation) /\
  hb = map (map (fun e => clamp 0 65535
                   (round ((e - m_min_elev m) / (m_max_elev m - m_min_elev m) * 65535))))
           (resample target_size (data elevation)) /\
  Forall (fun e => m_min_elev m <= e <= m_max_elev m /\
            Qabs (decode_value (m_min_elev m) (m_max_elev m)
                    (encode_value (m_min_elev m) (m_max_elev m) e) - e)
            <= (m_max_elev m - m_min_elev m) / 65535 * (1 # 2))
         (valid_pixels elevation) /\
  decode_value (m_min_elev m) (m_max_elev m) (encode_value (m_min_elev m) (m_max_elev m) (m_min_elev m))
    == m_min_elev m /\
  decode_value (m_min_elev m) (m_max_elev m) (encode_value (m_min_elev m) (m_max_elev m) (m_max_elev m))
    == m_max_elev m.
Proof.
  intros Henc Hlt. unfold encode_height in Henc.
  destruct (valid_target_size target_size); [|discriminate].
  simpl in Henc. destruct (valid_pixels elevation) as [|v vs] eqn:Ev; [discriminate|].
  injection Henc as <- <-. simpl in *.
  split; [apply Qminl_in|]. split; [apply Qmaxl_in|]. split; [reflexivity|].
  split; [|split; [apply decode_min; exact Hlt|apply decode_max; exact Hlt]].
  apply Forall_forall. intros e He.
  assert (Hb : Qminl v vs <= e <= Qmaxl v vs) by (split; [apply Qminl_le|apply Qmaxl_ge]; exact He).
  split; [exact Hb|]. apply encode_decode_value; assumption.
Qed.

Lemma encode_height_roundtrip_witness :
  match encode_height Samples.keep_grid "AOI_001"%string Samples.dem_145_892 65 2 with
  | Ok (hb, m) =>
      encode_height Samples.keep_grid "AOI_001"%string Samples.dem_145_892 65 2 = Ok (hb, m) /\
      m_min_elev m < m_max_elev m /\
      (In (m_min_elev m) (valid_pixels Samples.dem_145_892) /\
       In (m_max_elev m) (valid_pixels Samples.dem_145_892) /\
       hb = map (map (fun e => clamp 0 65535
                        (round ((e - m_min_elev m) / (m_max_elev m - m_min_elev m) * 65535))))
                (Samples.keep_grid 65 (data Samples.dem_145_892)) /\
       Forall (fun e => m_min_elev m <= e <= m_max_elev m /\
                 Qabs (decode_value (m_min_elev m) (m_max_elev m)
                         (encode_value (m_min_elev m) (m_max_elev m) e) - e)
                 <= (m_max_elev m - m_min_elev m) / 65535 * (1 # 2))
              (valid_pixels Samples.dem_145_892) /\
       decode_value (m_min_elev m) (m_max_elev m)
         (encode_value (m_min_elev m) (m_max_elev m) (m_min_elev m)) == m_min_elev m /\
       decode_value (m_min_elev m) (m_max_elev m)
         (encode_value (m_min_elev m) (m_max_elev m) (m_max_elev m)) == m_max_elev m)
  | Fail _ => False
  end.
Proof.
  lazymatch goal with
  | |- context [encode_height ?a ?b ?c ?d ?e] =>
      let v := eval vm_compute in (encode_height a b c d e) in
      change (encode_height a b c d e) with v
  end.
  cbv beta iota.
  split; [reflexivity|]. split; [reflexivity|].
  apply (encode_height_roundtrip Samples.keep_grid "AOI_001"%string Samples.dem_145_892 65 2);
    [vm_compute; reflexivity | reflexivity].
Defined.

End EncoderFacts.

(* ------------------------------------------------------------------ *)
Module ValidatorFacts.
Import Pipe Validator.
Local Open Scope Q_scope.

Lemma first_insufficient_none (thr : Q) (i : nat) (rs : list raster) :
  first_insufficient thr i rs = None -> forall r, In r rs -> insufficient thr r = false.
Proof.
  revert i. induction rs as [|r0 rest IH]; intros i H r Hr; [contradiction|].
  simpl in H. destruct (insufficient thr r0) eqn:E; [discriminate|].
  destruct Hr as [<-|Hr]; [exact E|]. exact (IH (S i) H r Hr).
Qed.

Lemma first_insufficient_all (thr : Q) (i : nat) (rs : list raster) :
  forallb (fun r => negb (insufficient thr r)) rs = true -> first_insufficient thr i rs = None.
Proof.
  revert i. induction rs as [|r0 rest IH]; intros i H; [reflexivity|].
  simpl in *. apply andb_prop in H as [H1 H2].
  destruct (insufficient thr r0); [discriminate|]. apply IH; exact H2.
Qed.

Lemma all_nodata_count (r : raster) :
  Forall (fun x => x == nodata r) (pixels r) -> valid_count r = O.
Proof.
  unfold valid_count, valid_pixels. induction (pixels r) as [|x xs IH]; intros H; [reflexivity|].
  inversion H as [|? ? Hx Hxs]; subst. simpl. unfold is_valid.
  rewrite (proj2 (Qeq_bool_iff x (nodata r)) Hx). simpl. apply IH; exact Hxs.
Qed.

Lemma insufficient_of (thr : Q) (r : raster) :
  (Forall (fun x => x == nodata r) (pixels r) \/ valid_fraction r < thr) ->
  insufficient thr r = true.
Proof.
  unfold insufficient. intros [Hn|Hf].
  - rewrite (all_nodata_count r Hn). reflexivity.
  - apply orb_true_iff. right. unfold Qlt_bool.
    destruct (Qle_bool thr (valid_fraction r)) eqn:E; [|reflexivity].
    apply Qle_bool_iff in E. lra.
Qed.

Lemma crs_mismatch_some (rs : list raster) (r1 r2 : raster) :
  In r1 rs -> In r2 rs -> crs r1 <> crs r2 ->
  exists c1 c2, c1 <> c2 /\ crs_mismatch rs = Some (c1, c2).
Proof.
  intros H1 H2 Hne. destruct rs as [|r0 rest]; [contradiction|]. simpl.
  destruct (find (fun r => negb (String.eqb (crs r) (crs r0))) rest) as [r|] eqn:F.
  - apply find_some in F as [_ Hr]. apply negb_true_iff, String.eqb_neq in Hr.
    exists (crs r0), (crs r). split; [intro E; apply Hr; symmetry; exact E|reflexivity].
  - exfalso.
    assert (Hall : forall x, In x (r0 :: rest) -> crs x = crs r0).
    { intros x [<-|Hx]; [reflexivity|].
      pose proof (find_none _ _ F x Hx) as E. apply negb_false_iff, String.eqb_eq in E.
      exact E. }
    apply Hne. rewrite (Hall r1 H1), (Hall r2 H2). reflexivity.
Qed.

(** C6: if some raster of the list is entirely nodata (whatever the
    threshold), or has a fraction of non-nodata pixels below
    [min_valid_fraction], [validate] fails with [InsufficientValidPixels],
    carrying the threshold. *)
Theorem validate_rejects_insufficient (rs : list raster) (min_valid_fraction : Q)
    (require_crs_match : bool) (r : raster) :
  In r rs ->
  (Forall (fun x => x == nodata r) (pixels r) \/ valid_fraction r < min_valid_fraction) ->
  exists i f, validate rs min_valid_fraction require_crs_match
              = Fail (InsufficientValidPixels i f min_valid_fraction).
Proof.
  intros Hin Hr. pose proof (insufficient_of _ _ Hr) as Hins.
  unfold validate.
  destruct (first_insufficient min_valid_fraction 0 rs) as [[i f]|] eqn:E.
  - exists i, f. reflexivity.
  - rewrite (first_insufficient_none _ _ _ E r Hin) in Hins. discriminate.
Qed.

Lemma validate_rejects_insufficient_witness :
  In (Samples.all_nodata "EPSG:32610") (Features.tile_rasters Samples.crs_mixed_nodata_tile) /\
  Forall (fun x => x == nodata (Samples.all_nodata "EPSG:32610"))
         (pixels (Samples.all_nodata "EPSG:32610")) /\
  exists i f, validate (Features.tile_rasters Samples.crs_mixed_nodata_tile) 0 true
              = Fail (InsufficientValidPixels i f 0).
Proof.
  assert (Hin : In (Samples.all_nodata "EPSG:32610")
                   (Features.tile_rasters Samples.crs_mixed_nodata_tile)) by (left; reflexivity).
  assert (Hn : Forall (fun x => x == nodata (Samples.all_nodata "EPSG:32610"))
                      (pixels (Samples.all_nodata "EPSG:32610"))).
  { repeat (apply Forall_cons; [reflexivity|]). apply Forall_nil. }
  split; [exact Hin|]. split; [exact Hn|].
  exact (validate_rejects_insufficient _ 0 true _ Hin (or_introl Hn)).
Defined.

End ValidatorFacts.

(* ------------------------------------------------------------------ *)
Module PipelineFacts.
Import Pipe Validator Pipeline ValidatorFacts.
Local Open Scope Q_scope.

(** Every validation failure ends the tile's run after the validation stage. *)
Lemma pipeline_stops_on_validation_failure resample sched c t e :
  validate (Features.tile_rasters t) (min_valid_fraction c) (require_crs_match c) = Fail e ->
  run_pipeline resample sched c t = ([SValidate], Fail e).
Proof. intros H. unfold run_pipeline. rewrite H. reflexivity. Qed.

(** C7 (counterexample): with [require_crs_match] on, a tile whose rasters
    disagree on the CRS but one of whose rasters is entirely nodata is
    rejected with [InsufficientValidPixels], not [CRSMismatch]: the
    valid-pixel check comes first. The pipeline still stops after
    validation. *)
Lemma crs_mixed_nodata_not_crs_mismatch :
  crs (Features.vv Samples.crs_mixed_nodata_tile) <> crs (Features.red Samples.crs_mixed_nodata_tile) /\
  (forall c1 c2, validate (Features.tile_rasters Samples.crs_mixed_nodata_tile) (1 # 2) true
                 <> Fail (CRSMismatch c1 c2)) /\
  (exists f, validate (Features.tile_rasters Samples.crs_mixed_nodata_tile) (1 # 2) true
             = Fail (InsufficientValidPixels 0 f (1 # 2)) /\ f == 0) /\
  fst (run_pipeline Samples.keep_grid [] Samples.spec_pipeline_config
                    Samples.crs_mixed_nodata_tile) = [SValidate].
Proof.
  split; [intro H; discriminate H|].
  split; [intros c1 c2; vm_compute; discriminate|].
  split; [eexists; split; [vm_compute; reflexivity|reflexivity]|].
  vm_compute. reflexivity.
Qed.

(** C7 (amended): with [require_crs_match] on, take a tile two of whose
    rasters have different CRS identifiers. If all of its rasters pass the
    valid-pixel check, validation fails with [CRSMismatch] naming two
    different identifiers and the run stops there: feature extraction, the
    anomaly engine and the encoder never run on it. If some raster fails the
    valid-pixel check, validation fails with [InsufficientValidPixels]
    instead, and the run stops there too. And for any tile and
    configuration, every validation failure stops the run after the
    validation stage. *)
Theorem crs_mismatch_stops_pipeline (resample : Z -> list (list Q) -> list (list Q))
    (sched : list (list nat)) (c : config) (t : Features.tile) (r1 r2 : raster) :
  require_crs_match c = true ->
  In r1 (Features.tile_rasters t) -> In r2 (Features.tile_rasters t) -> crs r1 <> crs r2 ->
  (forallb (fun r => negb (insufficient (min_valid_fraction c) r)) (Features.tile_rasters t) = true ->
   exists c1 c2, c1 <> c2 /\
     validate (Features.tile_rasters t) (min_valid_fraction c) true = Fail (CRSMismatch c1 c2) /\
     run_pipeline resample sched c t = ([SValidate], Fail (CRSMismatch c1 c2))) /\
  (existsb (insufficient (min_valid_fraction c)) (Features.tile_rasters t) = true ->
   exists i f,
     validate (Features.tile_rasters t) (min_valid_fraction c) true
       = Fail (InsufficientValidPixels i f (min_valid_fraction c)) /\
     run_pipeline resample sched c t
       = ([SValidate], Fail (InsufficientValidPixels i f (min_valid_fraction c)))) /\
  (forall (c' : config) (t' : Features.tile) (e : error),
     validate (Features.tile_rasters t') (min_valid_fraction c') (require_crs_match c') = Fail e ->
     run_pipeline resample sched c' t' = ([SValidate], Fail e)).
Proof.
  intros Hreq H1 H2 Hne. split; [|split].
  - intros Hall.
    destruct (crs_mismatch_some _ _ _ H1 H2 Hne) as [c1 [c2 [Hc Hm]]].
    assert (Hv : validate (Features.tile_rasters t) (min_valid_fraction c) true
                 = Fail (CRSMismatch c1 c2)).
    { unfold validate. rewrite (first_insufficient_all _ 0 _ Hall), Hm. reflexivity. }
    exists c1, c2. split; [exact Hc|]. split; [exact Hv|].
    apply pipeline_stops_on_validation_failure. rewrite Hreq. exact Hv.
  - intros Hex. apply existsb_exists in Hex as [r [Hin Hins]].
    destruct (first_insufficient (min_valid_fraction c) 0 (Features.tile_rasters t))
      as [[i f]|] eqn:E.
    + assert (Hv : validate (Features.tile_rasters t) (min_valid_fraction c) true
                   = Fail (InsufficientValidPixels i f (min_valid_fraction c))).
      { unfold validate. rewrite E. reflexivity. }
      exists i, f. split; [exact Hv|].
      apply pipeline_stops_on_validation_failure. rewrite Hreq. exact Hv.
    + rewrite (first_insufficient_none _ _ _ E r Hin) in Hins. discriminate.
  - intros c' t' e. apply pipeline_stops_on_validation_failure.
Qed.

Lemma crs_mismatch_stops_pipeline_witness :
  exists c1 c2, c1 <> c2 /\
    validate (Features.tile_rasters Samples.crs_mixed_tile)
             (min_valid_fraction Samples.spec_pipeline_config) true = Fail (CRSMismatch c1 c2) /\
    run_pipeline Samples.keep_grid [] Samples.spec_pipeline_config Samples.crs_mixed_tile
      = ([SValidate], Fail (CRSMismatch c1 c2)).
Proof.
  refine (proj1 (crs_mismatch_stops_pipeline Samples.keep_grid [] Samples.spec_pipeline_config
                   Samples.crs_mixed_tile (Features.vv Samples.crs_mixed_tile)
                   (Features.red Samples.crs_mixed_tile) _ _ _ _) _).
  - reflexivity.
  - left. reflexivity.
  - right. right. left. reflexivity.
  - intro H. discriminate H.
  - vm_compute. reflexivity.
Defined.

End PipelineFacts.

(* ------------------------------------------------------------------ *)
Module ConfigFacts.
Import Pipeline Config.

(** C9: when no [target_size] is supplied, the configuration in effect has
    [target_size] 1025, which is in the 2^k+1 set (1025 = 2^10 + 1); a
    supplied value is used as given. *)
Theorem target_size_default_1025 (o : options) :
  o_target_size o = None ->
  target_size (resolve o) = 1025 /\ Encoder.valid_target_size (target_size (resolve o)) = true /\
  1025 = 2 ^ 10 + 1 /\
  (forall n, target_size (resolve {| o_min_valid_fraction := o_min_valid_fraction o;
                                     o_require_crs_match := o_require_crs_match o;
                                     o_contamination := o_contamination o;
                                     o_n_estimators := o_n_estimators o;
                                     o_window_size := o_window_size o;
                                     o_target_size := Some n;
                                     o_vertical_exaggeration := o_vertical_exaggeration o;
                                     o_texture_size := o_texture_size o;
                                     o_random_seed := o_random_seed o |}) = n).
Proof.
  intros H. unfold resolve. cbn [target_size]. rewrite H. cbn [with_default].
  split; [reflexivity|]. split; [reflexivity|]. split; [reflexivity|]. intros n. reflexivity.
Qed.

Lemma target_size_default_1025_witness :
  let o := {| o_min_valid_fraction := None; o_require_crs_match := true;
              o_contamination := None; o_n_estimators := None; o_window_size := None;
              o_target_size := None; o_vertical_exaggeration := None;
              o_texture_size := None; o_random_seed := None |} in
  o_target_size o = None /\
  target_size (resolve o) = 1025 /\ Encoder.valid_target_size (target_size (resolve o)) = true /\
  1025 = 2 ^ 10 + 1 /\
  (forall n, target_size (resolve {| o_min_valid_fraction := o_min_valid_fraction o;
                                     o_require_crs_match := o_require_crs_match o;
                                     o_contamination := o_contamination o;
                                     o_n_estimators := o_n_estimators o;
                                     o_window_size := o_window_size o;
                                     o_target_size := Some n;
                                     o_vertical_exaggeration := o_vertical_exaggeration o;
                                     o_texture_size := o_texture_size o;
                                     o_random_seed := o_random_seed o |}) = n).
Proof. intros o. split; [reflexivity|]. apply target_size_default_1025. reflexivity. Defined.

End ConfigFacts.

Module EngineFacts.
Import Pipe Engine.
Local Open Scope Q_scope.

Lemma run_workers_in sched cfg d pts i t :
  In (i, t) (run_workers sched cfg d pts) -> t = build_tree cfg d pts i.
Proof.
  unfold run_workers. rewrite in_concat. intros [l [Hl Hin]].
  apply in_map_iff in Hl as [chunk [<- _]].
  apply in_map_iff in Hin as [j [E _]]. injection E as E1 E2. subst. reflexivity.
Qed.

Lemma run_workers_covers sched cfg d pts i :
  In i (List.concat sched) -> In (i, build_tree cfg d pts i) (run_workers sched cfg d pts).
Proof.
  rewrite in_concat. intros [chunk [Hc Hi]]. unfold run_workers. rewrite in_concat.
  exists (map (fun i => (i, build_tree cfg d pts i)) chunk). split.
  - apply in_map_iff. exists chunk. split; [reflexivity|exact Hc].
  - apply in_map_iff. exists i. split; [reflexivity|exact Hi].
Qed.

Lemma lookup_tree_built sched cfg d pts i :
  In i (List.concat sched) ->
  lookup_tree i (run_workers sched cfg d pts) = Some (build_tree cfg d pts i).
Proof.
  intros Hi. unfold lookup_tree.
  destruct (find (fun p => Nat.eqb (fst p) i) (run_workers sched cfg d pts)) as [[j t]|] eqn:F.
  - apply find_some in F as [Hin Hj]. simpl in Hj. apply Nat.eqb_eq in Hj. subst j.
    rewrite (run_workers_in _ _ _ _ _ _ Hin). reflexivity.
  - pose proof (find_none _ _ F _ (run_workers_covers sched cfg d pts i Hi)) as E.
    simpl in E. rewrite Nat.eqb_refl in E. discriminate.
Qed.

(** However the tree indices are spread over the workers, the assembled
    ensemble is tree [0], ..., tree [n - 1], each grown from its own sub-seed. *)
Lemma assemble_workers n sched cfg d pts :
  (forall i, (i < n)%nat -> In i (List.concat sched)) ->
  assemble n (run_workers sched cfg d pts) = map (build_tree cfg d pts) (seq 0 n).
Proof.
  intros Hcov. unfold assemble.
  assert (G : forall l, (forall i, In i l -> In i (List.concat sched)) ->
              flat_map (fun i => match lookup_tree i (run_workers sched cfg d pts) with
                                 | Some t => [t] | None => [] end) l
              = map (build_tree cfg d pts) l).
  { induction l as [|i l IH]; intros Hl; [reflexivity|].
    simpl. rewrite (lookup_tree_built _ _ _ _ _ (Hl i (or_introl eq_refl))). simpl.
    f_equal. apply IH. intros k Hk. apply Hl. right. exact Hk. }
  apply G. intros i Hi. apply in_seq in Hi. apply Hcov. lia.
Qed.

(** C5: the anomaly engine is a function of its configuration (seed,
    contamination, ensemble size) and FeatureStack alone: two runs whose
    worker schedules each cover the tree indices [0 .. n_estimators - 1]
    produce the same outcome, hence identical per-pixel scores and
    identical classes. *)
Theorem run_engine_deterministic (sched1 sched2 : list (list nat)) (cfg : config)
    (fs : Features.feature_stack) :
  (forall i, (i < n_estimators cfg)%nat -> In i (List.concat sched1)) ->
  (forall i, (i < n_estimators cfg)%nat -> In i (List.concat sched2)) ->
  run_engine sched1 cfg fs = run_engine sched2 cfg fs.
Proof.
  intros H1 H2. unfold run_engine. cbv zeta.
  destruct (Nat.ltb _ _); [reflexivity|].
  lazymatch goal with
  | |- match ?kept with [] => _ | _ :: _ => _ end = _ => destruct kept as [|k ks]
  end; [reflexivity|].
  rewrite (assemble_workers _ sched1 _ _ _ H1), (assemble_workers _ sched2 _ _ _ H2).
  reflexivity.
Qed.

Lemma run_engine_deterministic_witness :
  run_engine [[0; 1]; [2]]%nat
    {| n_estimators := 3; contamination := 2 # 100; max_features := 1; random_seed := 42 |}
    (Features.extract Samples.crs_mixed_tile)
  = run_engine [[2; 1; 0]]%nat
    {| n_estimators := 3; contamination := 2 # 100; max_features := 1; random_seed := 42 |}
    (Features.extract Samples.crs_mixed_tile).
Proof.
  apply run_engine_deterministic; intros i Hi; simpl in *; lia.
Defined.

End EngineFacts.

(** ** Strings and numerals *)
Module StrExtra.
Import Text.
Local Open Scope string_scope.

Lemma digit_char (n : Z) :
  Z.of_nat (nat_of_ascii (ascii_of_nat (48 + Z.to_nat (n mod 10)))) - 48 = n mod 10.
Proof.
  pose proof (Z.mod_pos_bound n 10 ltac:(lia)).
  rewrite nat_ascii_embedding by lia. lia.
Qed.

Lemma dec_value_digits (fuel : nat) (n : Z) (acc : string) :
  0 <= n < 10 ^ Z.of_nat fuel -> dec_value (Str.digits_of_Z fuel n acc) 0 = dec_value acc n.
Proof.
  revert n acc. induction fuel as [|f IH]; intros n acc Hn.
  - simpl in Hn. assert (n = 0) by lia. subst. reflexivity.
  - cbn [Str.digits_of_Z]. pose proof (Z.mod_pos_bound n 10 ltac:(lia)) as Hm.
    pose proof (Z.div_mod n 10 ltac:(lia)) as Hd.
    destruct (n <? 10)%Z eqn:E.
    + apply Z.ltb_lt in E. cbn [dec_value]. rewrite digit_char. f_equal.
      rewrite Z.mod_small by lia. lia.
    + apply Z.ltb_ge in E. rewrite IH.
      * cbn [dec_value]. rewrite digit_char. f_equal. lia.
      * rewrite Nat2Z.inj_succ, Z.pow_succ_r in Hn by lia.
        split; [apply Z.div_pos; lia|]. apply Z.div_lt_upper_bound; lia.
Qed.

(** [String(n)] for a non-negative integer reads back as [n]. *)
Lemma dec_value_of_Z (z : Z) : 0 <= z -> dec_value (Str.of_Z z) 0 = z.
Proof.
  intros Hz. unfold Str.of_Z.
  replace (z <? 0)%Z with false by (symmetry; apply Z.ltb_ge; lia).
  rewrite Z.abs_eq by lia. rewrite dec_value_digits; [reflexivity|].
  split; [lia|].
  rewrite Nat2Z.inj_succ, Z2Nat.id by apply Z.log2_nonneg.
  destruct (Z.eq_dec z 0) as [->|Hz0]; [reflexivity|].
  apply Z.lt_le_trans with (2 ^ Z.succ (Z.log2 z)).
  - apply Z.log2_spec; lia.
  - apply Z.pow_le_mono_l. lia.
Qed.

Lemma of_Z_inj (a b : Z) : 0 <= a -> 0 <= b -> Str.of_Z a = Str.of_Z b -> a = b.
Proof.
  intros Ha Hb E. rewrite <- (dec_value_of_Z a Ha), <- (dec_value_of_Z b Hb), E. reflexivity.
Qed.

Lemma append_inv_l (p x y : string) : p ++ x = p ++ y -> x = y.
Proof. induction p as [|c p IH]; simpl; [auto|]. intros H. injection H. exact IH. Qed.

Lemma append_assoc (x y z : string) : (x ++ y) ++ z = x ++ (y ++ z).
Proof. induction x as [|c x IH]; simpl; [reflexivity|]. rewrite IH. reflexivity. Qed.

Lemma append_nil_r (x : string) : x ++ "" = x.
Proof. induction x as [|c x IH]; simpl; [reflexivity|]. rewrite IH. reflexivity. Qed.

Lemma concat_empty_cons (x : string) (l : list string) :
  String.concat "" (x :: l) = x ++ String.concat "" l.
Proof. destruct l; simpl; [symmetry; apply append_nil_r|reflexivity]. Qed.

Lemma count_append (c : ascii) (x y : string) :
  count_char c (x ++ y) = (count_char c x + count_char c y)%nat.
Proof. induction x as [|c' x IH]; simpl; [reflexivity|]. rewrite IH. lia. Qed.

Lemma count_digits (fuel : nat) (n : Z) (acc : string) :
  count_char dq_char (Str.digits_of_Z fuel n acc) = count_char dq_char acc.
Proof.
  revert n acc. induction fuel as [|f IH]; intros n acc; [reflexivity|].
  cbn [Str.digits_of_Z]. pose proof (Z.mod_pos_bound n 10 ltac:(lia)) as Hm.
  assert (Hne : Ascii.eqb dq_char (ascii_of_nat (48 + Z.to_nat (n mod 10))) = false).
  { apply Ascii.eqb_neq. intros E. apply (f_equal nat_of_ascii) in E.
    unfold dq_char in E. rewrite !nat_ascii_embedding in E by lia. lia. }
  destruct (n <? 10)%Z; cbn [count_char]; [rewrite Hne; reflexivity|].
  rewrite IH. cbn [count_char]. rewrite Hne. reflexivity.
Qed.

Lemma count_of_Z (z : Z) : count_char dq_char (Str.of_Z z) = O.
Proof.
  unfold Str.of_Z. destruct (z <? 0)%Z.
  - change ("-" ++ Str.digits_of_Z (S (Z.to_nat (Z.log2 (Z.abs z)))) (Z.abs z) "")
      with (String "-" (Str.digits_of_Z (S (Z.to_nat (Z.log2 (Z.abs z)))) (Z.abs z) "")).
    cbn [count_char]. rewrite count_digits. reflexivity.
  - rewrite count_digits. reflexivity.
Qed.

Lemma strip_prefix_some (w s r : list ascii) :
  Str.strip_prefix w s = Some r -> s = (w ++ r)%list.
Proof.
  revert s. induction w as [|c w IH]; intros [|d s] H; simpl in H; try discriminate.
  - injection H as <-. reflexivity.
  - injection H as <-. reflexivity.
  - destruct (Ascii.eqb c d) eqn:E; [|discriminate].
    apply Ascii.eqb_eq in E. subst. rewrite (IH s H). reflexivity.
Qed.

Lemma strip_prefix_app (w r : list ascii) : Str.strip_prefix w (w ++ r) = Some r.
Proof. induction w as [|c w IH]; simpl; [reflexivity|]. rewrite Ascii.eqb_refl. exact IH. Qed.

Lemma ws_prefix_some (ws : list (list ascii)) (s r : list ascii) :
  Str.ws_prefix ws s = Some r -> exists w, In w ws /\ s = (w ++ r)%list.
Proof.
  induction ws as [|w ws IH]; simpl; [discriminate|].
  destruct (Str.strip_prefix w s) as [r'|] eqn:E.
  - intros H. injection H as <-. exists w. split; [left; reflexivity|].
    apply strip_prefix_some. exact E.
  - intros H. destruct (IH H) as [w' [Hw Hs]]. exists w'. split; [right; exact Hw|exact Hs].
Qed.

Lemma ws_prefix_none (ws : list (list ascii)) (s : list ascii) :
  Str.ws_prefix ws s = None -> forall w r, In w ws -> s <> (w ++ r)%list.
Proof.
  induction ws as [|w0 ws IH]; intros H w r Hw Hs; [contradiction|].
  simpl in H. destruct (Str.strip_prefix w0 s) eqn:E; [discriminate|].
  destruct Hw as [<-|Hw].
  - rewrite Hs, strip_prefix_app in E. discriminate.
  - exact (IH H w r Hw Hs).
Qed.

Lemma ws_prefix_nil (ws : list (list ascii)) :
  Forall (fun w => w <> []) ws -> Str.ws_prefix ws [] = None.
Proof.
  induction ws as [|w ws IH]; intros H; [reflexivity|].
  inversion H as [|? ? Hw Hws]; subst. simpl.
  destruct w as [|c w]; [contradiction|]. apply IH. exact Hws.
Qed.

(** [strip_start] removes a run of code points of [ws] and stops before one
    that is not. *)
Lemma strip_start_spec (ws : list (list ascii)) (fuel : nat) (s : list ascii) :
  Forall (fun w => w <> []) ws -> (List.length s <= fuel)%nat ->
  exists parts, Forall (fun w => In w ws) parts /\
    s = (List.concat parts ++ Str.strip_start ws fuel s)%list /\
    Str.ws_prefix ws (Str.strip_start ws fuel s) = None.
Proof.
  intros Hne. revert s. induction fuel as [|f IH]; intros s Hl.
  - destruct s; [|simpl in Hl; lia].
    exists []. split; [constructor|]. split; [reflexivity|]. apply ws_prefix_nil. exact Hne.
  - simpl. destruct (Str.ws_prefix ws s) as [r|] eqn:E.
    + destruct (ws_prefix_some _ _ _ E) as [w [Hw ->]].
      assert (Hw0 : w <> []) by (rewrite Forall_forall in Hne; exact (Hne w Hw)).
      destruct (IH r) as [parts [H1 [H2 H3]]].
      { rewrite length_app in Hl. destruct w; [contradiction|]. simpl in Hl. lia. }
      exists (w :: parts). split; [constructor; assumption|]. split; [|exact H3].
      simpl. rewrite <- app_assoc, <- H2. reflexivity.
    + exists []. split; [constructor|]. split; [reflexivity|exact E].
Qed.

Lemma js_ws_nonempty : Forall (fun w => w <> []) Str.js_ws.
Proof.
  apply Forall_forall. intros w Hw. unfold Str.js_ws in Hw.
  apply in_map_iff in Hw as [x [<- Hx]].
  destruct x as [|n x]; [|discriminate].
  simpl in Hx. repeat (destruct Hx as [Hx|Hx]; [discriminate Hx|]). contradiction.
Qed.

Lemma rev_js_ws_nonempty : Forall (fun w => w <> []) (map (@rev ascii) Str.js_ws).
Proof.
  apply Forall_map. eapply Forall_impl; [|exact js_ws_nonempty].
  intros w Hw Hr. apply Hw. rewrite <- (rev_involutive w), Hr. reflexivity.
Qed.

Lemma rev_concat_rev (parts : list (list ascii)) :
  rev (List.concat parts) = List.concat (rev (map (@rev ascii) parts)).
Proof.
  induction parts as [|p ps IH]; [reflexivity|].
  simpl. rewrite rev_app_distr, IH, List.concat_app. simpl. rewrite app_nil_r. reflexivity.
Qed.

(** [s.trim()]: [s] is a run of white space, the trimmed text, and another
    run of white space, and the trimmed text neither starts nor ends with a
    white space code point. *)
Lemma trim_decomp (s : string) :
  exists lead trail,
    list_ascii_of_string s
      = (List.concat lead ++ list_ascii_of_string (Str.trim s) ++ List.concat trail)%list /\
    Forall (fun w => In w Str.js_ws) lead /\ Forall (fun w => In w Str.js_ws) trail /\
    (forall w r, In w Str.js_ws -> list_ascii_of_string (Str.trim s) <> (w ++ r)%list) /\
    (forall w r, In w Str.js_ws -> list_ascii_of_string (Str.trim s) <> (r ++ w)%list).
Proof.
  unfold Str.trim. rewrite list_ascii_of_string_of_list_ascii.
  set (l := list_ascii_of_string s).
  destruct (strip_start_spec Str.js_ws (List.length l) l js_ws_nonempty (le_n _))
    as [p1 [F1 [H1 N1]]].
  set (l1 := Str.strip_start Str.js_ws (List.length l) l) in *.
  destruct (strip_start_spec (map (@rev ascii) Str.js_ws) (List.length l1) (rev l1)
              rev_js_ws_nonempty (eq_ind_r (fun n => (n <= _)%nat) (le_n _) (length_rev l1)))
    as [p2 [F2 [H2 N2]]].
  set (l2 := Str.strip_start (map (@rev ascii) Str.js_ws) (List.length l1) (rev l1)) in *.
  assert (Hl1 : l1 = (rev l2 ++ List.concat (rev (map (@rev ascii) p2)))%list).
  { rewrite <- rev_concat_rev, <- rev_app_distr, <- H2, rev_involutive. reflexivity. }
  exists p1, (rev (map (@rev ascii) p2)).
  split; [rewrite H1 at 1; rewrite Hl1; reflexivity|].
  split; [exact F1|]. split; [|split].
  - apply Forall_rev, Forall_map. eapply Forall_impl; [|exact F2].
    intros w Hw. apply in_map_iff in Hw as [x [<- Hx]]. rewrite rev_involutive. exact Hx.
  - intros w r Hw Hs. apply (ws_prefix_none _ _ N1 w (r ++ List.concat (rev (map (@rev ascii) p2)))%list Hw).
    rewrite Hl1, Hs, <- app_assoc. reflexivity.
  - intros w r Hw Hs. apply (ws_prefix_none _ _ N2 (rev w) (rev r) (in_map _ _ _ Hw)).
    rewrite <- (rev_involutive l2), Hs, rev_app_distr. reflexivity.
Qed.

End StrExtra.

(** ** More of the processing route *)
Module RouteExtra.
Import Route Text.
Local Open Scope string_scope.

Lemma get_prop_app_last (fs : list (string * json)) (k k' : string) (v : json) :
  get_prop (JObj (fs ++ [(k, v)])) k'
  = if String.eqb k k' then Some v else get_prop (JObj fs) k'.
Proof.
  unfold get_prop. rewrite fold_left_app. simpl. destruct (String.eqb k k'); reflexivity.
Qed.

Lemma build_cmd_demo_true r a b c o d n :
  truthy d = true -> build_cmd r a b c o d n = build_cmd r a b c o (Some (JBool true)) n.
Proof. intros H. unfold build_cmd, cmd_text. rewrite H. reflexivity. Qed.

Lemma build_cmd_demo_false r a b c o d n :
  truthy d = false -> build_cmd r a b c o d n = build_cmd r a b c o (Some (JBool false)) n.
Proof. intros H. unfold build_cmd, cmd_text. rewrite H. reflexivity. Qed.

Ltac reduce_other_keys :=
  rewrite !get_prop_app_last;
  change (String.eqb "demoMode" "s1Path") with false;
  change (String.eqb "demoMode" "s2Path") with false;
  change (String.eqb "demoMode" "demPath") with false;
  change (String.eqb "demoMode" "outputDir") with false;
  change (String.eqb "demoMode" "demoMode") with true;
  cbv iota.

(** Only a falsy [demoMode] turns demo mode off: a body without [demoMode],
    or with any truthy value (the string "false" included), is handled
    exactly as the same body with [demoMode: true]; a body with a falsy
    [demoMode] ([false], [0], [""], [null]) exactly as with
    [demoMode: false]. *)
Theorem post_demo_mode (E : env) (fs : list (string * json)) :
  (truthy (get_prop (JObj fs) "demoMode") = true \/ get_prop (JObj fs) "demoMode" = None ->
   POST E (Some (JObj fs)) = POST E (Some (JObj (fs ++ [("demoMode", JBool true)])))) /\
  (truthy (get_prop (JObj fs) "demoMode") = false -> get_prop (JObj fs) "demoMode" <> None ->
   POST E (Some (JObj fs)) = POST E (Some (JObj (fs ++ [("demoMode", JBool false)])))).
Proof.
  split.
  - intros H. unfold POST. cbv beta iota zeta. reduce_other_keys.
    destruct (_ || _); [reflexivity|].
    rewrite (build_cmd_demo_true _ _ _ _ _
               (match get_prop (JObj fs) "demoMode" with None => Some (JBool true) | v => v end));
      [reflexivity|].
    destruct H as [H|H]; [|rewrite H; reflexivity].
    destruct (get_prop (JObj fs) "demoMode"); [exact H|discriminate].
  - intros H Hn. unfold POST. cbv beta iota zeta. reduce_other_keys.
    destruct (_ || _); [reflexivity|].
    rewrite (build_cmd_demo_false _ _ _ _ _
               (match get_prop (JObj fs) "demoMode" with None => Some (JBool true) | v => v end));
      [reflexivity|].
    destruct (get_prop (JObj fs) "demoMode"); [exact H|congruence].
Qed.

End RouteExtra.

Module RouteExtra2.
Import Route Text StrExtra.
Local Open Scope string_scope.

Lemma build_cmd_renders r a b c o d n :
  js_string a <> None -> js_string b <> None -> js_string c <> None -> js_string o <> None ->
  exists a' b' c' o', build_cmd r a b c o d n = Some (cmd_text r a' b' c' o' d n).
Proof.
  unfold build_cmd. intros Ha Hb Hc Ho.
  destruct (js_string a) as [a'|]; [|contradiction].
  destruct (js_string b) as [b'|]; [|contradiction].
  destruct (js_string c) as [c'|]; [|contradiction].
  destruct (js_string o) as [o'|]; [|contradiction].
  exists a', b', c', o'. reflexivity.
Qed.

Lemma build_cmd_throws r a b c o d n :
  js_string a = None \/ js_string b = None \/ js_string c = None \/ js_string o = None ->
  build_cmd r a b c o d n = None.
Proof.
  unfold build_cmd. intros [H|[H|[H|H]]]; rewrite H;
    repeat match goal with |- context [match js_string ?x with _ => _ end] =>
                             destruct (js_string x) end; reflexivity.
Qed.

Ltac post_pass b Hnn H1 H2 H3 H4 :=
  unfold POST;
  destruct b; [exfalso; apply Hnn; reflexivity| ..];
  cbv beta iota zeta; rewrite H1, H2, H3, H4; cbn [negb orb].

Ltac post_render J1 J2 J3 J4 :=
  match goal with |- context [build_cmd ?r ?a ?b ?c ?o ?d ?n] =>
    let a' := fresh "a" in let b' := fresh "b" in let c' := fresh "c" in
    let o' := fresh "o" in let Hb := fresh "Hb" in
    destruct (build_cmd_renders r a b c o d n J1 J2 J3 J4) as (a' & b' & c' & o' & Hb);
    rewrite Hb
  end.

(** [stdout.trim()]: on success the reported [stdout] is the command's
    standard output less its leading and trailing white space and line
    terminators (JavaScript's set: tab, LF, VT, FF, CR, space, U+00A0,
    U+1680, U+2000 to U+200A, U+2028, U+2029, U+202F, U+205F, U+3000,
    U+FEFF), and it neither starts nor ends with one of them. *)
Theorem post_stdout_trimmed (E : env) (b : json) (so se : string) :
  (forall c, run E c = ExecOk so se) ->
  status (snd (POST E (Some b))) = 200 ->
  exists o t,
    get_prop (payload (snd (POST E (Some b)))) "output" = Some o /\
    get_prop o "stdout" = Some (JStr t) /\
    exists lead trail,
      list_ascii_of_string so = (List.concat lead ++ list_ascii_of_string t ++ List.concat trail)%list /\
      Forall (fun w => In w Str.js_ws) lead /\ Forall (fun w => In w Str.js_ws) trail /\
      (forall w r, In w Str.js_ws -> list_ascii_of_string t <> (w ++ r)%list) /\
      (forall w r, In w Str.js_ws -> list_ascii_of_string t <> (r ++ w)%list).
Proof.
  intros Hrun. unfold POST.
  destruct b; [cbn; intros H; discriminate H| ..]; cbv beta iota zeta;
  (destruct (_ || _); [cbn; intros H; discriminate H|]);
  (destruct (build_cmd _ _ _ _ _ _ _); [|cbn; intros H; discriminate H]);
  rewrite Hrun; (destruct (_ && _); [cbn; intros H; discriminate H|]);
  intros _; do 2 eexists; (split; [reflexivity|]); (split; [reflexivity|]);
  apply trim_decomp.
Qed.

(** When the command resolves, the handler answers 200 exactly when its
    standard error is empty or contains "WARNING" somewhere (an error
    message next to a warning is not reported); any other standard error
    gives 500 "Processing failed" carrying that text. This holds for a body
    that passes the check and whose four parameters render as text. *)
Theorem post_stderr_status (E : env) (b : json) (so se : string) :
  b <> JNull ->
  truthy (get_prop b "s1Path") = true -> truthy (get_prop b "s2Path") = true ->
  truthy (get_prop b "demPath") = true -> truthy (get_prop b "outputDir") = true ->
  js_string (get_prop b "s1Path") <> None -> js_string (get_prop b "s2Path") <> None ->
  js_string (get_prop b "demPath") <> None -> js_string (get_prop b "outputDir") <> None ->
  (forall c, run E c = ExecOk so se) ->
  (status (snd (POST E (Some b))) = 200 <-> se = "" \/ Str.includes se "WARNING" = true) /\
  (status (snd (POST E (Some b))) <> 200 ->
   snd (POST E (Some b)) = respond 500 (JObj [("error", JStr "Processing failed");
                                              ("details", JStr se)])).
Proof.
  intros Hnn H1 H2 H3 H4 J1 J2 J3 J4 Hrun.
  post_pass b Hnn H1 H2 H3 H4; post_render J1 J2 J3 J4; rewrite Hrun; cbn [truthy];
  destruct (String.eqb se "") eqn:Ee; destruct (Str.includes se "WARNING") eqn:Ew;
  cbn [negb andb snd status];
  (split;
   [split;
    [intros Hs; first [discriminate Hs | left; apply String.eqb_eq; exact Ee | right; reflexivity]
    |intros [Hs|Hs]; first [reflexivity | apply String.eqb_neq in Ee; contradiction | discriminate]]
   |intros Hs; first [reflexivity | exfalso; apply Hs; reflexivity]]).
Qed.

(** A body that passes the check but one of whose four parameters is an
    object with its own [toString] key (or an array holding one) makes the
    template literal throw: no command is run and the handler answers 500
    "Failed to process satellite data". *)
Theorem post_unrenderable_param (E : env) (b : json) :
  b <> JNull ->
  truthy (get_prop b "s1Path") = true -> truthy (get_prop b "s2Path") = true ->
  truthy (get_prop b "demPath") = true -> truthy (get_prop b "outputDir") = true ->
  js_string (get_prop b "s1Path") = None \/ js_string (get_prop b "s2Path") = None \/
  js_string (get_prop b "demPath") = None \/ js_string (get_prop b "outputDir") = None ->
  fst (POST E (Some b)) = [] /\
  snd (POST E (Some b))
  = respond 500 (JObj [("error", JStr "Failed to process satellite data");
                       ("details", JStr "Cannot convert object to primitive value")]).
Proof.
  intros Hnn H1 H2 H3 H4 J.
  post_pass b Hnn H1 H2 H3 H4;
  match goal with |- context [build_cmd ?r ?a ?b ?c ?o ?d ?n] =>
    rewrite (build_cmd_throws r a b c o d n J)
  end; split; reflexivity.
Qed.

Lemma concat_app (l1 l2 : list string) :
  String.concat "" (l1 ++ l2) = String.concat "" l1 ++ String.concat "" l2.
Proof.
  induction l1 as [|x l1 IH]; [reflexivity|].
  rewrite <- app_comm_cons, !concat_empty_cons, IH, append_assoc. reflexivity.
Qed.

Lemma cmd_text_suffix r a b c o d n :
  exists pre, cmd_text r a b c o d n
              = pre ++ "--tile-id " ++ Str.dq ++ "web_job_" ++ Str.of_Z n ++ Str.dq.
Proof.
  unfold cmd_text. cbv beta zeta.
  match goal with |- context [String.concat "" ?L] => rewrite <- (firstn_skipn 23 L) end.
  rewrite concat_app. eexists. cbn [skipn]. rewrite concat_empty_cons. cbn [String.concat].
  rewrite append_assoc. reflexivity.
Qed.

Lemma stderr_ok (se : string) :
  se = "" \/ Str.includes se "WARNING" = true ->
  negb (String.eqb se "") && negb (Str.includes se "WARNING") = false.
Proof. intros [->|H]; [reflexivity|]. rewrite H. apply andb_false_r. Qed.

(** The job id of a successful response comes from a second reading of the
    clock, not from the one that named the run: the command's [--tile-id]
    is "web_job_" followed by the first reading, the response's [jobId] is
    "web_job_" followed by the second, and the two agree only when the
    readings are equal. This holds for a body that passes the check and
    whose four parameters render as text. *)
Theorem post_job_id_vs_tile_id (E : env) (b : json) (so se : string) :
  b <> JNull ->
  truthy (get_prop b "s1Path") = true -> truthy (get_prop b "s2Path") = true ->
  truthy (get_prop b "demPath") = true -> truthy (get_prop b "outputDir") = true ->
  js_string (get_prop b "s1Path") <> None -> js_string (get_prop b "s2Path") <> None ->
  js_string (get_prop b "demPath") <> None -> js_string (get_prop b "outputDir") <> None ->
  (forall c, run E c = ExecOk so se) -> se = "" \/ Str.includes se "WARNING" = true ->
  0 <= now_cmd E -> 0 <= now_job E ->
  (exists cmd pre, fst (POST E (Some b)) = [cmd] /\
     cmd = pre ++ "--tile-id " ++ Str.dq ++ "web_job_" ++ Str.of_Z (now_cmd E) ++ Str.dq) /\
  get_prop (payload (snd (POST E (Some b)))) "jobId"
    = Some (JStr ("web_job_" ++ Str.of_Z (now_job E))) /\
  ("web_job_" ++ Str.of_Z (now_cmd E) = "web_job_" ++ Str.of_Z (now_job E)
   <-> now_cmd E = now_job E).
Proof.
  intros Hnn H1 H2 H3 H4 J1 J2 J3 J4 Hrun Hse Hc Hj.
  assert (Hiff : "web_job_" ++ Str.of_Z (now_cmd E) = "web_job_" ++ Str.of_Z (now_job E)
                 <-> now_cmd E = now_job E).
  { split; [intros H; apply append_inv_l in H; apply of_Z_inj; assumption|
            intros H; rewrite H; reflexivity]. }
  post_pass b Hnn H1 H2 H3 H4; post_render J1 J2 J3 J4; rewrite Hrun; cbn [truthy];
  rewrite (stderr_ok se Hse); cbv iota;
  (split; [|split; [reflexivity|exact Hiff]]);
  match goal with |- context [cmd_text ?r ?a ?b ?c ?o ?d ?n] =>
    destruct (cmd_text_suffix r a b c o d n) as [pre Hpre];
    exists (cmd_text r a b c o d n), pre; split; [reflexivity|exact Hpre]
  end.
Qed.

Lemma count_cmd_text r a b c o d n :
  count_char dq_char (cmd_text r a b c o d n)
  = (12 + count_char dq_char r + count_char dq_char a + count_char dq_char b
     + count_char dq_char c + count_char dq_char o)%nat.
Proof.
  unfold cmd_text. cbv beta zeta. rewrite !concat_empty_cons. cbn [String.concat].
  rewrite !count_append, !count_of_Z.
  generalize (count_char dq_char r) (count_char dq_char a) (count_char dq_char b)
    (count_char dq_char c) (count_char dq_char o).
  destruct (truthy d); intros; simpl; lia.
Qed.

(** The request's values are put between double quotes without escaping:
    for a body that passes the check and whose four parameters render as
    [s1], [s2], [dem] and [out], the one command run holds exactly 12
    double quotes plus those of the project root and of the four rendered
    parameters, so a parameter with an odd number of double quotes leaves
    the quoting of the shell line unbalanced. *)
Theorem post_cmd_quote_count (E : env) (b : json) (s1 s2 dem out : string) :
  b <> JNull ->
  truthy (get_prop b "s1Path") = true -> truthy (get_prop b "s2Path") = true ->
  truthy (get_prop b "demPath") = true -> truthy (get_prop b "outputDir") = true ->
  js_string (get_prop b "s1Path") = Some s1 -> js_string (get_prop b "s2Path") = Some s2 ->
  js_string (get_prop b "demPath") = Some dem -> js_string (get_prop b "outputDir") = Some out ->
  exists cmd, fst (POST E (Some b)) = [cmd] /\
    count_char dq_char cmd
    = (12 + count_char dq_char (project_root E) + count_char dq_char s1
       + count_char dq_char s2 + count_char dq_char dem + count_char dq_char out)%nat.
Proof.
  intros Hnn H1 H2 H3 H4 J1 J2 J3 J4.
  post_pass b Hnn H1 H2 H3 H4; unfold build_cmd; rewrite J1, J2, J3, J4;
  match goal with |- context [cmd_text ?r ?a ?b ?c ?o ?d ?n] =>
    destruct (run E (cmd_text r a b c o d n)) as [so se|ec em];
    [destruct (_ && _)|];
    exists (cmd_text r a b c o d n); (split; [reflexivity|apply count_cmd_text])
  end.
Qed.

End RouteExtra2.

(** ** The dashboard *)
Module DashboardFacts.
Import Route Dashboard Text StrExtra.
Local Open Scope string_scope.

Lemma job_result_success (f : fetch_outcome) :
  fst (job_result f) = TSuccess <->
  exists st data, f = FetchResponse st (Some data) /\ data <> JNull /\ res_ok st = true /\
                  js_string (get_prop data "message") <> None.
Proof.
  split.
  - destruct f as [|st [d|]]; unfold job_result; cbv beta iota; [discriminate| |discriminate].
    intros H. exists st, d. destruct d; cbv beta iota in H; [discriminate| ..];
    (destruct (res_ok st) eqn:Eo; [|destruct (js_string (get_prop _ "error")); discriminate]);
    (destruct (js_string (get_prop _ "message")) eqn:Em; [|discriminate]);
    repeat split; congruence.
  - intros (st & data & -> & Hn & Ho & Hs). unfold job_result.
    destruct data; [contradiction| ..]; cbv beta iota; rewrite Ho;
    (destruct (js_string (get_prop _ "message")); [reflexivity|contradiction]).
Qed.

Lemma job_result_msg (f : fetch_outcome) : snd (job_result f) <> "".
Proof.
  destruct f as [|st [d|]]; unfold job_result; cbv beta iota; cbn [snd]; try discriminate.
  destruct d; cbv beta iota; cbn [snd]; try discriminate;
    destruct (res_ok st); cbv iota;
    (match goal with |- context [match js_string ?x with _ => _ end] =>
       destruct (js_string x) end);
    cbn [snd]; discriminate.
Qed.

(** While a job is being started the button stays disabled, and after it it
    is enabled again with a non-empty status message shown, in red exactly
    when the outcome was not a 2xx response with a non-null JSON body whose
    [message] renders as text. *)
Theorem startJob_states (s0 : jc_state) (f : fetch_outcome) :
  exists s1 s2 s3 s4, startJob s0 f = [s1; s2; s3; s4] /\
    button_disabled s1 = true /\ button_disabled s2 = true /\
    button_disabled s3 = true /\ button_disabled s4 = false /\
    alert_shown s2 = true /\ alert_shown s4 = true /\
    (alert_red s4 = false <->
     exists st data, f = FetchResponse st (Some data) /\ data <> JNull /\ res_ok st = true /\
                     js_string (get_prop data "message") <> None).
Proof.
  unfold startJob.
  pose proof (job_result_success f) as Hs. pose proof (job_result_msg f) as Hm.
  destruct (job_result f) as [t m]. cbn [fst snd] in Hs, Hm.
  do 4 eexists. split; [reflexivity|].
  do 4 (split; [reflexivity|]). split; [reflexivity|].
  split.
  - unfold alert_shown; cbn [msg truthy]. destruct (String.eqb m "") eqn:E; [|reflexivity].
    apply String.eqb_eq in E. contradiction.
  - unfold alert_red; cbn [st_type]. rewrite <- Hs.
    destruct t; split; intros H; first [reflexivity | discriminate H].
Qed.

(** The dashboard's button posts no body. Against the processing handler of
    lines 8-83 reading that body fails, so no command is run and the
    dashboard always ends on "Error: Failed to process satellite data". *)
Theorem dashboard_vs_process_route (E : env) (s0 : jc_state) :
  fst (POST E None) = [] /\
  status (snd (POST E None)) = 500 /\
  last (startJob s0 (fetch_of (snd (POST E None)))) s0
  = {| loading := false; st_type := Some TError;
       msg := "Error: Failed to process satellite data" |}.
Proof. repeat split. Qed.

(** Against the queueing handler of lines 91-124 the dashboard always ends
    on "Job started: Processing job queued successfully", though no command
    is run; the job id it is sent reads back, in decimal, as the clock
    value. *)
Theorem dashboard_vs_queue_route (now : Z) (s0 : jc_state) :
  0 <= now ->
  fst (POST_queue now) = [] /\
  (exists s, get_prop (payload (snd (POST_queue now))) "jobId" = Some (JStr s) /\
             dec_value s 0 = now) /\
  last (startJob s0 (fetch_of (snd (POST_queue now)))) s0
  = {| loading := false; st_type := Some TSuccess;
       msg := "Job started: Processing job queued successfully" |}.
Proof.
  intros Hn. split; [reflexivity|]. split; [|reflexivity].
  exists (Str.of_Z now). split; [reflexivity|]. apply dec_value_of_Z; exact Hn.
Qed.

End DashboardFacts.

(** ** run_pipeline.sh *)
Module RunPipelineFacts.
Import RunPipeline Traces.
Local Open Scope string_scope.

Section Hoare.
Variable W : world.


Lemma safe_ret {A} (a : A) : safe (ret a).
Proof. intros h. exists a, []. reflexivity. Qed.

Lemma safe_bind {A B} (m : M A) (k : A -> M B) :
  safe m -> (forall a, safe (k a)) -> safe (bind m k).
Proof.
  intros Hm Hk h. destruct (Hm h) as (a & e1 & E1). destruct (Hk a (e1 ++ h)%list) as (b & e2 & E2).
  exists b, (e2 ++ e1)%list. unfold bind. rewrite E1, E2, app_assoc. reflexivity.
Qed.

Lemma safe_emit e : safe (emit e).
Proof. intros h. exists tt, [e]. reflexivity. Qed.
Lemma safe_ext argv : safe (ext W argv).
Proof. intros h. eexists _, [_]. reflexivity. Qed.
Lemma safe_test_f p : safe (test_f W p).
Proof. intros h. eexists _, []. reflexivity. Qed.
Lemma safe_test_d p : safe (test_d W p).
Proof. intros h. eexists _, []. reflexivity. Qed.
Lemma safe_glob p : safe (glob W p).
Proof. intros h. eexists _, []. reflexivity. Qed.

Lemma safe_checked_ext argv :
  (forall h, w_status W h argv = 0) -> safe (checked (ext W argv)).
Proof. intros H h. exists tt, [Ran argv]. unfold checked, bind, ext. rewrite H. reflexivity. Qed.

Lemma safe_ext_out_ok {A} argv (k : Z * string -> M A) :
  (forall h, w_status W h argv = 0) -> (forall o, safe (k (0, o))) ->
  safe (bind (ext_out W argv) k).
Proof.
  intros H Hk h. unfold bind, ext_out. rewrite H.
  destruct (Hk (w_output W h argv) (Ran argv :: h)) as (a & e & E).
  exists a, (e ++ [Ran argv])%list. rewrite E, <- app_assoc. reflexivity.
Qed.

Lemma safe_tee_pipe lf argv :
  (forall h, w_status W h ["tee"; "-a"; lf] = 0) -> safe (tee_pipe W lf argv).
Proof.
  intros H h. exists tt, [Ran ["tee"; "-a"; lf]; Ran argv].
  unfold tee_pipe, checked, bind, ext. rewrite H. reflexivity.
Qed.

Lemma safe_log lf msg :
  (forall h, w_status W h ["tee"; "-a"; lf] = 0) -> safe (log W lf msg).
Proof.
  intros H h. eexists tt, [_; _; _].
  unfold log, checked, bind, ext, ext_out, emit. rewrite H. reflexivity.
Qed.

Lemma safe_source_env :
  (forall h, fst (w_source W h) = 0) -> safe (source_env W).
Proof.
  intros H h. unfold source_env. specialize (H h).
  destruct (w_source W h) as [st c]. cbn [fst] in H. subst st.
  exists c, [Sourced ".env"]. reflexivity.
Qed.

Lemma safe_for_first_dir ds body :
  (forall d, safe (body d)) -> safe (for_first_dir W ds body).
Proof.
  intros Hb. induction ds as [|d r IH]; cbn [for_first_dir].
  - apply safe_ret.
  - apply safe_bind; [apply safe_test_d|]. intros [|]; [apply Hb|apply IH].
Qed.

Lemma safe_echo_all l : safe (echo_all l).
Proof.
  induction l as [|s r IH]; cbn [echo_all]; [apply safe_ret|].
  apply safe_bind; [apply safe_emit|intros _; exact IH].
Qed.

Lemma safe_test_f_true {A} p (k : bool -> M A) :
  (forall h, w_file W h p = true) -> safe (k true) -> safe (bind (test_f W p) k).
Proof. intros H Hk h. unfold bind, test_f. rewrite H. apply Hk. Qed.

Lemma safe_has_gpt_true {A} (k : bool -> M A) :
  (forall h, w_has_gpt W h = true) -> safe (k true) -> safe (bind (has_gpt W) k).
Proof. intros H Hk h. unfold bind, has_gpt. rewrite H. apply Hk. Qed.

Lemma safe_in_bind_l {A B} R (m : M A) (k : A -> M B) :
  safe_in R m -> (forall a, safe (k a)) -> safe_in R (bind m k).
Proof.
  intros Hm Hk h. destruct (Hm h) as (a & e1 & E1 & X1).
  destruct (Hk a (e1 ++ h)%list) as (b & e2 & E2).
  exists b, (e2 ++ e1)%list. unfold bind. rewrite E1, E2, app_assoc.
  split; [reflexivity|]. apply Exists_app. right. exact X1.
Qed.

Lemma safe_in_bind_r {A B} R (m : M A) (k : A -> M B) :
  safe m -> (forall a, safe_in R (k a)) -> safe_in R (bind m k).
Proof.
  intros Hm Hk h. destruct (Hm h) as (a & e1 & E1).
  destruct (Hk a (e1 ++ h)%list) as (b & e2 & E2 & X2).
  exists b, (e2 ++ e1)%list. unfold bind. rewrite E1, E2, app_assoc.
  split; [reflexivity|]. apply Exists_app. left. exact X2.
Qed.

Lemma safe_in_tee_pipe lf argv :
  (forall h, w_status W h ["tee"; "-a"; lf] = 0) -> safe_in (eq (Ran argv)) (tee_pipe W lf argv).
Proof.
  intros H h. exists tt, [Ran ["tee"; "-a"; lf]; Ran argv].
  unfold tee_pipe, checked, bind, ext. rewrite H.
  split; [reflexivity|]. right. left. reflexivity.
Qed.

Lemma safe_in_log lf msg :
  (forall h, w_status W h ["tee"; "-a"; lf] = 0) ->
  safe_in (fun e => exists d, e = LogLine (d ++ " - " ++ msg)) (log W lf msg).
Proof.
  intros H h. eexists tt, [_; _; _].
  unfold log, checked, bind, ext, ext_out, emit. rewrite H.
  split; [reflexivity|]. right. left. eexists. reflexivity.
Qed.

Lemma safe_in_test_f_true {A} R p (k : bool -> M A) :
  (forall h, w_file W h p = true) -> safe_in R (k true) -> safe_in R (bind (test_f W p) k).
Proof. intros H Hk h. unfold bind, test_f. rewrite H. apply Hk. Qed.

Lemma safe_in_ext_out_ok {A} R argv (k : Z * string -> M A) :
  (forall h, w_status W h argv = 0) -> (forall o, safe_in R (k (0, o))) ->
  safe_in R (bind (ext_out W argv) k).
Proof.
  intros H Hk h. unfold bind, ext_out. rewrite H.
  destruct (Hk (w_output W h argv) (Ran argv :: h)) as (a & e & E & X).
  exists a, (e ++ [Ran argv])%list. rewrite E, <- app_assoc.
  split; [reflexivity|]. apply Exists_app. left. exact X.
Qed.

Section NZ.
Variable P : event -> Prop.

Ltac nz_fin :=
  split; [reflexivity|split; [repeat constructor; assumption|intros ? Hc; discriminate Hc]].

Lemma nz_ret {A} (a : A) : nz P (ret a).
Proof. intros h. exists (Done a), []. nz_fin. Qed.

Lemma nz_bind {A B} (m : M A) (k : A -> M B) :
  nz P m -> (forall a, nz P (k a)) -> nz P (bind m k).
Proof.
  intros Hm Hk h. destruct (Hm h) as (o & e1 & E1 & F1 & C1). unfold bind. rewrite E1.
  destruct o as [a|c].
  - destruct (Hk a (e1 ++ h)%list) as (o2 & e2 & E2 & F2 & C2).
    exists o2, (e2 ++ e1)%list. rewrite E2, app_assoc.
    split; [reflexivity|split; [apply Forall_app; auto|exact C2]].
  - exists (Exited c), e1. split; [reflexivity|split; [exact F1|]].
    intros c' Hc. inversion Hc. subst. apply C1. reflexivity.
Qed.

Lemma nz_emit e : P e -> nz P (emit e).
Proof. intros He h. exists (Done tt), [e]. nz_fin. Qed.

Lemma nz_ext argv : P (Ran argv) -> nz P (ext W argv).
Proof. intros He h. eexists _, [_]. nz_fin. Qed.

Lemma nz_ext_out argv : P (Ran argv) -> nz P (ext_out W argv).
Proof. intros He h. eexists _, [_]. nz_fin. Qed.

Lemma nz_test_f p : nz P (test_f W p).
Proof. intros h. eexists _, []. nz_fin. Qed.
Lemma nz_test_d p : nz P (test_d W p).
Proof. intros h. eexists _, []. nz_fin. Qed.
Lemma nz_has_gpt : nz P (has_gpt W).
Proof. intros h. eexists _, []. nz_fin. Qed.
Lemma nz_glob p : nz P (glob W p).
Proof. intros h. eexists _, []. nz_fin. Qed.

Lemma nz_exit {A} c : c <> 0 -> nz P (exit (A:=A) c).
Proof. intros Hc h. exists (Exited c), []. repeat split; auto. intros c' E. inversion E. subst. exact Hc. Qed.

Lemma nz_checked (m : M Z) : nz P m -> nz P (checked m).
Proof.
  intros Hm. unfold checked. apply nz_bind; [exact Hm|]. intros st.
  destruct (st =? 0)%Z eqn:E; [apply nz_ret|]. apply nz_exit. intros ->. discriminate.
Qed.

Lemma nz_source_env : P (Sourced ".env") -> nz P (source_env W).
Proof.
  intros He h. unfold source_env. destruct (w_source W h) as [st c].
  destruct (st =? 0)%Z eqn:E; eexists _, [_]; (repeat split; [constructor; auto|]);
    intros c' Hc; inversion Hc; subst; intros ->; discriminate.
Qed.

Lemma nz_for_first_dir ds body :
  (forall d, nz P (body d)) -> nz P (for_first_dir W ds body).
Proof.
  intros Hb. induction ds as [|d r IH]; cbn [for_first_dir].
  - apply nz_ret.
  - apply nz_bind; [apply nz_test_d|]. intros [|]; [apply Hb|apply IH].
Qed.

Lemma nz_echo_all l : (forall s, P (Echo s)) -> nz P (echo_all l).
Proof.
  intros He. induction l as [|s r IH]; cbn [echo_all]; [apply nz_ret|].
  apply nz_bind; [apply nz_emit, He|intros _; exact IH].
Qed.

Lemma exits_nz {A} (m : M A) : exits P m -> nz P m.
Proof.
  intros Hm h. destruct (Hm h) as (c & e & E & F & C). exists (Exited c), e.
  repeat split; auto. intros c' Hc. inversion Hc. subst. exact C.
Qed.

Lemma exits_exit {A} c : c <> 0 -> exits P (exit (A:=A) c).
Proof. intros Hc h. exists c, []. repeat split; auto. Qed.

Lemma exits_bind_l {A B} (m : M A) (k : A -> M B) : exits P m -> exits P (bind m k).
Proof.
  intros Hm h. destruct (Hm h) as (c & e & E & F & C). exists c, e. unfold bind. rewrite E. auto.
Qed.

Lemma exits_bind_r {A B} (m : M A) (k : A -> M B) :
  nz P m -> (forall a, exits P (k a)) -> exits P (bind m k).
Proof.
  intros Hm Hk h. destruct (Hm h) as (o & e1 & E1 & F1 & C1). unfold bind. rewrite E1.
  destruct o as [a|c].
  - destruct (Hk a (e1 ++ h)%list) as (c & e2 & E2 & F2 & C2).
    exists c, (e2 ++ e1)%list. rewrite E2, app_assoc.
    split; [reflexivity|split; [apply Forall_app; auto|exact C2]].
  - exists c, e1. split; [reflexivity|split; [exact F1|]]. apply C1. reflexivity.
Qed.

Lemma exits_test_f_false {A} p (k : bool -> M A) :
  (forall h, w_file W h p = false) -> exits P (k false) -> exits P (bind (test_f W p) k).
Proof. intros H Hk h. unfold bind, test_f. rewrite H. apply Hk. Qed.

End NZ.
End Hoare.


Ltac side := first [exact I | cbn [not_python hd_error]; discriminate | assumption].

Ltac nzs :=
  repeat (cbv beta iota; match goal with
  | |- nz _ (bind _ _) => apply nz_bind; [|intros ?]
  | |- nz _ (if ?b then _ else _) => let E := fresh "E" in destruct b eqn:E
  | |- nz _ (ret _) => apply nz_ret
  | |- nz _ (exit _) =>
      apply nz_exit; first [discriminate | intros ?Hc; rewrite Hc in *; discriminate]
  | |- nz _ (checked _) => apply nz_checked
  | |- nz _ (ext _ _) => apply nz_ext; side
  | |- nz _ (ext_out _ _) => apply nz_ext_out; side
  | |- nz _ (emit _) => apply nz_emit; side
  | |- nz _ (print_info _) => unfold print_info, echo
  | |- nz _ (print_warn _) => unfold print_warn, echo
  | |- nz _ (print_error _) => unfold print_error, echo
  | |- nz _ (echo _) => unfold echo
  | |- nz _ (test_f _ _) => apply nz_test_f
  | |- nz _ (test_d _ _) => apply nz_test_d
  | |- nz _ (has_gpt _) => apply nz_has_gpt
  | |- nz _ (glob _ _) => apply nz_glob
  | |- nz _ (source_env _) => apply nz_source_env; side
  | |- nz _ (for_first_dir _ _ _) => apply nz_for_first_dir; intros ?
  | |- nz _ (echo_all _) => apply nz_echo_all; intros; side
  | |- nz _ (tee_pipe _ _ _) => unfold tee_pipe
  | |- nz _ (log _ _ _) => unfold log
  | |- nz _ (step1 _ _ _) => unfold step1
  | |- nz _ (step2 _ _ _) => unfold step2; cbv zeta
  | |- nz _ (step3 _ _ _) => unfold step3; cbv zeta
  end).

Lemma step4_exits (W : world) (t lf : string) :
  (forall h, w_file W h (s1_path t) = false) \/ (forall h, w_file W h (s2_path t) = false) ->
  exits not_python (step4 W t lf).
Proof.
  intros H. unfold step4.
  apply exits_bind_r; [nzs|intros _].
  apply exits_bind_r; [nzs|intros _].
  destruct H as [H1|H2].
  - apply exits_test_f_false; [exact H1|]. cbv beta iota.
    apply exits_bind_l. apply exits_bind_r; [nzs|intros _]. apply exits_exit. discriminate.
  - apply exits_bind_r; [apply nz_test_f|intros e1].
    apply exits_bind_r; [nzs|intros _].
    apply exits_test_f_false; [exact H2|]. cbv beta iota.
    apply exits_bind_l. apply exits_bind_r; [nzs|intros _]. apply exits_exit. discriminate.
Qed.

Lemma main_exits (W : world) (fl : flags) :
  (forall h, w_file W h (s1_path (f_tile fl)) = false) \/
  (forall h, w_file W h (s2_path (f_tile fl)) = false) ->
  exits not_python (main W fl).
Proof.
  intros H. unfold main. cbv zeta.
  repeat (cbv beta; first
    [ apply exits_bind_l; apply step4_exits; exact H
    | apply exits_bind_r; [solve [nzs] | intros ?] ]).
Qed.

Lemma run_pipeline_main (W : world) (args : list string) (fl : flags) :
  parse W args default_flags [] = (Done fl, []) ->
  run_pipeline W args [] = main W fl [].
Proof. intros Hp. unfold run_pipeline, bind. rewrite Hp. reflexivity. Qed.

(** If the aligned Sentinel-1 or Sentinel-2 file of the tile is never
    present, a run whose options parse ends with a nonzero status and never
    runs [python3]: none of steps 1-3 can bring the run past the check of
    step 4 without them, whatever else the machine answers. *)
Theorem run_pipeline_missing_aligned_input (W : world) (args : list string) (fl : flags) :
  parse W args default_flags [] = (Done fl, []) ->
  (forall h, w_file W h (s1_path (f_tile fl)) = false) \/
  (forall h, w_file W h (s2_path (f_tile fl)) = false) ->
  script_status (fst (run_pipeline W args [])) <> 0 /\
  (forall argv, In (Ran argv) (snd (run_pipeline W args [])) -> hd_error argv <> Some "python3").
Proof.
  intros Hp H. rewrite (run_pipeline_main W args fl Hp).
  destruct (main_exits W fl H []) as (c & e & E & F & C). rewrite E. cbn [fst snd script_status].
  rewrite app_nil_r. split; [exact C|].
  intros argv Hin. rewrite Forall_forall in F. exact (F _ Hin).
Qed.

Section Success.
Variable W : world.
Hypothesis Htee : forall h l, w_status W h ["tee"; "-a"; l] = 0.
Hypothesis Hmk : forall h p, w_status W h ["mkdir"; "-p"; p] = 0.
Hypothesis Hdate : forall h, w_status W h ["date"; "+%Y%m%d_%H%M%S"] = 0.
Hypothesis Hsrc : forall h, fst (w_source W h) = 0.

Ltac ss :=
  repeat (cbn [fst snd Z.eqb negb]; match goal with
  | |- safe (bind (has_gpt _) _) => apply safe_has_gpt_true; [assumption|]
  | |- safe (bind (test_f _ _) _) =>
      first [apply safe_test_f_true; [assumption|] | apply safe_bind; [apply safe_test_f|intros ?]]
  | |- safe (bind (ext_out _ ["date"; "+%Y%m%d_%H%M%S"]) _) =>
      apply safe_ext_out_ok; [exact Hdate|intros ?]
  | |- safe (bind _ _) => apply safe_bind; [|intros ?]
  | |- safe (if ?b then _ else _) => destruct b
  | |- safe (ret _) => apply safe_ret
  | |- safe (checked (ext _ ["mkdir"; "-p"; _])) => apply safe_checked_ext; intros; apply Hmk
  | |- safe (emit _) => apply safe_emit
  | |- safe (print_info _) => unfold print_info, echo
  | |- safe (print_warn _) => unfold print_warn, echo
  | |- safe (print_error _) => unfold print_error, echo
  | |- safe (echo _) => unfold echo
  | |- safe (test_f _ _) => apply safe_test_f
  | |- safe (test_d _ _) => apply safe_test_d
  | |- safe (glob _ _) => apply safe_glob
  | |- safe (source_env _) => apply safe_source_env; exact Hsrc
  | |- safe (for_first_dir _ _ _) => apply safe_for_first_dir; intros ?
  | |- safe (echo_all _) => apply safe_echo_all
  | |- safe (tee_pipe _ _ _) => apply safe_tee_pipe; intros; apply Htee
  | |- safe (log _ _ _) => apply safe_log; intros; apply Htee
  | |- safe (step1 _ _ _) => unfold step1
  | |- safe (step3 _ _ _) => unfold step3
  | |- safe (step4 _ _ _) => unfold step4
  | |- safe (step5 _ _ _) => unfold step5
  | |- safe (step6 _ _ _) => unfold step6
  end).

Lemma step2_safe (fl : flags) (lf : string) :
  f_skip_snap fl = true \/ (forall h, w_has_gpt W h = true) -> safe (step2 W fl lf).
Proof. intros [Hs|Hg]; unfold step2; [rewrite Hs|]; ss. Qed.

Ltac si :=
  repeat (cbn [fst snd Z.eqb negb]; match goal with
  | |- safe_in _ (bind (tee_pipe _ _ _) _) =>
      first [apply safe_in_bind_l; [apply safe_in_tee_pipe; intros; apply Htee | intros; ss]
            | apply safe_in_bind_r; [solve [ss] | intros ?]]
  | |- safe_in _ (bind (log _ _ _) _) =>
      first [apply safe_in_bind_l; [apply safe_in_log; intros; apply Htee | intros; ss]
            | apply safe_in_bind_r; [solve [ss] | intros ?]]
  | |- safe_in _ (tee_pipe _ _ _) => apply safe_in_tee_pipe; intros; apply Htee
  | |- safe_in _ (log _ _ _) => apply safe_in_log; intros; apply Htee
  | |- safe_in _ (bind (step2 _ _ _) _) =>
      apply safe_in_bind_r; [apply step2_safe; assumption | intros ?]
  | |- safe_in _ (bind (step4 _ _ _) _) =>
      first [apply safe_in_bind_l; [solve [unfold step4; si] | intros; ss]
            | apply safe_in_bind_r; [solve [ss] | intros ?]]
  | |- safe_in _ (bind (step5 _ _ _) _) =>
      first [apply safe_in_bind_l; [solve [unfold step5; si] | intros; ss]
            | apply safe_in_bind_r; [solve [ss] | intros ?]]
  | |- safe_in _ (step6 _ _ _) => unfold step6
  | |- safe_in _ (bind (test_f _ _) _) =>
      first [apply safe_in_test_f_true; [assumption|]
            | apply safe_in_bind_r; [apply safe_test_f | intros ?]]
  | |- safe_in _ (bind (ext_out _ ["date"; "+%Y%m%d_%H%M%S"]) _) =>
      apply safe_in_ext_out_ok; [exact Hdate|intros ?]
  | |- safe_in _ (if ?b then _ else _) => destruct b
  | |- safe_in _ (bind _ _) => apply safe_in_bind_r; [solve [ss] | intros ?]
  end).

Lemma main_runs (fl : flags) :
  (forall h, w_file W h (f_config fl) = true) ->
  f_skip_snap fl = true \/ (forall h, w_has_gpt W h = true) ->
  (forall h, w_file W h (s1_path (f_tile fl)) = true) ->
  (forall h, w_file W h (s2_path (f_tile fl)) = true) ->
  safe_in (eq (Ran (fusion_argv (f_tile fl)))) (main W fl) /\
  safe_in (eq (Ran ("python3" :: Scripts.export_argv
                      {| Scripts.config_file := f_config fl; Scripts.tile_id := f_tile fl |})))
          (main W fl) /\
  safe_in (fun e => exists d, e = LogLine (d ++ " - " ++ "Pipeline completed successfully"))
          (main W fl).
Proof.
  intros Hc Hg H1 H2. unfold main. split; [|split]; si.
Qed.

End Success.

(** A run whose options parse, with the configuration file present,
    [tee], [mkdir -p], [date] and [source .env] succeeding, [gpt] installed
    unless [--skip-snap] is given, and the aligned Sentinel-1 and
    Sentinel-2 files of the tile present, ends with status 0 after running
    [process_fusion.py] and [export_unreal.py] and logging "Pipeline
    completed successfully", whatever the exit statuses of the two Python
    scripts, of [gpt], [gdalwarp] and the download script, and whether the
    DEM exists. *)
Theorem run_pipeline_completes (W : world) (args : list string) (fl : flags) :
  parse W args default_flags [] = (Done fl, []) ->
  (forall h, w_file W h (f_config fl) = true) ->
  (forall h l, w_status W h ["tee"; "-a"; l] = 0) ->
  (forall h p, w_status W h ["mkdir"; "-p"; p] = 0) ->
  (forall h, w_status W h ["date"; "+%Y%m%d_%H%M%S"] = 0) ->
  (forall h, fst (w_source W h) = 0) ->
  f_skip_snap fl = true \/ (forall h, w_has_gpt W h = true) ->
  (forall h, w_file W h (s1_path (f_tile fl)) = true) ->
  (forall h, w_file W h (s2_path (f_tile fl)) = true) ->
  script_status (fst (run_pipeline W args [])) = 0 /\
  In (Ran (fusion_argv (f_tile fl))) (snd (run_pipeline W args [])) /\
  In (Ran ("python3" :: Scripts.export_argv
             {| Scripts.config_file := f_config fl; Scripts.tile_id := f_tile fl |}))
     (snd (run_pipeline W args [])) /\
  exists d, In (LogLine (d ++ " - Pipeline completed successfully")) (snd (run_pipeline W args [])).
Proof.
  intros Hp Hc Htee Hmk Hdate Hsrc Hg H1 H2.
  rewrite (run_pipeline_main W args fl Hp).
  destruct (main_runs W Htee Hmk Hdate Hsrc fl Hc Hg H1 H2) as [R1 [R2 R3]].
  destruct (R1 []) as (a1 & e1 & E1 & X1).
  destruct (R2 []) as (a2 & e2 & E2 & X2).
  destruct (R3 []) as (a3 & e3 & E3 & X3).
  rewrite E1 in E2, E3. injection E2 as <- E2. injection E3 as <- E3.
  rewrite !app_nil_r in E2, E3. subst e2 e3.
  rewrite E1. cbn [fst snd]. rewrite app_nil_r. destruct a1.
  apply Exists_exists in X1 as (x1 & I1 & <-).
  apply Exists_exists in X2 as (x2 & I2 & <-).
  apply Exists_exists in X3 as (x3 & I3 & d & ->).
  split; [reflexivity|]. split; [exact I1|]. split; [exact I2|]. exists d. exact I3.
Qed.


Lemma error_exit_1 (s : string) (h : list event) :
  exists c ext, (print_error s ;;; exit (A:=flags) 1) h = (Exited c, (ext ++ h)%list) /\
                (c = 0 \/ c = 1) /\ Forall is_echo ext.
Proof.
  eexists 1, [_]. split; [reflexivity|]. split; [right; reflexivity|].
  constructor; [eexists; reflexivity|constructor].
Qed.

Lemma help_exit_0 (W : world) (h : list event) :
  exists c ext,
    (echo ("Usage: " ++ w_argv0 W ++ " [OPTIONS]") ;;; echo_all help_text ;;; exit (A:=flags) 0) h
    = (Exited c, (ext ++ h)%list) /\ (c = 0 \/ c = 1) /\ Forall is_echo ext.
Proof.
  eexists 0, [_; _; _; _; _; _; _; _; _]. split; [reflexivity|]. split; [left; reflexivity|].
  repeat (apply Forall_cons; [eexists; reflexivity|]). apply Forall_nil.
Qed.

Lemma missing_value_exit (h : list event) :
  exists c ext, exit (A:=flags) 1 h = (Exited c, (ext ++ h)%list) /\
                (c = 0 \/ c = 1) /\ Forall is_echo ext.
Proof. exists 1, []. split; [reflexivity|]. split; [right; reflexivity|constructor]. Qed.

Lemma parse_gen (W : world) (n : nat) :
  forall args fl o h, (List.length args < n)%nat ->
  f_config fl = Scripts.config_file o -> f_tile fl = Scripts.tile_id o ->
  match Scripts.parse_args args o with
  | Some o' => exists fl', parse W args fl h = (Done fl', h) /\
                           f_config fl' = Scripts.config_file o' /\ f_tile fl' = Scripts.tile_id o'
  | None => exists c ext, parse W args fl h = (Exited c, (ext ++ h)%list) /\
                          (c = 0 \/ c = 1) /\ Forall is_echo ext
  end.
Proof.
  induction n as [|n IH]; intros args fl o h Hlen Hc Ht; [lia|].
  destruct args as [|a r].
  - exists fl. auto.
  - cbn [parse Scripts.parse_args].
    repeat (match goal with |- context [match ?x with _ => _ end] => is_var x; destruct x end;
            cbn [parse Scripts.parse_args]);
    first [ apply IH; [cbn in Hlen |- *; lia | cbn; first [reflexivity|assumption] | cbn; first [reflexivity|assumption]]
          | apply error_exit_1 | apply help_exit_0 | apply missing_value_exit ].
Qed.

(** Option parsing (lines 31-69) agrees with [Scripts.parse_args]: when
    that accepts the arguments, the script goes on with the same
    configuration file and tile id, having done nothing; otherwise (an
    unknown option, [--help], or [--config] or [--tile-id] without a value)
    the script stops with status 0 or 1 before running any command, having
    only echoed text. *)
Theorem parse_agrees_with_parse_args (W : world) (args : list string) (h : list event) :
  match Scripts.parse_args args Scripts.default_opts with
  | Some o => exists fl, parse W args default_flags h = (Done fl, h) /\
                         f_config fl = Scripts.config_file o /\ f_tile fl = Scripts.tile_id o
  | None => exists c ext, parse W args default_flags h = (Exited c, (ext ++ h)%list) /\
                          (c = 0 \/ c = 1) /\ Forall is_echo ext
  end.
Proof. apply (parse_gen W (S (List.length args))); [lia|reflexivity|reflexivity]. Qed.

End RunPipelineFacts.

(** ** The Python version check of [setup_environment.sh] *)
Module SetupEnvFacts.
Import Text StrExtra SetupEnv.
Local Open Scope string_scope.

Lemma list_ascii_app (a b : string) :
  list_ascii_of_string (a ++ b) = (list_ascii_of_string a ++ list_ascii_of_string b)%list.
Proof. induction a as [|c a IH]; cbn [append list_ascii_of_string]; [reflexivity|]. rewrite IH. reflexivity. Qed.

Lemma split_by_none (sep : ascii -> bool) (s : text) :
  Forall (fun c => sep c = false) s -> split_by sep s = [s].
Proof. induction 1 as [|c s Hc _ IH]; cbn [split_by]; [reflexivity|]. rewrite Hc, IH. reflexivity. Qed.

Lemma split_by_app (sep : ascii -> bool) (a b : text) (c : ascii) :
  Forall (fun c => sep c = false) a -> sep c = true ->
  split_by sep (a ++ c :: b)%list = a :: split_by sep b.
Proof.
  intros Ha Hc. induction Ha as [|d a Hd _ IH]; cbn [split_by app]; [rewrite Hc; reflexivity|].
  rewrite Hd, IH. reflexivity.
Qed.


Lemma word_char_facts (c : ascii) :
  word_char c = true ->
  is_blank c = false /\ is_ifs c = false /\ Ascii.eqb nl c = false /\
  Ascii.eqb c "000"%char = false.
Proof.
  destruct c as [[] [] [] [] [] [] [] []]; vm_compute;
    first [discriminate | intros _; repeat split].
Qed.

Lemma digit_facts (c : ascii) :
  is_digit c = true ->
  word_char c = true /\ is_dot c = false /\ Str.is_ws c = false /\
  Ascii.eqb c "-" = false /\ Ascii.eqb c "+" = false.
Proof.
  destruct c as [[] [] [] [] [] [] [] []]; vm_compute;
    first [discriminate | intros _; repeat split].
Qed.

Lemma digits_of_Z_digits (f : nat) (n : Z) (acc : string) :
  0 <= n -> Forall (fun c => is_digit c = true) (list_ascii_of_string acc) ->
  Forall (fun c => is_digit c = true) (list_ascii_of_string (Str.digits_of_Z f n acc)).
Proof.
  revert n acc. induction f as [|f IH]; intros n acc Hn Hacc; cbn [Str.digits_of_Z]; [exact Hacc|].
  assert (Hd : is_digit (ascii_of_nat (48 + Z.to_nat (n mod 10))) = true).
  { pose proof (Z.mod_pos_bound n 10 ltac:(lia)). unfold is_digit.
    rewrite nat_ascii_embedding by lia.
    apply andb_true_intro; split; apply Nat.leb_le; lia. }
  destruct (n <? 10)%Z.
  - cbn [list_ascii_of_string]. constructor; assumption.
  - apply IH; [apply Z.div_pos; lia|]. cbn [list_ascii_of_string]. constructor; assumption.
Qed.

Lemma digits_of_Z_nonempty (f : nat) (n : Z) (acc : string) :
  acc <> "" -> Str.digits_of_Z f n acc <> "".
Proof.
  revert n acc. induction f as [|f IH]; intros n acc H; cbn [Str.digits_of_Z]; [exact H|].
  destruct (n <? 10)%Z; [discriminate|]. apply IH. discriminate.
Qed.

Lemma of_Z_nonneg (z : Z) :
  0 <= z -> Str.of_Z z = Str.digits_of_Z (S (Z.to_nat (Z.log2 (Z.abs z)))) (Z.abs z) "".
Proof.
  intros Hz. unfold Str.of_Z. replace (z <? 0)%Z with false by (symmetry; apply Z.ltb_ge; lia).
  reflexivity.
Qed.

Lemma of_Z_digits (z : Z) :
  0 <= z ->
  list_ascii_of_string (Str.of_Z z) <> [] /\
  Forall (fun c => is_digit c = true) (list_ascii_of_string (Str.of_Z z)).
Proof.
  intros Hz. rewrite of_Z_nonneg by exact Hz. split.
  - cbn [Str.digits_of_Z]. destruct (Z.abs z <? 10)%Z; [discriminate|].
    intros E. eapply digits_of_Z_nonempty; [|apply (f_equal string_of_list_ascii) in E;
      rewrite string_of_list_ascii_of_string in E; exact E]. discriminate.
  - apply digits_of_Z_digits; [lia|constructor].
Qed.

Lemma span_digits_all (s : text) :
  Forall (fun c => is_digit c = true) s -> span_digits s = (s, []).
Proof. induction 1 as [|c s Hc _ IH]; cbn [span_digits]; [reflexivity|]. rewrite Hc, IH. reflexivity. Qed.

Lemma dec_value_nonneg (ds : text) (v : Z) :
  Forall (fun c => is_digit c = true) ds -> 0 <= v -> 0 <= dec_value (string_of_list_ascii ds) v.
Proof.
  intros H. revert v. induction H as [|c ds Hc _ IH]; intros v Hv; [exact Hv|].
  change (0 <= dec_value (string_of_list_ascii ds) (v * 10 + (Z.of_nat (nat_of_ascii c) - 48))).
  apply IH. unfold is_digit in Hc. apply andb_prop in Hc as [H1 _]. apply Nat.leb_le in H1. lia.
Qed.

Lemma legal_number_of_Z (z : Z) :
  0 <= z < 2 ^ 63 -> legal_number (list_ascii_of_string (Str.of_Z z)) = Some z.
Proof.
  intros Hz. destruct (of_Z_digits z ltac:(lia)) as [Hne Hd].
  pose proof (dec_value_of_Z z ltac:(lia)) as Hv.
  rewrite <- (string_of_list_ascii_of_string (Str.of_Z z)) in Hv.
  destruct (list_ascii_of_string (Str.of_Z z)) as [|d r] eqn:E; [congruence|].
  pose proof (Forall_inv Hd) as Hd0. destruct (digit_facts d Hd0) as (_ & _ & Hws & Hm & Hp).
  unfold legal_number. cbn [drop_ws]. rewrite Hws. rewrite Hm, Hp.
  rewrite (span_digits_all (d :: r) Hd). rewrite Hv.
  replace ((- 2 ^ 63 <=? z) && (z <? 2 ^ 63))%Z with true
    by (symmetry; apply andb_true_intro; split; [apply Z.leb_le|apply Z.ltb_lt]; lia).
  reflexivity.
Qed.

Lemma drop_nl_id (s : text) : Forall (fun c => Ascii.eqb nl c = false) s -> drop_nl s = s.
Proof.
  destruct 1 as [|c s Hc _]; [reflexivity|]. cbn [drop_nl].
  rewrite Ascii.eqb_sym, Hc. reflexivity.
Qed.

(** A substitution whose output is one line gives that line. *)
Lemma command_subst_line (x : text) :
  Forall (fun c => word_char c = true) x -> command_subst (x ++ [nl])%list = x.
Proof.
  intros H. unfold command_subst. rewrite filter_app.
  rewrite (forallb_filter_id _ x).
  2:{ apply forallb_forall. intros c Hc. apply Forall_forall with (x := c) in H; [|exact Hc].
      destruct (word_char_facts c H) as (_ & _ & _ & E). rewrite E. reflexivity. }
  change (filter (fun c => negb (Ascii.eqb c "000"%char)) [nl]) with [nl].
  rewrite rev_app_distr. cbn [rev app drop_nl]. change (Ascii.eqb nl nl) with true. cbv iota.
  rewrite drop_nl_id, rev_involutive; [reflexivity|].
  apply Forall_rev. eapply Forall_impl; [|exact H]. intros c Hc. apply (word_char_facts c Hc).
Qed.

Lemma lines_one (x : text) :
  Forall (fun c => Ascii.eqb nl c = false) x -> lines (x ++ [nl])%list = [x].
Proof.
  intros H. unfold lines. rewrite rev_app_distr. cbn [rev app].
  change (Ascii.eqb nl nl) with true. cbv iota. rewrite rev_involutive.
  apply split_by_none. exact H.
Qed.

Lemma lines_line (x : text) :
  Forall (fun c => word_char c = true) x -> lines (x ++ [nl])%list = [x].
Proof.
  intros H. apply lines_one. eapply Forall_impl; [|exact H]. intros c Hc. apply (word_char_facts c Hc).
Qed.

Lemma words_word (x : text) :
  x <> [] -> Forall (fun c => word_char c = true) x -> words x = [x].
Proof.
  intros Hne H. unfold words. rewrite split_by_none.
  - destruct x; [congruence|reflexivity].
  - eapply Forall_impl; [|exact H]. intros c Hc. apply (word_char_facts c Hc).
Qed.

Lemma has_glob_word (x : text) :
  Forall (fun c => word_char c = true) x -> has_glob x = false.
Proof.
  induction 1 as [|c x Hc _ IH]; [reflexivity|].
  change (has_glob (c :: x)) with ((Ascii.eqb c "*" || Ascii.eqb c "?" || Ascii.eqb c "[") || has_glob x).
  rewrite IH, orb_false_r. unfold word_char in Hc. unfold has_glob in Hc. cbn [existsb] in Hc.
  rewrite orb_false_r in Hc.
  destruct (Ascii.eqb c "*" || Ascii.eqb c "?" || Ascii.eqb c "["); [|reflexivity].
  rewrite andb_false_r, andb_false_l in Hc. discriminate.
Qed.

(** The version word goes through [echo $PYTHON_VERSION] unchanged when it
    is one word that is neither a pattern nor an option of [echo]. *)
Lemma echo_word (glob : text -> list text) (escapes : text -> text * bool) (x : text) :
  x <> [] -> Forall (fun c => word_char c = true) x -> echo_opt x = false ->
  echo escapes (flat_map (expand glob) (words x)) = (x ++ [nl])%list.
Proof.
  intros Hne H Ho. rewrite words_word by assumption. cbn [flat_map].
  unfold expand. rewrite has_glob_word by assumption. rewrite app_nil_r.
  unfold echo. cbn [echo_opts]. rewrite Ho. cbn [echo_words snd fst orb]. rewrite app_nil_r.
  reflexivity.
Qed.

Lemma python_field_word (glob : text -> list text) (escapes : text -> text * bool) (n : nat) (x : text) :
  x <> [] -> Forall (fun c => word_char c = true) x -> echo_opt x = false ->
  Forall (fun c => word_char c = true) (cut_line n x) ->
  python_field glob escapes n x = cut_line n x.
Proof.
  intros Hne H Ho Hc. unfold python_field. rewrite echo_word by assumption.
  unfold cut_field. rewrite lines_line by assumption. cbn [flat_map]. rewrite app_nil_r.
  apply command_subst_line. exact Hc.
Qed.

Lemma echo_opt_head (c : ascii) (r : text) : Ascii.eqb c "-" = false -> echo_opt (c :: r) = false.
Proof. intros H. destruct r; [reflexivity|]. cbn [echo_opt]. rewrite H. reflexivity. Qed.

Lemma digits_word (ds : text) :
  Forall (fun c => is_digit c = true) ds -> Forall (fun c => word_char c = true) ds.
Proof. apply Forall_impl. intros c Hc. apply (digit_facts c Hc). Qed.

Lemma digits_not_dot (ds : text) :
  Forall (fun c => is_digit c = true) ds -> Forall (fun c => is_dot c = false) ds.
Proof. apply Forall_impl. intros c Hc. apply (digit_facts c Hc). Qed.


(** For an output [Python M.m] of [python3 --version], followed by nothing
    or by a dot and characters none of which is white space, a glob
    character ([*], [?], [[]) or NUL, with [M] and [m] below 2^63, the
    check reads the major and minor numbers as integers: it stops the script with
    status 1 exactly when [M < 3], or [M = 3] and [m < 9] (so 3.10 passes),
    and otherwise reports the whole version word as detected. *)
Theorem python_check_numeric (glob : text -> list text) (escapes : text -> text * bool)
    (arg t : string) (M m : Z) :
  0 <= M < 2 ^ 63 -> 0 <= m < 2 ^ 63 ->
  t = "" \/ (exists t', t = "." ++ t') ->
  forallb word_char (list_ascii_of_string t) = true ->
  let out := "Python " ++ Str.of_Z M ++ "." ++ Str.of_Z m ++ t ++ String nl "" in
  let V := Str.of_Z M ++ "." ++ Str.of_Z m ++ t in
  snd (python_check glob escapes arg out)
  = (if ((M <? 3) || ((M =? 3) && (m <? 9)))%Z then Some 1 else None) /\
  last (fst (python_check glob escapes arg out)) ""
  = (if ((M <? 3) || ((M =? 3) && (m <? 9)))%Z
     then error ("Python 3.9+ required. Found: Python " ++ V)
     else info ("Python " ++ V ++ " detected " ++ check_mark)).
Proof.
  intros HM Hm Ht Htc out V.
  destruct (of_Z_digits M ltac:(lia)) as [HMne HMd].
  destruct (of_Z_digits m ltac:(lia)) as [Hmne Hmd].
  set (dM := list_ascii_of_string (Str.of_Z M)) in *.
  set (dm := list_ascii_of_string (Str.of_Z m)) in *.
  set (T := list_ascii_of_string t).
  assert (HV : list_ascii_of_string V = (dM ++ "."%char :: dm ++ T)%list).
  { unfold V. rewrite !list_ascii_app. reflexivity. }
  assert (HVw : Forall (fun c => word_char c = true) (list_ascii_of_string V)).
  { rewrite HV. apply Forall_app; split; [apply digits_word; exact HMd|].
    constructor; [reflexivity|]. apply Forall_app; split; [apply digits_word; exact Hmd|].
    apply Forall_forall. intros c Hc. apply forallb_forall with (x := c) in Htc; assumption. }
  assert (HVne : list_ascii_of_string V <> []).
  { rewrite HV. destruct dM; discriminate. }
  assert (Hout : list_ascii_of_string out
                 = ((list_ascii_of_string "Python" ++ " "%char :: list_ascii_of_string V) ++ [nl])%list).
  { unfold out, V. rewrite !list_ascii_app. cbn [list_ascii_of_string app].
    rewrite <- !app_assoc. cbn [app]. rewrite <- !app_assoc. reflexivity. }
  assert (Hver : python_version out = list_ascii_of_string V).
  { unfold python_version. rewrite Hout. unfold awk_print2.
    rewrite lines_one.
    2:{ apply Forall_app; split; [repeat constructor|]. constructor; [reflexivity|].
        eapply Forall_impl; [|exact HVw]. intros c Hc. apply (word_char_facts c Hc). }
    cbn [flat_map]. rewrite app_nil_r.
    unfold awk_fields. rewrite split_by_app by (repeat constructor).
    rewrite split_by_none.
    2:{ eapply Forall_impl; [|exact HVw]. intros c Hc. apply (word_char_facts c Hc). }
    destruct (list_ascii_of_string V) as [|v0 vr] eqn:EV; [congruence|].
    cbn [filter nonempty nth].
    apply command_subst_line. exact HVw. }
  assert (Hopt : echo_opt (list_ascii_of_string V) = false).
  { rewrite HV. destruct dM as [|d r] eqn:EdM; [congruence|]. cbn [app].
    apply echo_opt_head. apply (digit_facts d (Forall_inv HMd)). }
  assert (Hdot : existsb is_dot (list_ascii_of_string V) = true).
  { rewrite HV, existsb_app. cbn [existsb]. rewrite orb_true_r. reflexivity. }
  assert (Hsplit : split_by is_dot (list_ascii_of_string V) = dM :: split_by is_dot (dm ++ T)%list).
  { rewrite HV. apply split_by_app; [apply digits_not_dot; exact HMd|reflexivity]. }
  assert (Hcut1 : cut_line 1 (list_ascii_of_string V) = dM).
  { unfold cut_line. rewrite Hdot, Hsplit. reflexivity. }
  assert (Hcut2 : cut_line 2 (list_ascii_of_string V) = dm).
  { unfold cut_line. rewrite Hdot, Hsplit. cbn [Nat.sub nth].
    destruct Ht as [-> | [t' ->]].
    - unfold T. cbn [list_ascii_of_string]. rewrite app_nil_r, split_by_none; [reflexivity|].
      apply digits_not_dot. exact Hmd.
    - unfold T. rewrite list_ascii_app. cbn [list_ascii_of_string app].
      rewrite split_by_app; [reflexivity|apply digits_not_dot; exact Hmd|reflexivity]. }
  assert (Hst : too_old_status (python_field glob escapes 1 (list_ascii_of_string V))
                               (python_field glob escapes 2 (list_ascii_of_string V))
                = if ((M <? 3) || ((M =? 3) && (m <? 9)))%Z then 0 else 1).
  { rewrite !python_field_word by
      (first [exact HVne | exact HVw | exact Hopt
             | rewrite Hcut1; apply digits_word; exact HMd
             | rewrite Hcut2; apply digits_word; exact Hmd]).
    rewrite Hcut1, Hcut2. unfold too_old_status, test_int.
    unfold dM, dm. rewrite !legal_number_of_Z by lia.
    change (legal_number ["3"%char]) with (Some 3).
    change (legal_number ["9"%char]) with (Some 9).
    cbv beta iota. destruct (M <? 3)%Z, (M =? 3)%Z, (m <? 9)%Z; reflexivity. }
  unfold python_check. rewrite Hver, string_of_list_ascii_of_string, Hst.
  destruct (((M <? 3) || ((M =? 3) && (m <? 9)))%Z); cbn [Z.eqb snd fst]; cbv iota;
    (split; [reflexivity|apply last_last]).
Qed.

Lemma not_ws_facts (c : ascii) :
  Str.is_ws c = false -> Ascii.eqb nl c = false /\ is_blank c = false.
Proof.
  destruct c as [[] [] [] [] [] [] [] []]; vm_compute;
    first [discriminate | intros _; repeat split].
Qed.

(** A version whose part before the first dot is not an integer passes:
    both tests on it fail with status 2. *)
Lemma non_integer_major_passes (glob : text -> list text) (escapes : text -> text * bool)
    (arg out : string) :
  legal_number (python_field glob escapes 1 (python_version out)) = None ->
  snd (python_check glob escapes arg out) = None /\
  last (fst (python_check glob escapes arg out)) ""
  = info ("Python " ++ string_of_list_ascii (python_version out) ++ " detected " ++ check_mark).
Proof.
  intros H. unfold python_check, too_old_status, test_int. rewrite H.
  cbv beta iota zeta. cbn [Z.eqb snd fst]. split; [reflexivity|apply last_last].
Qed.

(** Without [python3] the shell's message
    [<script>: line N: python3: command not found] is what [awk] reads;
    for a script path without white space the version is the word [line],
    both integer tests on it fail with status 2, and the check lets the
    script go on, reporting "Python line detected". *)
Theorem python_check_without_python3 (glob : text -> list text) (escapes : text -> text * bool)
    (arg s0 : string) (n : Z) :
  0 <= n -> forallb (fun c => negb (Str.is_ws c)) (list_ascii_of_string s0) = true ->
  let out := s0 ++ ": line " ++ Str.of_Z n ++ ": python3: command not found" ++ String nl "" in
  python_version out = list_ascii_of_string "line" /\
  test_int Z.ltb (python_field glob escapes 1 (python_version out)) ["3"%char] = 2 /\
  test_int Z.eqb (python_field glob escapes 1 (python_version out)) ["3"%char] = 2 /\
  snd (python_check glob escapes arg out) = None /\
  last (fst (python_check glob escapes arg out)) "" = info ("Python line detected " ++ check_mark).
Proof.
  intros Hn Hs out.
  destruct (of_Z_digits n Hn) as [_ Hd].
  assert (Hs' : Forall (fun c => Str.is_ws c = false) (list_ascii_of_string s0)).
  { apply Forall_forall. intros c Hc. apply forallb_forall with (x := c) in Hs; [|exact Hc].
    destruct (Str.is_ws c); [discriminate|reflexivity]. }
  set (R := (list_ascii_of_string (Str.of_Z n) ++ list_ascii_of_string ": python3: command not found")%list).
  assert (Hout : list_ascii_of_string out
                 = (((list_ascii_of_string s0 ++ [":"%char]) ++ " "%char
                     :: (list_ascii_of_string "line" ++ " "%char :: R)) ++ [nl])%list).
  { unfold out, R. rewrite !list_ascii_app. cbn [list_ascii_of_string app].
    rewrite <- !app_assoc. cbn [app]. rewrite <- !app_assoc. reflexivity. }
  assert (HR : Forall (fun c => Ascii.eqb nl c = false) R).
  { unfold R. apply Forall_app; split; [|repeat constructor].
    eapply Forall_impl; [|exact Hd]. intros c Hc.
    apply (not_ws_facts c (proj1 (proj2 (proj2 (digit_facts c Hc))))). }
  assert (Hs0 : Forall (fun c => Ascii.eqb nl c = false /\ is_blank c = false)
                       (list_ascii_of_string s0)).
  { eapply Forall_impl; [|exact Hs']. intros c Hc. exact (not_ws_facts c Hc). }
  assert (Hver : python_version out = list_ascii_of_string "line").
  { unfold python_version. rewrite Hout. unfold awk_print2. rewrite lines_one.
    2:{ apply Forall_app; split.
        - apply Forall_app; split; [|repeat constructor].
          eapply Forall_impl; [|exact Hs0]. intros c Hc. apply Hc.
        - constructor; [reflexivity|]. apply Forall_app; split; [repeat constructor|].
          constructor; [reflexivity|exact HR]. }
    cbn [flat_map]. rewrite app_nil_r. unfold awk_fields.
    rewrite split_by_app.
    2:{ apply Forall_app; split; [|repeat constructor].
        eapply Forall_impl; [|exact Hs0]. intros c Hc. apply Hc. }
    2:{ reflexivity. }
    rewrite split_by_app by (first [repeat constructor | reflexivity]).
    destruct (list_ascii_of_string s0); cbn [filter nonempty app nth];
      apply command_subst_line; repeat constructor. }
  assert (Hln : legal_number (python_field glob escapes 1 (python_version out)) = None).
  { rewrite Hver. vm_compute. reflexivity. }
  destruct (non_integer_major_passes glob escapes arg out Hln) as [H1 H2].
  split; [exact Hver|]. unfold test_int. rewrite Hln.
  split; [reflexivity|]. split; [reflexivity|].
  split; [exact H1|]. rewrite H2, Hver. reflexivity.
Qed.

End SetupEnvFacts.

(** ** Witnesses of the properties with hypotheses *)
Module ExtraWitnesses.
Import Route Text StrExtra RouteExtra2 Dashboard DashboardFacts RunPipeline
  RunPipelineFacts ExtraSamples.
Local Open Scope string_scope.

Lemma post_stdout_trimmed_witness :
  exists o t,
    get_prop (payload (snd (POST sample_env (Some sample_body)))) "output" = Some o /\
    get_prop o "stdout" = Some (JStr t) /\
    exists lead trail,
      list_ascii_of_string "Processing done  "
        = (List.concat lead ++ list_ascii_of_string t ++ List.concat trail)%list /\
      Forall (fun w => In w Str.js_ws) lead /\ Forall (fun w => In w Str.js_ws) trail /\
      (forall w r, In w Str.js_ws -> list_ascii_of_string t <> (w ++ r)%list) /\
      (forall w r, In w Str.js_ws -> list_ascii_of_string t <> (r ++ w)%list).
Proof.
  apply (post_stdout_trimmed sample_env sample_body "Processing done  "
           "WARNING: low valid fraction");
    [intros; reflexivity|vm_compute; reflexivity].
Defined.

Lemma post_stderr_status_witness :
  (status (snd (POST sample_env (Some sample_body))) = 200 <->
   "WARNING: low valid fraction" = "" \/
   Str.includes "WARNING: low valid fraction" "WARNING" = true) /\
  (status (snd (POST sample_env (Some sample_body))) <> 200 ->
   snd (POST sample_env (Some sample_body))
   = respond 500 (JObj [("error", JStr "Processing failed");
                        ("details", JStr "WARNING: low valid fraction")])).
Proof.
  apply (post_stderr_status sample_env sample_body "Processing done  "
           "WARNING: low valid fraction");
    [discriminate|reflexivity|reflexivity|reflexivity|reflexivity
    |vm_compute; discriminate|vm_compute; discriminate|vm_compute; discriminate
    |vm_compute; discriminate|intros; reflexivity].
Defined.

Lemma post_unrenderable_param_witness :
  let b := JObj [("s1Path", JObj [("toString", JNum "1")]); ("s2Path", JStr "data/s2.tif");
                 ("demPath", JStr "data/dem.tif"); ("outputDir", JStr "data/out")] in
  js_string (get_prop b "s1Path") = None /\
  fst (POST sample_env (Some b)) = [] /\
  snd (POST sample_env (Some b))
  = respond 500 (JObj [("error", JStr "Failed to process satellite data");
                       ("details", JStr "Cannot convert object to primitive value")]).
Proof.
  intros b. split; [reflexivity|].
  apply (post_unrenderable_param sample_env b);
    [discriminate|reflexivity|reflexivity|reflexivity|reflexivity|left; reflexivity].
Defined.

Lemma post_job_id_vs_tile_id_witness :
  (exists cmd pre, fst (POST sample_env (Some sample_body)) = [cmd] /\
     cmd = pre ++ "--tile-id " ++ Str.dq ++ "web_job_" ++ Str.of_Z 1718000000000 ++ Str.dq) /\
  get_prop (payload (snd (POST sample_env (Some sample_body)))) "jobId"
    = Some (JStr ("web_job_" ++ Str.of_Z 1718000000007)) /\
  ("web_job_" ++ Str.of_Z 1718000000000 = "web_job_" ++ Str.of_Z 1718000000007
   <-> 1718000000000 = 1718000000007).
Proof.
  apply (post_job_id_vs_tile_id sample_env sample_body "Processing done  "
           "WARNING: low valid fraction");
    [discriminate|reflexivity|reflexivity|reflexivity|reflexivity
    |vm_compute; discriminate|vm_compute; discriminate|vm_compute; discriminate
    |vm_compute; discriminate|intros; reflexivity
    |right; reflexivity|cbn; lia|cbn; lia].
Defined.

Lemma post_cmd_quote_count_witness :
  exists cmd, fst (POST sample_env (Some sample_body)) = [cmd] /\
    count_char dq_char cmd
    = (12 + count_char dq_char "/srv/unreal-miner" + count_char dq_char "data/s1.tif"
       + count_char dq_char "data/s2.tif" + count_char dq_char "data/dem.tif"
       + count_char dq_char "data/out")%nat.
Proof.
  apply (post_cmd_quote_count sample_env sample_body "data/s1.tif" "data/s2.tif"
           "data/dem.tif" "data/out");
    [discriminate|reflexivity|reflexivity|reflexivity|reflexivity
    |reflexivity|reflexivity|reflexivity|reflexivity].
Defined.

Lemma dashboard_vs_queue_route_witness :
  fst (POST_queue 1718000000000) = [] /\
  (exists s, get_prop (payload (snd (POST_queue 1718000000000))) "jobId" = Some (JStr s) /\
             dec_value s 0 = 1718000000000) /\
  last (startJob {| loading := false; st_type := None; msg := "" |}
                 (fetch_of (snd (POST_queue 1718000000000))))
       {| loading := false; st_type := None; msg := "" |}
  = {| loading := false; st_type := Some TSuccess;
       msg := "Job started: Processing job queued successfully" |}.
Proof. apply dashboard_vs_queue_route. lia. Defined.

Lemma run_pipeline_completes_witness :
  script_status (fst (run_pipeline world_no_dem ["--skip-snap"] [])) = 0 /\
  In (Ran (fusion_argv "tile_001")) (snd (run_pipeline world_no_dem ["--skip-snap"] [])) /\
  In (Ran ("python3" :: Scripts.export_argv
             {| Scripts.config_file := "config/default.yaml"; Scripts.tile_id := "tile_001" |}))
     (snd (run_pipeline world_no_dem ["--skip-snap"] [])) /\
  exists d, In (LogLine (d ++ " - Pipeline completed successfully"))
               (snd (run_pipeline world_no_dem ["--skip-snap"] [])).
Proof.
  apply (run_pipeline_completes world_no_dem ["--skip-snap"] skip_snap_flags);
    [reflexivity|intros; reflexivity|intros; reflexivity|intros; reflexivity
    |intros; reflexivity|intros; reflexivity|left; reflexivity
    |intros; reflexivity|intros; reflexivity].
Defined.

Lemma run_pipeline_missing_aligned_input_witness :
  script_status (fst (run_pipeline world_no_s1 [] [])) <> 0 /\
  (forall argv, In (Ran argv) (snd (run_pipeline world_no_s1 [] [])) ->
                hd_error argv <> Some "python3").
Proof.
  apply (run_pipeline_missing_aligned_input world_no_s1 [] default_flags);
    [reflexivity|left; intros; reflexivity].
Defined.

End ExtraWitnesses.

(** ** Witnesses for the version check *)
Module SetupEnvWitnesses.
Import SetupEnv SetupEnvFacts.
Local Open Scope string_scope.

Lemma python_check_numeric_witness :
  let out := "Python " ++ Str.of_Z 3 ++ "." ++ Str.of_Z 10 ++ ".2" ++ String nl "" in
  let V := Str.of_Z 3 ++ "." ++ Str.of_Z 10 ++ ".2" in
  snd (python_check (fun _ => []) (fun w => (w, false)) "" out)
  = (if ((3 <? 3) || ((3 =? 3) && (10 <? 9)))%Z then Some 1 else None) /\
  last (fst (python_check (fun _ => []) (fun w => (w, false)) "" out)) ""
  = (if ((3 <? 3) || ((3 =? 3) && (10 <? 9)))%Z
     then error ("Python 3.9+ required. Found: Python " ++ V)
     else info ("Python " ++ V ++ " detected " ++ check_mark)).
Proof.
  apply (python_check_numeric (fun _ => []) (fun w => (w, false)) "" ".2" 3 10);
    [lia|lia|right; exists "2"; reflexivity|reflexivity].
Defined.

Lemma python_check_without_python3_witness :
  let out := "./setup_environment.sh" ++ ": line " ++ Str.of_Z 373
             ++ ": python3: command not found" ++ String nl "" in
  python_version out = list_ascii_of_string "line" /\
  test_int Z.ltb (python_field (fun _ => []) (fun w => (w, false)) 1 (python_version out))
    ["3"%char] = 2 /\
  test_int Z.eqb (python_field (fun _ => []) (fun w => (w, false)) 1 (python_version out))
    ["3"%char] = 2 /\
  snd (python_check (fun _ => []) (fun w => (w, false)) "" out) = None /\
  last (fst (python_check (fun _ => []) (fun w => (w, false)) "" out)) ""
  = info ("Python line detected " ++ check_mark).
Proof.
  apply (python_check_without_python3 (fun _ => []) (fun w => (w, false))
           "" "./setup_environment.sh" 373); [lia|reflexivity].
Defined.

End SetupEnvWitnesses.
